(** * wheely: the Lorenz water-wheel integrator

    A shallow embedding of [src/wheely_simulation.cpp] (the functions
    [validate_config], [compute_derivatives], [rk4_step] and [simulate])
    and the properties of it that the specification states, followed by
    the two bindings built on it: [src/wheely_module.cpp] (Python) and
    [src/wheely_wasm.cpp] (WebAssembly).

    Modelling choices, all following the C++ text:
    - [double] is the kernel's binary64 type [float]; every arithmetic
      operation is the IEEE-754 round-to-nearest one, evaluated in the order
      the source writes it (no fused multiply-add, no extended precision).
    - [std::size_t] is an [N] below [2 ^ size_bits]; [+], [-] and [*] on it
      wrap around.  The width is a field of the platform, since the
      repository builds both for the host and for wasm32.
    - [std::sin] and [std::fmod] come from the C library; they are fields of
      the platform too, and theorems hold for every platform.
    - [std::vector<double>] is a [list float]; [operator[]] outside the
      vector is undefined behaviour, which the embedding reports as the
      outcome [Undefined].  A vector asked for more than [max_size()]
      elements throws [std::length_error], the outcome [LengthError];
      [max_size()] is a field of the platform.  Below that bound the memory
      is taken to be available: [std::bad_alloc] is not modelled.
    - [throw std::invalid_argument(msg)] is the outcome [Throw msg]. *)

From Stdlib Require Import ZArith NArith Floats String Lia.
From stdpp Require Import base numbers list strings gmap.

Set Warnings "-inexact-float".

(** ** Outcomes of a C++ computation *)

Inductive outcome (A : Type) : Type :=
| Ok (a : A)
| Throw (what : string)
| LengthError
| Undefined.
Arguments Ok {A} a.
Arguments Throw {A} what.
Arguments LengthError {A}.
Arguments Undefined {A}.

#[global] Instance outcome_ret : MRet outcome := λ A a, Ok a.
#[global] Instance outcome_bind : MBind outcome := λ A B f m,
  match m with
  | Ok a => f a
  | Throw what => Throw what
  | LengthError => LengthError
  | Undefined => Undefined
  end.

(** ** The platform: width of [std::size_t], [std::vector<double>::max_size()]
    and the C math library *)

Class Platform : Type := {
  size_bits : N;
  max_size : N;
  sin : float → float;
  fmod : float → float → float
}.

(** ** Binary64 helpers *)

Definition is_zero (x : float) : bool :=
  match Prim2SF x with S754_zero _ => true | _ => false end.

(** Neither an infinity nor a NaN. *)
Definition finite_spec (x : spec_float) : bool :=
  match x with
  | S754_zero _ | S754_finite _ _ _ => true
  | _ => false
  end.

(** [std::isfinite]. *)
Definition isfinite (x : float) : bool := finite_spec (Prim2SF x).

(** [static_cast<double>(n)] for an unsigned integer: the nearest double. *)
Definition double_of_size (n : N) : float :=
  SF2Prim (binary_normalize prec emax (Z.of_N n) 0 false).

Section Engine.
Context `{P : Platform}.

(** ** [std::size_t] arithmetic *)

Definition size_add (a b : N) : N := ((a + b) mod 2 ^ size_bits)%N.
Definition size_mul (a b : N) : N := ((a * b) mod 2 ^ size_bits)%N.
Definition size_sub (a b : N) : N :=
  Z.to_N ((Z.of_N a - Z.of_N b) mod 2 ^ Z.of_N size_bits).

(** ** [std::vector<double>] *)

(** [v[i]] as an rvalue. *)
Definition at_ (v : list float) (i : N) : outcome float :=
  match v !! N.to_nat i with
  | Some x => Ok x
  | None => Undefined
  end.

(** [v[i] = x]. *)
Definition store (v : list float) (i : N) (x : float) : outcome (list float) :=
  if decide (N.to_nat i < length v) then Ok (<[N.to_nat i := x]> v)
  else Undefined.

(** A vector of [n] zeros, as [std::vector<double> v(n, 0.0)] constructs it
    and as [v.resize(n)] and [v.assign(n, 0.0)] make it from an empty
    vector; each throws [std::length_error] when [n] exceeds [max_size()]. *)
Definition vector_of_zeros (n : N) : outcome (list float) :=
  if (max_size <? n)%N then LengthError
  else Ok (replicate (N.to_nat n) 0%float).

(** [for (std::size_t i = first; i < first + trips; ++i) body], threading the
    variables the body assigns.  [i] stays below the loop bound, so [++i]
    never wraps. *)
Fixpoint for_from {S : Type} (trips : nat) (i : N)
    (body : N → S → outcome S) (s : S) : outcome S :=
  match trips with
  | O => Ok s
  | Datatypes.S trips' => s' ← body i s; for_from trips' (N.succ i) body s'
  end.

(** [for (std::size_t i = 0; i < n; ++i) body]. *)
Definition for_ {S : Type} (n : N) (body : N → S → outcome S) (s : S)
    : outcome S :=
  for_from (N.to_nat n) 0 body s.

(** ** wheely_simulation.h *)

Record SimulationConfig : Type := {
  n_cups : N;
  radius : float;
  g : float;
  damping : float;
  leak_rate : float;
  inflow_rate : float;
  inertia : float;
  omega0 : float;
  t_start : float;
  t_end : float;
  n_frames : N;
  steps_per_frame : N
}.

Record SimulationResult : Type := {
  times : list float;
  theta : list float;
  masses : list float
}.

(** ** wheely_simulation.cpp *)

Definition PI : float := 3.14159265358979323846%float.
Definition TWO_PI : float := (2.0 * PI)%float.

Definition validate_config (cfg : SimulationConfig) : outcome unit :=
  if (n_cups cfg <? 1)%N then Throw "n_cups must be positive"
  else if (n_frames cfg <? 2)%N then Throw "n_frames must be at least 2"
  else if (t_end cfg <=? t_start cfg)%float
       then Throw "t_end must be greater than t_start"
  else if (steps_per_frame cfg <? 1)%N
       then Throw "steps_per_frame must be positive"
  else Ok ().

(** The wrapped angle [phi] of the second loop of [compute_derivatives]. *)
Definition wrap_angle (angle : float) : float :=
  let phi := fmod angle TWO_PI in
  if (phi <? 0.0)%float then (phi + TWO_PI)%float else phi.

(** Body of the first loop of [compute_derivatives]: accumulate the torque. *)
Definition torque_body (cfg : SimulationConfig) (state : list float)
    (theta cup_angle_step : float) (i : N) (torque : float) : outcome float :=
  let angle := (theta + cup_angle_step * double_of_size i)%float in
  mass ← at_ state (size_add 2 i);
  Ok (torque + mass * g cfg * radius cfg * sin angle)%float.

(** Body of the second loop: the rate of change of cup [i]'s mass. *)
Definition rate_body (cfg : SimulationConfig) (state : list float)
    (theta cup_angle_step : float) (i : N) (derivatives : list float)
    : outcome (list float) :=
  let angle := (theta + cup_angle_step * double_of_size i)%float in
  let phi := fmod angle TWO_PI in
  let phi := if (phi <? 0.0)%float then (phi + TWO_PI)%float else phi in
  mass ← at_ state (size_add 2 i);
  if ((phi <? 0.1) || (TWO_PI - 0.1 <? phi))%float
  then store derivatives (size_add 2 i)
         (inflow_rate cfg - leak_rate cfg * mass)%float
  else store derivatives (size_add 2 i) ((- leak_rate cfg) * mass)%float.

Definition compute_derivatives (state : list float) (cfg : SimulationConfig)
    : outcome (list float) :=
  let derivatives := replicate (length state) 0%float in
  theta ← at_ state 0;
  omega ← at_ state 1;
  let cup_angle_step := (TWO_PI / double_of_size (n_cups cfg))%float in
  torque ← for_ (n_cups cfg) (torque_body cfg state theta cup_angle_step)
             0%float;
  derivatives ← store derivatives 0 omega;
  derivatives ← store derivatives 1
    (((- damping cfg) * omega + torque) / inertia cfg)%float;
  for_ (n_cups cfg) (rate_body cfg state theta cup_angle_step) derivatives.

(** Body of the three loops of [rk4_step] that fill [temp]:
    [temp[i] = state[i] + h * k[i]]. *)
Definition predict_body (state k : list float) (h : float) (i : N)
    (temp : list float) : outcome (list float) :=
  s ← at_ state i;
  ki ← at_ k i;
  store temp i (s + h * ki)%float.

Definition predict (size : N) (state k temp : list float) (h : float)
    : outcome (list float) :=
  for_ size (predict_body state k h) temp.

(** Body of the last loop of [rk4_step]:
    [state[i] += sixth_dt * (k1[i] + 2.0 * k2[i] + 2.0 * k3[i] + k4[i])]. *)
Definition update_body (k1 k2 k3 k4 : list float) (sixth_dt : float) (i : N)
    (state : list float) : outcome (list float) :=
  s ← at_ state i;
  a ← at_ k1 i;
  b ← at_ k2 i;
  c ← at_ k3 i;
  d ← at_ k4 i;
  store state i (s + sixth_dt * (a + 2.0 * b + 2.0 * c + d))%float.

(** [rk4_step]; the result is the new contents of [state]. *)
Definition rk4_step (state : list float) (dt : float) (cfg : SimulationConfig)
    : outcome (list float) :=
  let size := N.of_nat (length state) in
  let half_dt := (dt * 0.5)%float in
  let sixth_dt := (dt / 6.0)%float in
  k1 ← compute_derivatives state cfg;
  let temp := replicate (length state) 0%float in
  temp ← predict size state k1 temp half_dt;
  k2 ← compute_derivatives temp cfg;
  temp ← predict size state k2 temp half_dt;
  k3 ← compute_derivatives temp cfg;
  temp ← predict size state k3 temp dt;
  k4 ← compute_derivatives temp cfg;
  for_ size (update_body k1 k2 k3 k4 sixth_dt) state.

(** The variables the frame loop of [simulate] updates. *)
Record frame_vars : Type := {
  fv_state : list float;
  fv_current_time : float;
  fv_result : SimulationResult
}.

(** Body of the loop over cups inside the frame loop:
    [result.masses[cup * cfg.n_frames + frame] = state[2 + cup]]. *)
Definition record_body (cfg : SimulationConfig) (frame : N)
    (state : list float) (cup : N) (masses : list float)
    : outcome (list float) :=
  mass ← at_ state (size_add 2 cup);
  store masses (size_add (size_mul cup (n_frames cfg)) frame) mass.

(** The first half of the frame loop's body: record the sample. *)
Definition record_frame (cfg : SimulationConfig) (frame : N) (v : frame_vars)
    : outcome SimulationResult :=
  let result := fv_result v in
  times' ← store (times result) frame (fv_current_time v);
  theta0 ← at_ (fv_state v) 0;
  theta' ← store (theta result) frame theta0;
  masses' ← for_ (n_cups cfg) (record_body cfg frame (fv_state v))
              (masses result);
  Ok {| times := times'; theta := theta'; masses := masses' |}.

(** Body of the sub-step loop: [rk4_step(state, sub_dt, cfg);
    current_time += sub_dt]. *)
Definition advance_body (cfg : SimulationConfig) (sub_dt : float) (step : N)
    (sc : list float * float) : outcome (list float * float) :=
  state' ← rk4_step sc.1 sub_dt cfg;
  Ok (state', (sc.2 + sub_dt)%float).

(** The second half: [steps_per_frame] sub-steps. *)
Definition advance (cfg : SimulationConfig) (sub_dt : float)
    (state : list float) (current_time : float)
    : outcome (list float * float) :=
  for_ (steps_per_frame cfg) (advance_body cfg sub_dt) (state, current_time).

(** [for (frame = first; frame < n_frames; ++frame)] with its [break]. *)
Fixpoint frame_loop (cfg : SimulationConfig) (sub_dt : float)
    (trips : nat) (frame : N) (v : frame_vars) : outcome frame_vars :=
  match trips with
  | O => Ok v
  | S trips' =>
      result ← record_frame cfg frame v;
      if (size_add frame 1 =? n_frames cfg)%N
      then Ok {| fv_state := fv_state v;
                 fv_current_time := fv_current_time v;
                 fv_result := result |}
      else
        sc ← advance cfg sub_dt (fv_state v) (fv_current_time v);
        frame_loop cfg sub_dt trips' (N.succ frame)
          {| fv_state := sc.1; fv_current_time := sc.2; fv_result := result |}
  end.

Definition frame_dt (cfg : SimulationConfig) : float :=
  ((t_end cfg - t_start cfg) / double_of_size (size_sub (n_frames cfg) 1))%float.

Definition sub_dt (cfg : SimulationConfig) : float :=
  (frame_dt cfg / double_of_size (steps_per_frame cfg))%float.

Definition simulate (cfg : SimulationConfig) : outcome SimulationResult :=
  _ ← validate_config cfg;
  let state_size := size_add (n_cups cfg) 2 in
  state ← vector_of_zeros state_size;
  state ← store state 1 (omega0 cfg);
  times ← vector_of_zeros (n_frames cfg);
  theta ← vector_of_zeros (n_frames cfg);
  masses ← vector_of_zeros (size_mul (n_cups cfg) (n_frames cfg));
  let result := {| times := times; theta := theta; masses := masses |} in
  v ← frame_loop cfg (sub_dt cfg) (N.to_nat (n_frames cfg)) 0
        {| fv_state := state;
           fv_current_time := t_start cfg;
           fv_result := result |};
  Ok (fv_result v).

End Engine.

(** ** The specification's formulas *)

Section Formulas.
Context `{P : Platform}.

(** Angle of cup [i]: [theta + i * (2*pi / n_cups)]. *)
Definition spec_cup_angle (cfg : SimulationConfig) (theta : float) (i : nat)
    : float :=
  (theta + double_of_size (N.of_nat i) * (TWO_PI / double_of_size (n_cups cfg)))%float.

(** A sum of doubles, accumulated from [0.0] in index order. *)
Definition sum_doubles (l : list float) : float := foldl PrimFloat.add 0%float l.

Definition spec_torque (cfg : SimulationConfig) (theta : float)
    (cup_masses : list float) : float :=
  sum_doubles (imap (λ i mass,
    (mass * g cfg * radius cfg * sin (spec_cup_angle cfg theta i))%float)
    cup_masses).

Definition in_inflow_window (phi : float) : bool :=
  ((phi <? 0.1) || (TWO_PI - 0.1 <? phi))%float.

Definition spec_mass_rate (cfg : SimulationConfig) (theta : float) (i : nat)
    (mass : float) : float :=
  if in_inflow_window (wrap_angle (spec_cup_angle cfg theta i))
  then (inflow_rate cfg - leak_rate cfg * mass)%float
  else ((- leak_rate cfg) * mass)%float.

Definition spec_derivatives (cfg : SimulationConfig) (state : list float)
    : list float :=
  match state with
  | theta :: omega :: cup_masses =>
      omega
      :: (((- damping cfg) * omega + spec_torque cfg theta cup_masses)
          / inertia cfg)%float
      :: imap (spec_mass_rate cfg theta) cup_masses
  | _ => []
  end.

End Formulas.

Section Rk4Formulas.
Context `{P : Platform}.

(** [state + h * k], component-wise. *)
Definition axpy (h : float) (state k : list float) : list float :=
  zip_with (λ s ki, (s + h * ki)%float) state k.

(** [state + sixth_dt * (k1 + 2*k2 + 2*k3 + k4)], component-wise. *)
Fixpoint rk4_combine (sixth_dt : float) (state k1 k2 k3 k4 : list float)
    : list float :=
  match state, k1, k2, k3, k4 with
  | s :: state', a :: k1', b :: k2', c :: k3', d :: k4' =>
      (s + sixth_dt * (a + 2.0 * b + 2.0 * c + d))%float
      :: rk4_combine sixth_dt state' k1' k2' k3' k4'
  | _, _, _, _, _ => []
  end.

(** The classical Runge-Kutta step of the specification, with
    [f = spec_derivatives cfg]. *)
Definition spec_rk4_step (cfg : SimulationConfig) (dt : float)
    (state : list float) : list float :=
  let f := spec_derivatives cfg in
  let k1 := f state in
  let k2 := f (axpy (dt / 2.0) state k1) in
  let k3 := f (axpy (dt / 2.0) state k2) in
  let k4 := f (axpy dt state k3) in
  rk4_combine (dt / 6.0) state k1 k2 k3 k4.

End Rk4Formulas.

(** ** The trajectory that [simulate] samples *)

Section Trajectory.
Context `{P : Platform}.

Definition cups (cfg : SimulationConfig) : nat := N.to_nat (n_cups cfg).
Definition frames (cfg : SimulationConfig) : nat := N.to_nat (n_frames cfg).
Definition substeps (cfg : SimulationConfig) : nat :=
  N.to_nat (steps_per_frame cfg).

(** [theta = 0], [omega = omega0], every cup empty. *)
Definition initial_state (cfg : SimulationConfig) : list float :=
  0%float :: omega0 cfg :: replicate (cups cfg) 0%float.

(** The state vector after [j] sub-steps. *)
Definition state_after (cfg : SimulationConfig) (j : nat) : list float :=
  Nat.iter j (spec_rk4_step cfg (sub_dt cfg)) (initial_state cfg).

(** The running time after [j] sub-steps: [sub_dt] added [j] times. *)
Definition time_after (cfg : SimulationConfig) (j : nat) : float :=
  Nat.iter j (λ t, (t + sub_dt cfg)%float) (t_start cfg).

(** The configuration passes [validate_config]. *)
Definition accepted (cfg : SimulationConfig) : Prop :=
  validate_config cfg = Ok ().

(** The two sizes [simulate] computes are representable in [std::size_t]. *)
Definition sizes_fit (cfg : SimulationConfig) : Prop :=
  (n_cups cfg + 2 < 2 ^ size_bits)%N ∧
  (n_cups cfg * n_frames cfg < 2 ^ size_bits)%N.

(** None of the vectors [simulate] creates is larger than [max_size()]. *)
Definition vectors_fit (cfg : SimulationConfig) : Prop :=
  (n_cups cfg + 2 ≤ max_size)%N ∧ (n_frames cfg ≤ max_size)%N ∧
  (n_cups cfg * n_frames cfg ≤ max_size)%N.

(** The result holds the samples of the first [f] frames. *)
Record recorded (cfg : SimulationConfig) (f : nat) (r : SimulationResult)
    : Prop := {
  rec_times_length : length (times r) = frames cfg;
  rec_theta_length : length (theta r) = frames cfg;
  rec_masses_length : length (masses r) = cups cfg * frames cfg;
  rec_times : ∀ k, k < f →
    times r !! k = Some (time_after cfg (k * substeps cfg));
  rec_theta : ∀ k, k < f →
    theta r !! k = state_after cfg (k * substeps cfg) !! 0;
  rec_masses : ∀ k c, k < f → c < cups cfg →
    masses r !! (c * frames cfg + k)
    = state_after cfg (k * substeps cfg) !! (2 + c)
}.

End Trajectory.

(** ** Reference platforms

    Two platforms on which the model runs, used to evaluate it on concrete
    configurations.  [fmod_ref] is the exact remainder that C's [fmod]
    computes.  [sin_ref] is a polynomial stand-in for the C library's sine
    (the library's own rounding is not specified bit for bit); no theorem
    below depends on its values beyond their being finite. *)

Definition fmod_ref (x y : float) : float :=
  match Prim2SF x, Prim2SF y with
  | S754_nan, _ | _, S754_nan => nan
  | S754_infinity _, _ => nan
  | _, S754_zero _ => nan
  | S754_zero _, _ => x
  | S754_finite _ _ _, S754_infinity _ => x
  | S754_finite sx mx ex, S754_finite _ my ey =>
      let e := Z.min ex ey in
      let r := ((Z.pos mx * 2 ^ (ex - e)) mod (Z.pos my * 2 ^ (ey - e)))%Z in
      SF2Prim (binary_normalize prec emax (if sx then - r else r)%Z e sx)
  end.

Definition sin_poly (r : float) : float :=
  let r2 := (r * r)%float in
  let term (k acc : float) : float := (1 - r2 / k * acc)%float in
  (r * term 6 (term 20 (term 42 (term 72 (term 110 (term 156 (term 210
        (term 272 (term 342 (term 420 (term 506 (term 600 1))))))))))))%float.

Definition sin_ref (x : float) : float :=
  if isfinite x then
    let r := fmod_ref x TWO_PI in
    let r := if (PI <? r)%float then (r - TWO_PI)%float
             else if (r <? - PI)%float then (r + TWO_PI)%float else r in
    let y := sin_poly r in
    if ((-1 <=? y) && (y <=? 1))%float then y else 0%float
  else nan.

(** A 64-bit host; [max_size()] is [PTRDIFF_MAX / sizeof(double)], as in
    libstdc++. *)
Definition host64 : Platform :=
  {| size_bits := 64; max_size := 1152921504606846975;
     sin := sin_ref; fmod := fmod_ref |}.

(** The WebAssembly build of [wheely_wasm.cpp]: [std::size_t] has 32 bits;
    [max_size()] is [SIZE_MAX / sizeof(double)], as in libc++. *)
Definition wasm32 : Platform :=
  {| size_bits := 32; max_size := 536870911;
     sin := sin_ref; fmod := fmod_ref |}.

(** ** Configurations of the repository's tests *)

(** [make_valid_config] of [tests/wheely_simulation_test.cpp]. *)
Definition make_valid_config : SimulationConfig :=
  {| n_cups := 2; radius := 1.0; g := 9.81; damping := 0.05;
     leak_rate := 0.02; inflow_rate := 0.5; inertia := 1.5; omega0 := 0.0;
     t_start := 0.0; t_end := 1.0; n_frames := 5; steps_per_frame := 2 |}.

(** The configuration of [ComputesTorqueAndAngularAcceleration]. *)
Definition torque_test_config : SimulationConfig :=
  {| n_cups := 1; radius := 1.0; g := 9.81; damping := 0.5;
     leak_rate := 0.1; inflow_rate := 1.0; inertia := 2.0; omega0 := 0.0;
     t_start := 0.0; t_end := 1.0; n_frames := 5; steps_per_frame := 2 |}.

(** The configuration of [AdvancesAngleWithConstantAngularVelocity]. *)
Definition rk4_test_config : SimulationConfig :=
  {| n_cups := 1; radius := 1.0; g := 9.81; damping := 0.0;
     leak_rate := 0.0; inflow_rate := 0.0; inertia := 1.0; omega0 := 0.0;
     t_start := 0.0; t_end := 1.0; n_frames := 5; steps_per_frame := 2 |}.

(** The configuration of [ProducesExpectedFramesAndAngles]. *)
Definition frames_test_config : SimulationConfig :=
  {| n_cups := 1; radius := 1.0; g := 9.81; damping := 0.0;
     leak_rate := 0.0; inflow_rate := 0.0; inertia := 1.0; omega0 := 1.0;
     t_start := 0.0; t_end := 1.0; n_frames := 3; steps_per_frame := 5 |}.

(** ** Predicates used by the statements *)

(** The outcome is a thrown [std::invalid_argument]. *)
Definition throws {A : Type} (o : outcome A) : Prop := ∃ what, o = Throw what.

(** The four conditions of the validator. *)
Definition invalid_configuration (cfg : SimulationConfig) : Prop :=
  (n_cups cfg < 1)%N ∨ (n_frames cfg < 2)%N ∨
  (t_end cfg <=? t_start cfg)%float = true ∨ (steps_per_frame cfg < 1)%N.

(** [SIZE_MAX] cups on the 64-bit host: [n_cups + 2] wraps around to [1]. *)
Definition size_max_cups_config : SimulationConfig :=
  {| n_cups := 2 ^ 64 - 1; radius := 1.0; g := 9.81; damping := 0.05;
     leak_rate := 0.02; inflow_rate := 0.5; inertia := 1.5; omega0 := 0.0;
     t_start := 0.0; t_end := 1.0; n_frames := 2; steps_per_frame := 1 |}.

(** [2^16] cups and [2^16] frames on wasm32: [n_cups * n_frames] wraps
    around to [0]. *)
Definition table_wraps_config : SimulationConfig :=
  {| n_cups := 65536; radius := 1.0; g := 9.81; damping := 0.05;
     leak_rate := 0.02; inflow_rate := 0.5; inertia := 1.5; omega0 := 0.0;
     t_start := 0.0; t_end := 1.0; n_frames := 65536; steps_per_frame := 1 |}.

(** [SIZE_MAX - 1] cups on wasm32: [n_cups + 2] wraps around to [0]. *)
Definition empty_state_config : SimulationConfig :=
  {| n_cups := 2 ^ 32 - 2; radius := 1.0; g := 9.81; damping := 0.05;
     leak_rate := 0.02; inflow_rate := 0.5; inertia := 1.5; omega0 := 0.0;
     t_start := 0.0; t_end := 1.0; n_frames := 2; steps_per_frame := 1 |}.

(** ** Side conditions on the binary64 values *)

(** Neither zero nor NaN: a divisor that leaves [0 / x] a zero. *)
Definition nonzero_number (x : float) : bool :=
  match Prim2SF x with S754_zero _ | S754_nan => false | _ => true end.

Section RestFormulas.
Context `{P : Platform}.

(** [std::sin] returns a finite value at every cup angle for wheel angle
    [theta]. *)
Definition sines_finite (cfg : SimulationConfig) (theta : float) : Prop :=
  ∀ i, i < cups cfg → isfinite (sin (spec_cup_angle cfg theta i)) = true.

(** The platform's sine is finite on finite arguments. *)
Definition sin_finite_on_finite : Prop :=
  ∀ x, isfinite x = true → isfinite (sin x) = true.

(** The angle gained in one sub-step at constant angular velocity [omega]. *)
Definition theta_increment (dt omega : float) : float :=
  (dt / 6.0 * (omega + 2.0 * omega + 2.0 * omega + omega))%float.

(** The wheel angle after [j] sub-steps at constant angular velocity. *)
Definition theta_linear (cfg : SimulationConfig) (j : nat) : float :=
  Nat.iter j (λ th, (th + theta_increment (sub_dt cfg) (omega0 cfg))%float)
    0%float.

End RestFormulas.

Section Along.
Context `{P : Platform}.

(** [std::sin] is finite at every cup angle the integrator evaluates during
    the first [J] sub-steps of a run at constant angular velocity: at the
    angle of each step and at its midpoint and endpoint predictions. *)
Definition sines_finite_along (cfg : SimulationConfig) (J : nat) : Prop :=
  ∀ j, j < J →
    sines_finite cfg (theta_linear cfg j) ∧
    sines_finite cfg
      (theta_linear cfg j + sub_dt cfg / 2.0 * omega0 cfg)%float ∧
    sines_finite cfg (theta_linear cfg j + sub_dt cfg * omega0 cfg)%float.

End Along.

(** ** Further configurations *)

(** The end-to-end example of the specification: one cup, unit angular
    velocity, no damping, no leak, no inflow, no gravity; the specification
    leaves the radius open. *)
Definition linear_growth_config (radius : float) : SimulationConfig :=
  {| n_cups := 1; radius := radius; g := 0.0; damping := 0.0;
     leak_rate := 0.0; inflow_rate := 0.0; inertia := 1.0; omega0 := 1.0;
     t_start := 0.0; t_end := 1.0; n_frames := 3; steps_per_frame := 5 |}.

(** As above with [omega0 = 0.1] and a single sub-step between two frames. *)
Definition tenth_turn_config : SimulationConfig :=
  {| n_cups := 1; radius := 1.0; g := 0.0; damping := 0.0;
     leak_rate := 0.0; inflow_rate := 0.0; inertia := 1.0; omega0 := 0.1;
     t_start := 0.0; t_end := 1.0; n_frames := 2; steps_per_frame := 1 |}.

(** As [linear_growth_config 1.0] with the header's default
    [inertia = 0.0]. *)
Definition zero_inertia_config : SimulationConfig :=
  {| n_cups := 1; radius := 1.0; g := 0.0; damping := 0.0;
     leak_rate := 0.0; inflow_rate := 0.0; inertia := 0.0; omega0 := 1.0;
     t_start := 0.0; t_end := 1.0; n_frames := 3; steps_per_frame := 5 |}.

(** As [linear_growth_config] with an infinite radius. *)
Definition infinite_radius_config : SimulationConfig :=
  linear_growth_config infinity.

(** No inflow and no leak over a time span whose length overflows:
    [t_end - t_start] is [+infinity] although both ends are finite. *)
Definition wide_span_config : SimulationConfig :=
  {| n_cups := 1; radius := 1.0; g := 9.81; damping := 0.05;
     leak_rate := 0.0; inflow_rate := 0.0; inertia := 1.5; omega0 := 1.0;
     t_start := -1e308; t_end := 1e308; n_frames := 2;
     steps_per_frame := 1 |}.

(** [std::isnan]. *)
Definition isnan (x : float) : bool :=
  match Prim2SF x with S754_nan => true | _ => false end.

(** ** wheely_wasm.cpp: the WebAssembly binding *)

Definition run_simulation `{P : Platform} (cfg : SimulationConfig)
    : outcome SimulationResult :=
  simulate cfg.

(** ** wheely_module.cpp: the Python binding *)

(** What the binding takes from Python and pybind11: the objects a [dict]
    holds and the two conversions [handle.cast<std::size_t>()] and
    [handle.cast<double>()], each of which returns the converted value or
    throws.  Theorems hold for every such pair of conversions. *)
Class Python : Type := {
  py_object : Type;
  cast_size : py_object → outcome N;
  cast_double : py_object → outcome float
}.

(** A [py::array_t<double>]: a numpy array in C order, given by its shape
    and its buffer.  A new array is not initialised: a cell is [None] until
    it is written. *)
Record ndarray : Type := {
  nd_shape : list N;
  nd_data : list (option float)
}.

(** [py::array_t<double> a(shape)]. *)
Definition array_t (shape : list N) : ndarray :=
  {| nd_shape := shape;
     nd_data := replicate (N.to_nat (foldr N.mul 1%N shape)) None |}.

(** [std::copy(src.begin(), src.end(), dst.mutable_data())]: the elements
    of [src] overwrite the front of the buffer; writing past its end is
    undefined behaviour. *)
Definition std_copy (src : list float) (dst : ndarray) : outcome ndarray :=
  if decide (length src ≤ length (nd_data dst))
  then Ok {| nd_shape := nd_shape dst;
             nd_data := (Some <$> src) ++ drop (length src) (nd_data dst) |}
  else Undefined.

Section Binding.
Context `{P : Platform} `{Py : Python}.

(** The lambda [require] of [make_config_from_dict].  The [py::dict] is a
    finite map; only string keys are ever looked up. *)
Definition require (data : gmap string py_object) (key : string)
    : outcome py_object :=
  match data !! key with
  | None => Throw ("Missing key: " +:+ key)
  | Some value => Ok value
  end.

Definition make_config_from_dict (data : gmap string py_object)
    (steps : N) : outcome SimulationConfig :=
  c_n_cups ← require data "N_CUPS" ≫= cast_size;
  c_radius ← require data "RADIUS" ≫= cast_double;
  c_g ← require data "G" ≫= cast_double;
  c_damping ← require data "DAMPING" ≫= cast_double;
  c_leak_rate ← require data "LEAK_RATE" ≫= cast_double;
  c_inflow_rate ← require data "INFLOW_RATE" ≫= cast_double;
  c_inertia ← require data "INERTIA" ≫= cast_double;
  c_omega0 ← require data "OMEGA0" ≫= cast_double;
  c_t_start ← require data "T_START" ≫= cast_double;
  c_t_end ← require data "T_END" ≫= cast_double;
  c_n_frames ← require data "N_FRAMES" ≫= cast_size;
  let cfg :=
    {| n_cups := c_n_cups; radius := c_radius; g := c_g;
       damping := c_damping; leak_rate := c_leak_rate;
       inflow_rate := c_inflow_rate; inertia := c_inertia;
       omega0 := c_omega0; t_start := c_t_start; t_end := c_t_end;
       n_frames := c_n_frames; steps_per_frame := steps |} in
  if (n_cups cfg <? 1)%N then Throw "N_CUPS must be positive"
  else if (n_frames cfg <? 2)%N then Throw "N_FRAMES must be at least 2"
  else if (t_end cfg <=? t_start cfg)%float
       then Throw "T_END must be greater than T_START"
  else if (steps_per_frame cfg <? 1)%N
       then Throw "steps_per_frame must be positive"
  else Ok cfg.

(** [to_python]: the tuple [(times_array, theta_array, masses_array)]. *)
Definition to_python (result : SimulationResult) (n_cups : N)
    : outcome (ndarray * ndarray * ndarray) :=
  let n_frames := N.of_nat (length (theta result)) in
  times_array ← std_copy (times result) (array_t [n_frames]);
  theta_array ← std_copy (theta result) (array_t [n_frames]);
  masses_array ← std_copy (masses result) (array_t [n_cups; n_frames]);
  Ok (times_array, theta_array, masses_array).

Definition simulate_impl (cfg : SimulationConfig)
    : outcome (ndarray * ndarray * ndarray) :=
  result ← simulate cfg;
  to_python result (n_cups cfg).

(** The function [simulate] of the module [wheely_cpp]; the argument
    [steps_per_frame] is optional and defaults to [4]. *)
Definition wheely_cpp_simulate (config : gmap string py_object)
    (steps_per_frame : option N) : outcome (ndarray * ndarray * ndarray) :=
  cfg ← make_config_from_dict config (default 4%N steps_per_frame);
  simulate_impl cfg.

(** *** What a Python caller sees *)

(** The eleven keys the binding reads, in the order it reads them, each
    with the conversion applied to its value ([true]: to [std::size_t],
    [false]: to [double]). *)
Definition required_keys : list (string * bool) :=
  [("N_CUPS", true); ("RADIUS", false); ("G", false); ("DAMPING", false);
   ("LEAK_RATE", false); ("INFLOW_RATE", false); ("INERTIA", false);
   ("OMEGA0", false); ("T_START", false); ("T_END", false);
   ("N_FRAMES", true)].

(** The value under [key] is present and converts. *)
Definition converts (data : gmap string py_object) (key : string)
    (to_size : bool) : Prop :=
  ∃ value, data !! key = Some value ∧
    if to_size then ∃ n, cast_size value = Ok n
    else ∃ x, cast_double value = Ok x.

(** The dictionary holds a size under [key]. *)
Definition holds_size (data : gmap string py_object) (key : string) (n : N)
    : Prop :=
  ∃ value, data !! key = Some value ∧ cast_size value = Ok n.

(** The dictionary holds a double under [key]. *)
Definition holds_double (data : gmap string py_object) (key : string)
    (x : float) : Prop :=
  ∃ value, data !! key = Some value ∧ cast_double value = Ok x.

(** Every required key is present and converts to the field of [cfg] that
    the binding fills from it. *)
Definition dict_holds (data : gmap string py_object) (cfg : SimulationConfig)
    : Prop :=
  holds_size data "N_CUPS" (n_cups cfg) ∧
  holds_double data "RADIUS" (radius cfg) ∧
  holds_double data "G" (g cfg) ∧
  holds_double data "DAMPING" (damping cfg) ∧
  holds_double data "LEAK_RATE" (leak_rate cfg) ∧
  holds_double data "INFLOW_RATE" (inflow_rate cfg) ∧
  holds_double data "INERTIA" (inertia cfg) ∧
  holds_double data "OMEGA0" (omega0 cfg) ∧
  holds_double data "T_START" (t_start cfg) ∧
  holds_double data "T_END" (t_end cfg) ∧
  holds_size data "N_FRAMES" (n_frames cfg).

End Binding.

(** [a[k]] for a one-dimensional array, as Python reads it: [None] outside
    the shape, [Some None] for a cell never written. *)
Definition nd_item1 (a : ndarray) (k : nat) : option (option float) :=
  match nd_shape a with
  | [n] => if decide (k < N.to_nat n) then nd_data a !! k else None
  | _ => None
  end.

(** [a[c, k]] for a two-dimensional array in C order. *)
Definition nd_item2 (a : ndarray) (c k : nat) : option (option float) :=
  match nd_shape a with
  | [rows; cols] =>
      if decide (c < N.to_nat rows ∧ k < N.to_nat cols)
      then nd_data a !! (c * N.to_nat cols + k)
      else None
  | _ => None
  end.

(** An array all of whose cells hold the given values. *)
Definition nd_filled (shape : list N) (values : list float) : ndarray :=
  {| nd_shape := shape; nd_data := Some <$> values |}.

(** ** A reference Python

    Integers, floats and strings, with conversions that accept what
    pybind11 accepts among them: a non-negative integer below
    [2 ^ bits] as a size, an integer or a float as a double.  Used only to
    evaluate the binding on concrete dictionaries. *)
Inductive py_value : Type :=
| PyInt (z : Z)
| PyFloat (x : float)
| PyStr (s : string).

Definition cast_size_ref (bits : N) (value : py_value) : outcome N :=
  match value with
  | PyInt z =>
      if ((0 <=? z) && (z <? 2 ^ Z.of_N bits))%Z then Ok (Z.to_N z)
      else Throw "Unable to cast Python instance to C++ type"
  | _ => Throw "Unable to cast Python instance to C++ type"
  end.

Definition cast_double_ref (value : py_value) : outcome float :=
  match value with
  | PyInt z => Ok (SF2Prim (binary_normalize prec emax z 0 false))
  | PyFloat x => Ok x
  | PyStr _ => Throw "Unable to cast Python instance to C++ type"
  end.

Definition python_ref (bits : N) : Python :=
  {| py_object := py_value;
     cast_size := cast_size_ref bits;
     cast_double := cast_double_ref |}.

(** The dictionary form of [make_valid_config]. *)
Definition valid_dict : gmap string py_value :=
  list_to_map
    [("N_CUPS", PyInt 2); ("RADIUS", PyFloat 1.0); ("G", PyFloat 9.81);
     ("DAMPING", PyFloat 0.05); ("LEAK_RATE", PyFloat 0.02);
     ("INFLOW_RATE", PyFloat 0.5); ("INERTIA", PyFloat 1.5);
     ("OMEGA0", PyFloat 0.0); ("T_START", PyFloat 0.0);
     ("T_END", PyFloat 1.0); ("N_FRAMES", PyInt 5)].

(** What [valid_dict] yields with the default [steps_per_frame = 4]. *)
Definition valid_dict_config : SimulationConfig :=
  {| n_cups := 2; radius := 1.0; g := 9.81; damping := 0.05;
     leak_rate := 0.02; inflow_rate := 0.5; inertia := 1.5; omega0 := 0.0;
     t_start := 0.0; t_end := 1.0; n_frames := 5; steps_per_frame := 4 |}.

(** [make_valid_config] with the inflow closed. *)
Definition dry_config : SimulationConfig :=
  {| n_cups := 2; radius := 1.0; g := 9.81; damping := 0.05;
     leak_rate := 0.02; inflow_rate := 0.0; inertia := 1.5; omega0 := 0.0;
     t_start := 0.0; t_end := 1.0; n_frames := 5; steps_per_frame := 2 |}.

(** [make_valid_config] with [t_end] a NaN. *)
Definition nan_end_config : SimulationConfig :=
  {| n_cups := 2; radius := 1.0; g := 9.81; damping := 0.05;
     leak_rate := 0.02; inflow_rate := 0.5; inertia := 1.5; omega0 := 0.0;
     t_start := 0.0; t_end := nan; n_frames := 5; steps_per_frame := 2 |}.

(** ** Further inputs and closed forms *)

(** A single cup and zero damping, as in the sub-step example of the
    specification, which leaves the other parameters open. *)
Definition single_cup_config (radius g leak_rate inflow_rate inertia : float)
    : SimulationConfig :=
  {| n_cups := 1; radius := radius; g := g; damping := 0.0;
     leak_rate := leak_rate; inflow_rate := inflow_rate; inertia := inertia;
     omega0 := 0.0; t_start := 0.0; t_end := 1.0; n_frames := 5;
     steps_per_frame := 2 |}.

(** A time span of 32 units in the last place of [t_start = 1e16], cut into
    sub-steps of [0.5]: adding one to the running time changes nothing. *)
Definition stuck_clock_config : SimulationConfig :=
  {| n_cups := 1; radius := 1.0; g := 0.0; damping := 0.0;
     leak_rate := 0.0; inflow_rate := 0.0; inertia := 1.0; omega0 := 1.0;
     t_start := 1e16; t_end := 10000000000000064; n_frames := 3;
     steps_per_frame := 64 |}.


(** [make_valid_config] with [2^60] cups: no size wraps around on the
    64-bit host, but the state vector would exceed [max_size()]. *)
Definition too_long_config : SimulationConfig :=
  {| n_cups := 2 ^ 60; radius := 1.0; g := 9.81; damping := 0.05;
     leak_rate := 0.02; inflow_rate := 0.5; inertia := 1.5; omega0 := 0.0;
     t_start := 0.0; t_end := 1.0; n_frames := 2; steps_per_frame := 1 |}.

(** [|x - y| <= tolerance], the comparison of the tests' [EXPECT_NEAR]. *)
Definition near (x y tolerance : float) : bool :=
  (abs (x - y) <=? tolerance)%float.

Section ClosedForm.
Context `{P : Platform}.

(** The result written out entry by entry: the running time and the wheel
    angle of every frame, and the table of masses in its cup-major
    layout. *)
Definition sampled_result (cfg : SimulationConfig) : SimulationResult :=
  {| times := (λ k, time_after cfg (k * substeps cfg)) <$> seq 0 (frames cfg);
     theta := (λ k, default 0%float
                      (state_after cfg (k * substeps cfg) !! 0))
              <$> seq 0 (frames cfg);
     masses := (λ idx, default 0%float
                         (state_after cfg (idx `mod` frames cfg * substeps cfg)
                          !! (2 + idx `div` frames cfg)))
               <$> seq 0 (cups cfg * frames cfg) |}.

End ClosedForm.


(** * Facts *)

(** ** Rounding to binary64 does not overflow below [2^1023] *)

Section Rounding.
Local Open Scope Z_scope.

Lemma digits2_pos_size p : digits2_pos p = Pos.size p.
Proof. induction p; simpl; congruence. Qed.

Lemma digits2_pos_gt p : Z.pos p < 2 ^ Z.pos (digits2_pos p).
Proof.
  rewrite digits2_pos_size.
  pose proof (Pos.size_gt p) as H.
  apply Pos2Z.pos_lt_pos in H. by rewrite Pos2Z.inj_pow in H.
Qed.

Lemma digits2_pos_le p : 2 ^ Z.pos (digits2_pos p) ≤ 2 * Z.pos p.
Proof.
  rewrite digits2_pos_size.
  pose proof (Pos.size_le p) as H.
  apply Pos2Z.pos_le_pos in H. by rewrite Pos2Z.inj_pow in H.
Qed.

Lemma Zdigits2_nonneg z : 0 ≤ Zdigits2 z.
Proof. destruct z; simpl; lia. Qed.

(** A non-negative integer below [2^k] has at most [k] binary digits. *)
Lemma Zdigits2_le z k : 0 ≤ k → 0 ≤ z < 2 ^ k → Zdigits2 z ≤ k.
Proof.
  intros Hk [Hz Hlt]. destruct z as [|p|p]; simpl; [done| |lia].
  pose proof (digits2_pos_le p) as Hle.
  destruct (Z.le_gt_cases (Z.pos (digits2_pos p)) k) as [|Hgt]; [done|].
  exfalso.
  assert (2 ^ (k + 1) ≤ 2 ^ Z.pos (digits2_pos p))
    by (apply Z.pow_le_mono_r; lia).
  rewrite Z.pow_add_r in * by lia. lia.
Qed.

Lemma Zdigits2_gt z : 0 ≤ z → z < 2 ^ Zdigits2 z.
Proof.
  intros Hz. destruct z as [|p|p]; simpl; [done| |lia].
  apply digits2_pos_gt.
Qed.

Lemma shr_1_bounds mrs :
  0 ≤ shr_m mrs → 0 ≤ shr_m (shr_1 mrs) ∧ 2 * shr_m (shr_1 mrs) ≤ shr_m mrs.
Proof.
  destruct mrs as [m r s]. simpl. intros Hm.
  destruct m as [|[p|p|]|p]; simpl; lia.
Qed.

Lemma iter_pos_shr_1_bounds p mrs :
  0 ≤ shr_m mrs →
  0 ≤ shr_m (SpecFloat.iter_pos shr_1 p mrs) ∧
  2 ^ Z.pos p * shr_m (SpecFloat.iter_pos shr_1 p mrs) ≤ shr_m mrs.
Proof.
  revert mrs.
  induction p as [p IH|p IH|]; intros mrs Hm; simpl SpecFloat.iter_pos.
  - destruct (shr_1_bounds mrs Hm) as [H0 H1].
    destruct (IH _ H0) as [H2 H3]. destruct (IH _ H2) as [H4 H5].
    split; [done|].
    replace (Z.pos p~1) with (Z.pos p + Z.pos p + 1) by lia.
    rewrite !Z.pow_add_r, Z.pow_1_r by lia.
    assert (0 < 2 ^ Z.pos p) by (apply Z.pow_pos_nonneg; lia). nia.
  - destruct (IH _ Hm) as [H2 H3]. destruct (IH _ H2) as [H4 H5].
    split; [done|].
    replace (Z.pos p~0) with (Z.pos p + Z.pos p) by lia.
    rewrite !Z.pow_add_r by lia.
    assert (0 < 2 ^ Z.pos p) by (apply Z.pow_pos_nonneg; lia). nia.
  - destruct (shr_1_bounds mrs Hm) as [H0 H1]. split; [done|].
    by rewrite Z.pow_1_r.
Qed.

Lemma round_nearest_even_bounds m l :
  m ≤ round_nearest_even m l ≤ m + 1.
Proof.
  unfold round_nearest_even.
  destruct l as [|[| |]]; try destruct (Z.even m); lia.
Qed.

Lemma shr_record_of_loc_m m l : shr_m (shr_record_of_loc m l) = m.
Proof. by destruct l as [|[| |]]. Qed.

(** [shr_fexp] either leaves the mantissa alone or divides it by the power
    of two that brings the exponent up to [fexp]. *)
Lemma shr_fexp_bounds mx ex l mrs e' :
  0 ≤ mx → shr_fexp prec emax mx ex l = (mrs, e') →
  0 ≤ shr_m mrs ∧
  (e' = ex ∧ shr_m mrs = mx ∨
   e' = fexp prec emax (Zdigits2 mx + ex) ∧ ex < e' ∧
   2 ^ (e' - ex) * shr_m mrs ≤ mx).
Proof.
  intros Hmx. unfold shr_fexp, shr.
  destruct (fexp prec emax (Zdigits2 mx + ex) - ex) as [|p|p] eqn:Hn;
    intros [= <- <-]; rewrite ?shr_record_of_loc_m; try (split; [done|by left]).
  destruct (iter_pos_shr_1_bounds p (shr_record_of_loc mx l)) as [H0 H1];
    [by rewrite shr_record_of_loc_m|].
  rewrite shr_record_of_loc_m in H1.
  split; [done|]. right. split; [lia|]. split; [lia|].
  by replace (ex + Z.pos p - ex) with (Z.pos p) by lia.
Qed.

Lemma pow2_quotient_bound (sm mx D δ : Z) :
  0 ≤ D → 0 < δ → 0 ≤ sm → 2 ^ δ * sm ≤ mx → mx < 2 ^ D →
  sm + 1 ≤ 2 ^ Z.max (D - δ) 0.
Proof.
  intros HD Hδ Hsm Hle Hlt.
  assert (Hpos : 0 < 2 ^ δ) by (apply Z.pow_pos_nonneg; lia).
  destruct (Z.le_gt_cases δ D) as [Hd|Hd].
  - rewrite Z.max_l by lia.
    replace D with (δ + (D - δ)) in Hlt by lia.
    rewrite Z.pow_add_r in Hlt by lia.
    assert (2 ^ δ * sm < 2 ^ δ * 2 ^ (D - δ)) as Hc by lia.
    apply Z.mul_lt_mono_pos_l in Hc; lia.
  - rewrite Z.max_r by lia. simpl.
    assert (2 ^ D ≤ 2 ^ δ) by (apply Z.pow_le_mono_r; lia).
    assert (2 ^ δ * sm < 2 ^ δ * 1) as Hc by lia.
    apply Z.mul_lt_mono_pos_l in Hc; lia.
Qed.

(** Rounding a non-negative mantissa whose value is below [2^1023] gives a
    zero or a finite number, never an infinity. *)
Lemma binary_round_aux_finite s mx ex l :
  0 ≤ mx → Zdigits2 mx + ex ≤ 1023 → ex ≤ 971 →
  finite_spec (binary_round_aux prec emax s mx ex l) = true.
Proof.
  intros Hmx Hval Hex. unfold binary_round_aux.
  destruct (shr_fexp prec emax mx ex l) as [mrs' e'] eqn:E1.
  set (m1 := round_nearest_even (shr_m mrs') (loc_of_shr_record mrs')).
  destruct (shr_fexp prec emax m1 e' loc_Exact) as [mrs'' e''] eqn:E2.
  pose proof (Zdigits2_nonneg mx) as HD.
  pose proof (Zdigits2_gt mx Hmx) as HDgt.
  apply shr_fexp_bounds in E1 as [Hsm E1]; [|done].
  pose proof (round_nearest_even_bounds (shr_m mrs')
                (loc_of_shr_record mrs')) as Hm1. fold m1 in Hm1.
  assert (K : ∃ k, 0 ≤ k ∧ m1 ≤ 2 ^ k ∧ k + e' ≤ 1023 ∧ e' ≤ 971).
  { destruct E1 as [[-> Heq]|(He' & Hlt & Hle)].
    - exists (Zdigits2 mx). split_and!; lia.
    - exists (Z.max (Zdigits2 mx - (e' - ex)) 0).
      assert (Hδ : 0 < e' - ex) by lia.
      pose proof (pow2_quotient_bound _ _ _ _ HD Hδ Hsm Hle HDgt).
      unfold fexp, emin, prec, emax in He'. split_and!; lia. }
  destruct K as (k & Hk & Hm1k & Hke & He').
  assert (Hd1 : Zdigits2 m1 ≤ k + 1).
  { apply Zdigits2_le; [lia|]. split; [lia|].
    rewrite Z.pow_add_r, Z.pow_1_r by lia.
    assert (0 < 2 ^ k) by (apply Z.pow_pos_nonneg; lia). lia. }
  apply shr_fexp_bounds in E2 as [Hsm2 E2]; [|lia].
  assert (He'' : e'' ≤ 971).
  { destruct E2 as [[-> _]|(-> & _ & _)]; [done|].
    unfold fexp, emin, prec, emax. lia. }
  destruct (shr_m mrs'') as [|m|m]; [done| |lia].
  unfold prec, emax. destruct (Z.leb_spec e'' (1024 - 53)); [done|lia].
Qed.

(** What a valid finite number's mantissa and exponent satisfy. *)
Lemma valid_finite_bounds x s m e :
  Prim2SF x = S754_finite s m e → Z.pos (digits2_pos m) + e ≤ 1024 ∧ e ≤ 971.
Proof.
  intros Hx. pose proof (Prim2SF_valid x) as Hv. rewrite Hx in Hv.
  unfold valid_binary, bounded, canonical_mantissa in Hv.
  apply andb_prop in Hv as [Hc He].
  apply Z.eqb_eq in Hc. apply Z.leb_le in He.
  unfold fexp, emin, prec, emax in *. lia.
Qed.

End Rounding.

(** Halving a finite double gives a finite double. *)
Lemma half_finite x : isfinite x = true → isfinite (x * 0.5) = true.
Proof.
  unfold isfinite. rewrite mul_spec.
  change (Prim2SF 0.5) with (S754_finite false 4503599627370496 (-53)).
  destruct (Prim2SF x) as [s|s| |s m e] eqn:Hx; try done.
  intros _. destruct (valid_finite_bounds x s m e Hx) as [Hd He].
  unfold SF64mul, SFmul. apply binary_round_aux_finite; [lia| |lia].
  pose proof (digits2_pos_gt m) as Hm.
  assert (Zdigits2 (Z.pos (m * 4503599627370496))
          ≤ Z.pos (digits2_pos m) + 52)%Z; [|lia].
  apply Zdigits2_le; [lia|]. split; [lia|].
  rewrite Z.pow_add_r by lia. rewrite Pos2Z.inj_mul.
  change (2 ^ 52)%Z with (Z.pos 4503599627370496). lia.
Qed.

(** Dividing a finite double by six gives a finite double. *)
Lemma sixth_finite x : isfinite x = true → isfinite (x / 6.0) = true.
Proof.
  unfold isfinite. rewrite div_spec.
  change (Prim2SF 6.0) with (S754_finite false 6755399441055744 (-50)).
  destruct (Prim2SF x) as [s|s| |s m e] eqn:Hx; try done.
  intros _. destruct (valid_finite_bounds x s m e Hx) as [Hd He].
  unfold SF64div, SFdiv.
  destruct (SFdiv_core_binary prec emax (Z.pos m) e
              (Z.pos 6755399441055744) (-50)) as [[mz ez] lz] eqn:E.
  unfold SFdiv_core_binary in E.
  change (Zdigits2 (Z.pos 6755399441055744)) with 53%Z in E.
  simpl Zdigits2 in E.
  set (d := Z.pos (digits2_pos m)) in *.
  set (e' := Z.min (fexp prec emax (d + e - (53 + -50))) (e - -50)) in *.
  set (sh := (e - -50 - e')%Z) in *.
  assert (He' : (e' ≤ 968 ∧ e' ≤ e + 50)%Z).
  { unfold e', fexp, emin, prec, emax. lia. }
  assert (Hsh : (0 ≤ sh)%Z) by (unfold sh; lia).
  set (m' := match sh with
             | 0%Z => Z.pos m
             | Z.pos _ => Z.shiftl (Z.pos m) sh
             | Z.neg _ => 0%Z
             end) in *.
  assert (Hm' : (0 ≤ m' < 2 ^ (d + sh))%Z).
  { pose proof (digits2_pos_gt m) as Hm. fold d in Hm.
    assert (m' = Z.pos m * 2 ^ sh)%Z as ->.
    { unfold m'. destruct sh as [|p|p] eqn:Hs; [lia| |lia].
      by rewrite Z.shiftl_mul_pow2. }
    assert (0 < 2 ^ sh)%Z by (apply Z.pow_pos_nonneg; lia).
    rewrite Z.pow_add_r by lia. split; [lia|].
    apply Z.mul_lt_mono_pos_r; lia. }
  pose proof (Z_div_mod m' (Z.pos 6755399441055744) eq_refl) as Hdiv.
  destruct (Z.div_eucl m' (Z.pos 6755399441055744)) as [q r].
  injection E as <- <- <-. destruct Hdiv as [Hq Hr].
  assert (Hq0 : (0 ≤ q)%Z) by nia.
  assert (Hq52 : (2 ^ 52 * q ≤ m')%Z).
  { change (2 ^ 52)%Z with 4503599627370496%Z. nia. }
  apply binary_round_aux_finite; [done| |lia].
  assert (Zdigits2 q ≤ Z.max (d + sh - 52) 0)%Z; [|unfold sh in *; lia].
  apply Zdigits2_le; [lia|]. split; [done|].
  assert (q + 1 ≤ 2 ^ Z.max (d + sh - 52) 0)%Z; [|lia].
  apply (pow2_quotient_bound q m' (d + sh) 52); lia.
Qed.


(** ** Multiplying by [0.5] is dividing by [2.0] *)

Section Halving.
Local Open Scope Z_scope.

Lemma digits2_pos_xO_iter k m :
  Z.pos (digits2_pos (Pos.iter xO m k)) = Z.pos (digits2_pos m) + Z.pos k.
Proof.
  induction k as [|k IH] using Pos.peano_ind.
  - simpl. lia.
  - rewrite Pos.iter_succ. simpl digits2_pos. rewrite Pos2Z.inj_succ, IH. lia.
Qed.

Lemma digits2_pos_shift52 m :
  Z.pos (digits2_pos (m * 4503599627370496)) = Z.pos (digits2_pos m) + 52.
Proof.
  rewrite Pos.mul_comm.
  change (4503599627370496 * m)%positive with (Pos.iter xO m 52).
  apply digits2_pos_xO_iter.
Qed.

Lemma shr_52 m :
  SpecFloat.iter_pos shr_1 52
    (Build_shr_record (Z.pos (m * 4503599627370496)) false false)
  = Build_shr_record (Z.pos m) false false.
Proof. rewrite Pos.mul_comm. reflexivity. Qed.

Lemma shr_53 m :
  SpecFloat.iter_pos shr_1 53
    (Build_shr_record (Z.pos (m * 4503599627370496)) false false)
  = shr_1 (Build_shr_record (Z.pos m) false false).
Proof. rewrite Pos.mul_comm. reflexivity. Qed.

(** A valid finite number is normal (53 digits) or has the least exponent. *)
Lemma valid_finite_cases x s m e :
  Prim2SF x = S754_finite s m e →
  Z.pos (digits2_pos m) = 53 ∧ -1074 ≤ e ≤ 971 ∨
  e = -1074 ∧ Z.pos (digits2_pos m) ≤ 53.
Proof.
  intros Hx. pose proof (Prim2SF_valid x) as Hv. rewrite Hx in Hv.
  unfold valid_binary, bounded, canonical_mantissa in Hv.
  apply andb_prop in Hv as [Hc He].
  apply Z.eqb_eq in Hc. apply Z.leb_le in He.
  unfold fexp, emin, prec, emax in *. lia.
Qed.

(** The first rounding stage of [x * 0.5]. *)
Lemma half_mul_stage m e :
  (Z.pos (digits2_pos m) = 53 ∧ -1073 ≤ e →
   shr_fexp prec emax (Z.pos (m * 4503599627370496)) (e + -53) loc_Exact
   = (Build_shr_record (Z.pos m) false false, e - 1)) ∧
  (e = -1074 → Z.pos (digits2_pos m) ≤ 53 →
   shr_fexp prec emax (Z.pos (m * 4503599627370496)) (e + -53) loc_Exact
   = (shr_1 (Build_shr_record (Z.pos m) false false), -1074)).
Proof.
  unfold shr_fexp. simpl Zdigits2. rewrite digits2_pos_shift52.
  unfold fexp, emin, prec, emax, shr. simpl shr_record_of_loc. split.
  - intros [Hd He].
    replace (Z.max (Z.pos (digits2_pos m) + 52 + (e + -53) - 53)
               (3 - 1024 - 53) - (e + -53)) with 52 by lia.
    rewrite shr_52. f_equal. lia.
  - intros -> Hd.
    replace (Z.max (Z.pos (digits2_pos m) + 52 + (-1074 + -53) - 53)
               (3 - 1024 - 53) - (-1074 + -53)) with 53 by lia.
    rewrite shr_53. f_equal.
Qed.

Lemma div_eucl_unique a b q r :
  0 ≤ r < b → a = b * q + r → Z.div_eucl a b = (q, r).
Proof.
  intros Hr Ha.
  pose proof (Z.div_unique a b q r (or_introl Hr) Ha) as Hq.
  pose proof (Z.mod_unique a b q r (or_introl Hr) Ha) as Hm.
  unfold Z.div, Z.modulo in *. destruct (Z.div_eucl a b). congruence.
Qed.

(** The first rounding stage of [x / 2.0]. *)
Lemma half_div_stage m e mz ez lz :
  SFdiv_core_binary prec emax (Z.pos m) e (Z.pos 4503599627370496) (-51)
  = (mz, ez, lz) →
  (Z.pos (digits2_pos m) = 53 ∧ -1073 ≤ e →
   shr_fexp prec emax mz ez lz
   = (Build_shr_record (Z.pos m) false false, e - 1)) ∧
  (e = -1074 → Z.pos (digits2_pos m) ≤ 53 →
   shr_fexp prec emax mz ez lz
   = (shr_1 (Build_shr_record (Z.pos m) false false), -1074)).
Proof.
  unfold SFdiv_core_binary.
  change (Zdigits2 (Z.pos 4503599627370496)) with 53. simpl Zdigits2.
  set (d := Z.pos (digits2_pos m)).
  intros E. split.
  - intros [Hd He]. rewrite Hd in E.
    destruct (Z.eq_dec e (-1073)) as [->|Hne].
    + (* the least normal exponent but one: an exact quotient *)
      assert (He' : Z.min (fexp prec emax (53 + -1073 - (53 + -51)))
                      (-1073 - -51) = -1074) by reflexivity.
      rewrite He' in E.
      replace (-1073 - -51 - -1074) with 52 in E by lia.
      rewrite (div_eucl_unique _ _ (Z.pos m) 0) in E; [|lia|].
      2:{ rewrite Z.shiftl_mul_pow2 by lia. lia. }
      injection E as <- <- <-.
      unfold shr_fexp. simpl Zdigits2. fold d. rewrite Hd. reflexivity.
    + assert (He' : Z.min (fexp prec emax (53 + e - (53 + -51))) (e - -51)
                    = e - 2) by (unfold fexp, emin, prec, emax; lia).
      rewrite He' in E.
      replace (e - -51 - (e - 2)) with 53 in E by lia.
      rewrite (div_eucl_unique _ _ (Z.pos m~0) 0) in E; [|lia|].
      2:{ rewrite Z.shiftl_mul_pow2 by lia. lia. }
      injection E as <- <- <-.
      unfold shr_fexp. simpl Zdigits2. rewrite Pos2Z.inj_succ. fold d.
      rewrite Hd. unfold fexp, emin, prec, emax, shr.
      replace (Z.max (Z.succ 53 + (e - 2) - 53) (3 - 1024 - 53) - (e - 2))
        with 1 by lia.
      simpl. f_equal. lia.
  - intros -> Hd.
    assert (He' : Z.min (fexp prec emax (d + -1074 - (53 + -51)))
                    (-1074 - -51) = -1074)
      by (unfold fexp, emin, prec, emax; lia).
    rewrite He' in E.
    replace (-1074 - -51 - -1074) with 51 in E by lia.
    assert (Hstage : ∀ q l, Zdigits2 q ≤ 52 →
      shr_fexp prec emax q (-1074) l = (shr_record_of_loc q l, -1074)).
    { intros q l Hq. unfold shr_fexp, fexp, emin, prec, emax, shr.
      replace (Z.max (Zdigits2 q + -1074 - 53) (3 - 1024 - 53) - -1074)
        with 0 by lia. done. }
    destruct m as [p|p|].
    + rewrite (div_eucl_unique _ _ (Z.pos p) 2251799813685248) in E;
        [|lia|].
      2:{ rewrite Z.shiftl_mul_pow2 by lia. lia. }
      injection E as <- <- <-. rewrite Hstage; [done|].
      unfold d in Hd. simpl in *. lia.
    + rewrite (div_eucl_unique _ _ (Z.pos p) 0) in E; [|lia|].
      2:{ rewrite Z.shiftl_mul_pow2 by lia. lia. }
      injection E as <- <- <-. rewrite Hstage; [done|].
      unfold d in Hd. simpl in *. lia.
    + rewrite (div_eucl_unique _ _ 0 2251799813685248) in E; [|lia|done].
      injection E as <- <- <-. by rewrite Hstage.
Qed.

End Halving.

(** Halving by multiplication and by division agree on every double. *)
Lemma half_mul_div x : (x * 0.5 = x / 2.0)%float.
Proof.
  apply Prim2SF_inj. rewrite mul_spec, div_spec.
  change (Prim2SF 0.5) with (S754_finite false 4503599627370496 (-53)).
  change (Prim2SF 2.0) with (S754_finite false 4503599627370496 (-51)).
  destruct (Prim2SF x) as [s|s| |s m e] eqn:Hx; try done.
  unfold SF64mul, SF64div, SFmul, SFdiv.
  destruct (SFdiv_core_binary prec emax (Z.pos m) e
              (Z.pos 4503599627370496) (-51)) as [[mz ez] lz] eqn:E.
  destruct (half_mul_stage m e) as [M1 M2].
  destruct (half_div_stage m e mz ez lz E) as [D1 D2].
  unfold binary_round_aux.
  destruct (valid_finite_cases x s m e Hx) as [[Hd He]|[He Hd]].
  - destruct (Z.eq_dec e (-1074)%Z) as [->|Hne].
    + rewrite M2, D2 by (done || lia). done.
    + rewrite M1, D1 by lia. done.
  - rewrite M2, D2 by done. done.
Qed.


(** Discharges the two size conditions on a concrete configuration. *)
Ltac sizes_ok := unfold sizes_fit, vectors_fit; split_and!; vm_compute; done.

Section Facts.
Context `{P : Platform}.
Implicit Types (cfg : SimulationConfig) (state v : list float).

(** ** Binary64 arithmetic *)

Lemma PrimFloat_mul_comm x y : (x * y = y * x)%float.
Proof.
  apply Prim2SF_inj. rewrite !mul_spec.
  destruct (Prim2SF x) as [[|]| [|] | |[|] ? ?],
           (Prim2SF y) as [[|]| [|] | | [|] ? ?]; try reflexivity;
  unfold SF64mul, SFmul; rewrite Pos.mul_comm, Z.add_comm; reflexivity.
Qed.

(** ** Loops and vector accesses *)

Lemma for_from_inv {S : Type} (I : nat → S → Prop) trips (i : N)
    (body : N → S → outcome S) s :
  I 0 s →
  (∀ j s, j < trips → I j s →
     ∃ s', body (i + N.of_nat j)%N s = Ok s' ∧ I (Datatypes.S j) s') →
  ∃ s', for_from trips i body s = Ok s' ∧ I trips s'.
Proof.
  revert I i s. induction trips as [|t IH]; intros I i s H0 Hstep.
  - exists s. done.
  - destruct (Hstep 0 s) as (s1 & Hb & H1); [lia | done |].
    rewrite N.add_0_r in Hb. simpl. rewrite Hb. simpl.
    apply (IH (λ j, I (Datatypes.S j))); [done|].
    intros j s2 Hj Hs2.
    destruct (Hstep (Datatypes.S j) s2) as (s3 & Hb3 & H3); [lia|done|].
    exists s3. split; [|done]. rewrite <- Hb3. f_equal. lia.
Qed.

Lemma for_inv {S : Type} (I : nat → S → Prop) n (body : N → S → outcome S) s :
  I 0 s →
  (∀ j s, j < N.to_nat n → I j s →
     ∃ s', body (N.of_nat j) s = Ok s' ∧ I (Datatypes.S j) s') →
  ∃ s', for_ n body s = Ok s' ∧ I (N.to_nat n) s'.
Proof. intros H0 Hs. apply for_from_inv; done. Qed.

Lemma at_lookup v (i : N) x : v !! N.to_nat i = Some x → at_ v i = Ok x.
Proof. unfold at_. by intros ->. Qed.

Lemma at_of_nat v (j : nat) x : v !! j = Some x → at_ v (N.of_nat j) = Ok x.
Proof. intros. apply at_lookup. by rewrite Nat2N.id. Qed.

Lemma store_insert v (i : N) x :
  N.to_nat i < length v → store v i x = Ok (<[N.to_nat i := x]> v).
Proof. unfold store. intros H. by rewrite decide_True. Qed.

Lemma store_of_nat v (j : nat) x :
  j < length v → store v (N.of_nat j) x = Ok (<[j := x]> v).
Proof. intros. rewrite store_insert; rewrite Nat2N.id; done. Qed.

Lemma vector_of_zeros_fit (n : N) :
  (n ≤ max_size)%N → vector_of_zeros n = Ok (replicate (N.to_nat n) 0%float).
Proof.
  intros H. unfold vector_of_zeros.
  destruct (N.ltb_spec max_size n); [lia|done].
Qed.

Lemma vector_of_zeros_too_long (n : N) :
  (max_size < n)%N → vector_of_zeros n = LengthError.
Proof.
  intros H. unfold vector_of_zeros.
  destruct (N.ltb_spec max_size n); [done|lia].
Qed.

Lemma vector_of_zeros_Ok_inv (n : N) v :
  vector_of_zeros n = Ok v →
  (n ≤ max_size)%N ∧ v = replicate (N.to_nat n) 0%float.
Proof.
  unfold vector_of_zeros. destruct (N.ltb_spec max_size n); [done|].
  by intros [= <-].
Qed.

Lemma size_add_small a b : (a + b < 2 ^ size_bits)%N → size_add a b = (a + b)%N.
Proof. unfold size_add. intros. by apply N.mod_small. Qed.

Lemma size_mul_small a b : (a * b < 2 ^ size_bits)%N → size_mul a b = (a * b)%N.
Proof. unfold size_mul. intros. by apply N.mod_small. Qed.

(** ** [compute_derivatives] computes the specification's formulas *)

Lemma cup_angle_spec cfg theta j :
  (theta + (TWO_PI / double_of_size (n_cups cfg)) * double_of_size (N.of_nat j))%float
  = spec_cup_angle cfg theta j.
Proof. unfold spec_cup_angle. by rewrite PrimFloat_mul_comm. Qed.

Lemma torque_loop cfg theta omega ms :
  length ms = N.to_nat (n_cups cfg) →
  (N.of_nat (length ms) + 2 < 2 ^ size_bits)%N →
  for_ (n_cups cfg)
    (torque_body cfg (theta :: omega :: ms) theta
       (TWO_PI / double_of_size (n_cups cfg))) 0%float
  = Ok (spec_torque cfg theta ms).
Proof.
  intros Hlen Hfit.
  set (terms := imap (λ k mass,
    (mass * g cfg * radius cfg * sin (spec_cup_angle cfg theta k))%float) ms).
  edestruct (for_inv (λ j torque, torque = sum_doubles (take j terms)))
    as (t & -> & Ht); [done | | ].
  - intros j torque Hj ->. unfold torque_body.
    destruct (lookup_lt_is_Some_2 ms j) as [m Hm]; [lia|].
    rewrite size_add_small by lia.
    rewrite (at_lookup _ _ m);
      [|by replace (N.to_nat (2 + N.of_nat j)) with (S (S j)) by lia].
    eexists. split; [done|]. simpl.
    rewrite (take_S_r terms j
      (m * g cfg * radius cfg * sin (spec_cup_angle cfg theta j))%float).
    + unfold sum_doubles. rewrite foldl_app. simpl. by rewrite cup_angle_spec.
    + unfold terms. rewrite list_lookup_imap, Hm. done.
  - rewrite Ht. unfold spec_torque. fold terms. rewrite take_ge; [done|].
    unfold terms. rewrite length_imap. lia.
Qed.

Lemma rate_loop cfg theta omega ms d0 d1 :
  length ms = N.to_nat (n_cups cfg) →
  (N.of_nat (length ms) + 2 < 2 ^ size_bits)%N →
  for_ (n_cups cfg)
    (rate_body cfg (theta :: omega :: ms) theta
       (TWO_PI / double_of_size (n_cups cfg)))
    (d0 :: d1 :: replicate (length ms) 0%float)
  = Ok (d0 :: d1 :: imap (spec_mass_rate cfg theta) ms).
Proof.
  intros Hlen Hfit.
  set (rates := imap (spec_mass_rate cfg theta) ms).
  edestruct (for_inv (λ j d,
      d = d0 :: d1 :: take j rates ++ replicate (length ms - j) 0%float))
    as (d & -> & Hd).
  - by rewrite Nat.sub_0_r.
  - intros j d Hj ->. unfold rate_body.
    destruct (lookup_lt_is_Some_2 ms j) as [m Hm]; [lia|].
    rewrite size_add_small by lia.
    rewrite (at_lookup _ _ m);
      [|by replace (N.to_nat (2 + N.of_nat j)) with (S (S j)) by lia].
    rewrite cup_angle_spec. simpl.
    assert (Hrate : rates !! j = Some (spec_mass_rate cfg theta j m)).
    { unfold rates. by rewrite list_lookup_imap, Hm. }
    assert (Hins : ∀ x, x = spec_mass_rate cfg theta j m →
      store (d0 :: d1 :: take j rates ++ replicate (length ms - j) 0%float)
        (2 + N.of_nat j) x
      = Ok (d0 :: d1 :: take (S j) rates ++ replicate (length ms - S j) 0%float)).
    { intros x ->. rewrite store_insert.
      2:{ simpl. rewrite length_app, length_take, length_replicate.
          unfold rates. rewrite length_imap. lia. }
      replace (N.to_nat (2 + N.of_nat j)) with (S (S j)) by lia. simpl.
      do 3 f_equal.
      rewrite insert_app_r_alt by (rewrite length_take; lia).
      rewrite length_take. unfold rates at 2. rewrite length_imap.
      replace (j - j `min` length ms) with 0 by lia.
      replace (length ms - j) with (S (length ms - S j)) by lia. simpl.
      rewrite (take_S_r _ _ _ Hrate), <- app_assoc. done. }
    unfold spec_mass_rate, in_inflow_window, wrap_angle in Hins.
    destruct (_ || _)%bool eqn:Hw.
    + eexists. split; [by apply Hins|done].
    + eexists. split; [by apply Hins|done].
  - rewrite Hd. rewrite take_ge by (unfold rates; rewrite length_imap; lia).
    replace (length ms - N.to_nat (n_cups cfg)) with 0 by lia.
    simpl. by rewrite app_nil_r.
Qed.

Lemma compute_derivatives_spec cfg state :
  length state = N.to_nat (n_cups cfg) + 2 →
  (N.of_nat (length state) < 2 ^ size_bits)%N →
  compute_derivatives state cfg = Ok (spec_derivatives cfg state).
Proof.
  intros Hlen Hfit.
  destruct state as [|theta [|omega ms]]; simpl in Hlen; try lia.
  assert (Hms : length ms = N.to_nat (n_cups cfg)) by lia.
  assert (Hfit' : (N.of_nat (length ms) + 2 < 2 ^ size_bits)%N)
    by (simpl in Hfit; lia).
  unfold compute_derivatives.
  change (at_ (theta :: omega :: ms) 0) with (Ok theta).
  change (at_ (theta :: omega :: ms) 1) with (Ok omega).
  cbn [mbind outcome_bind]. cbv zeta.
  rewrite torque_loop by done.
  cbn [mbind outcome_bind length replicate].
  rewrite (store_of_nat _ 0) by (simpl; lia).
  cbn [mbind outcome_bind].
  rewrite (store_of_nat _ 1) by (simpl; lia).
  cbn [mbind outcome_bind]. simpl insert.
  by rewrite rate_loop.
Qed.

Lemma length_spec_derivatives cfg state :
  2 ≤ length state → length (spec_derivatives cfg state) = length state.
Proof.
  destruct state as [|theta [|omega ms]]; simpl; try lia.
  rewrite length_imap. done.
Qed.

End Facts.


Section Rk4Facts.
Context `{P : Platform}.
Implicit Types (cfg : SimulationConfig) (state v k : list float).

(** ** [rk4_step] computes the classical Runge-Kutta formula *)

(** A loop that stores [target[j]] at index [j] for every [j] turns any
    vector of the same length into [target]. *)
Lemma for_tabulate (target v0 : list float) (body : N → list float → outcome (list float)) :
  length v0 = length target →
  (∀ j v x, target !! j = Some x → v = take j target ++ drop j v0 →
     body (N.of_nat j) v = store v (N.of_nat j) x) →
  for_ (N.of_nat (length target)) body v0 = Ok target.
Proof.
  intros Hlen Hbody.
  edestruct (for_inv (λ j v, v = take j target ++ drop j v0))
    as (v & -> & Hv).
  - by rewrite take_0, drop_0.
  - intros j v Hj ->. rewrite Nat2N.id in Hj.
    destruct (lookup_lt_is_Some_2 target j) as [x Hx]; [done|].
    rewrite (Hbody j _ x Hx eq_refl).
    assert (Hjlen : length (take j target) = j) by (rewrite length_take; lia).
    rewrite store_of_nat by (rewrite length_app, length_drop; lia).
    eexists. split; [done|].
    rewrite insert_app_r_alt by lia. rewrite Hjlen, Nat.sub_diag.
    destruct (lookup_lt_is_Some_2 v0 j) as [y Hy]; [lia|].
    rewrite (drop_S _ _ _ Hy). simpl.
    rewrite (take_S_r _ _ _ Hx), <- app_assoc. done.
  - rewrite Hv, Nat2N.id, take_ge, drop_ge by lia. by rewrite app_nil_r.
Qed.

Lemma length_axpy h state k :
  length k = length state → length (axpy h state k) = length state.
Proof. intros. unfold axpy. rewrite length_zip_with. lia. Qed.

Lemma predict_spec state k temp h :
  length k = length state → length temp = length state →
  predict (N.of_nat (length state)) state k temp h = Ok (axpy h state k).
Proof.
  intros Hk Htemp. unfold predict.
  rewrite <- (length_axpy h state k Hk) at 1.
  apply for_tabulate; [by rewrite length_axpy|].
  intros j v x Hx _. unfold predict_body, axpy in *.
  apply lookup_zip_with_Some in Hx as (s & ki & -> & Hs & Hki).
  by rewrite (at_of_nat _ _ _ Hs), (at_of_nat _ _ _ Hki).
Qed.

Lemma length_rk4_combine h state k1 k2 k3 k4 :
  length k1 = length state → length k2 = length state →
  length k3 = length state → length k4 = length state →
  length (rk4_combine h state k1 k2 k3 k4) = length state.
Proof.
  revert k1 k2 k3 k4.
  induction state as [|s state IH]; intros [|a k1] [|b k2] [|c k3] [|d k4];
    simpl; intros; try lia.
  rewrite IH; lia.
Qed.

Lemma lookup_rk4_combine h state k1 k2 k3 k4 j x :
  rk4_combine h state k1 k2 k3 k4 !! j = Some x →
  ∃ s a b c d, state !! j = Some s ∧ k1 !! j = Some a ∧ k2 !! j = Some b ∧
    k3 !! j = Some c ∧ k4 !! j = Some d ∧
    x = (s + h * (a + 2.0 * b + 2.0 * c + d))%float.
Proof.
  revert k1 k2 k3 k4 j.
  induction state as [|s state IH]; intros [|a k1] [|b k2] [|c k3] [|d k4] j;
    simpl; try done.
  destruct j as [|j]; simpl.
  - intros [= <-]. by exists s, a, b, c, d.
  - apply IH.
Qed.

Lemma update_spec h state k1 k2 k3 k4 :
  length k1 = length state → length k2 = length state →
  length k3 = length state → length k4 = length state →
  for_ (N.of_nat (length state)) (update_body k1 k2 k3 k4 h) state
  = Ok (rk4_combine h state k1 k2 k3 k4).
Proof.
  intros H1 H2 H3 H4.
  rewrite <- (length_rk4_combine h state k1 k2 k3 k4) at 1 by done.
  apply for_tabulate; [by rewrite length_rk4_combine|].
  intros j v x Hx ->. unfold update_body.
  pose proof (lookup_lt_Some _ _ _ Hx) as Hj.
  rewrite length_rk4_combine in Hj by done.
  apply lookup_rk4_combine in Hx as (s & a & b & c & d & Hs & Ha & Hb & Hc & Hd & ->).
  rewrite (at_of_nat (_ ++ _) j s).
  2:{ rewrite lookup_app_r by (rewrite length_take; lia).
      rewrite length_take, length_rk4_combine by done.
      rewrite lookup_drop. rewrite <- Hs. f_equal. lia. }
  by rewrite (at_of_nat _ _ _ Ha), (at_of_nat _ _ _ Hb),
    (at_of_nat _ _ _ Hc), (at_of_nat _ _ _ Hd).
Qed.

Lemma rk4_step_spec cfg dt state :
  length state = N.to_nat (n_cups cfg) + 2 →
  (N.of_nat (length state) < 2 ^ size_bits)%N →
  rk4_step state dt cfg = Ok (spec_rk4_step cfg dt state).
Proof.
  intros Hlen Hfit. unfold rk4_step, spec_rk4_step. cbv zeta.
  rewrite half_mul_div.
  assert (Hd : ∀ st, length st = length state →
    compute_derivatives st cfg = Ok (spec_derivatives cfg st) ∧
    length (spec_derivatives cfg st) = length state).
  { intros st Hst. split.
    - apply compute_derivatives_spec; by rewrite Hst.
    - rewrite length_spec_derivatives; lia. }
  destruct (Hd state eq_refl) as [-> L1]. cbn [mbind outcome_bind].
  rewrite predict_spec by (done || by rewrite length_replicate).
  cbn [mbind outcome_bind].
  destruct (Hd (axpy (dt / 2.0) state (spec_derivatives cfg state)))
    as [-> L2]; [by apply length_axpy|].
  cbn [mbind outcome_bind].
  rewrite predict_spec by (done || by rewrite length_axpy).
  cbn [mbind outcome_bind].
  destruct (Hd (axpy (dt / 2.0) state (spec_derivatives cfg
      (axpy (dt / 2.0) state (spec_derivatives cfg state)))))
    as [-> L3]; [by apply length_axpy|].
  cbn [mbind outcome_bind].
  rewrite predict_spec by (done || by rewrite length_axpy).
  cbn [mbind outcome_bind].
  match goal with |- context [compute_derivatives ?st cfg] =>
    destruct (Hd st) as [-> L4]; [by apply length_axpy|] end.
  cbn [mbind outcome_bind].
  by apply update_spec.
Qed.

Lemma length_spec_rk4_step cfg dt state :
  2 ≤ length state → length (spec_rk4_step cfg dt state) = length state.
Proof.
  intros Hlen. unfold spec_rk4_step.
  assert (Hd : ∀ st, length st = length state →
    length (spec_derivatives cfg st) = length state).
  { intros st Hst. rewrite length_spec_derivatives; lia. }
  apply length_rk4_combine; repeat (apply Hd || apply length_axpy); done.
Qed.

End Rk4Facts.


Section SimulateFacts.
Context `{P : Platform}.
Implicit Types (cfg : SimulationConfig) (state v : list float).

(** ** [simulate] samples the trajectory *)

Lemma accepted_inv cfg :
  accepted cfg →
  1 ≤ cups cfg ∧ 2 ≤ frames cfg ∧ 1 ≤ substeps cfg ∧
  (t_end cfg <=? t_start cfg)%float = false.
Proof.
  unfold accepted, validate_config, cups, frames, substeps.
  destruct (N.ltb_spec (n_cups cfg) 1); [done|].
  destruct (N.ltb_spec (n_frames cfg) 2); [done|].
  destruct (t_end cfg <=? t_start cfg)%float; [done|].
  destruct (N.ltb_spec (steps_per_frame cfg) 1); [done|].
  intros _. lia.
Qed.

Lemma length_initial_state cfg : length (initial_state cfg) = cups cfg + 2.
Proof. unfold initial_state. simpl. rewrite length_replicate. lia. Qed.

Lemma length_state_after cfg j : length (state_after cfg j) = cups cfg + 2.
Proof.
  induction j as [|j IH]; [apply length_initial_state|].
  unfold state_after in *. rewrite Nat.iter_succ.
  rewrite length_spec_rk4_step; lia.
Qed.

Lemma idx_inj (nf c k c0 f : nat) :
  k < nf → f < nf → c * nf + k = c0 * nf + f → c = c0 ∧ k = f.
Proof.
  intros Hk Hf Heq.
  assert (c = c0); [|subst; lia].
  destruct (Nat.lt_trichotomy c c0) as [Hlt|[?|Hlt]]; [|done|].
  - pose proof (Nat.mul_le_mono_r (S c) c0 nf Hlt). simpl in *. lia.
  - pose proof (Nat.mul_le_mono_r (S c0) c nf Hlt). simpl in *. lia.
Qed.

Lemma idx_lt (nf nc c f : nat) : c < nc → f < nf → c * nf + f < nc * nf.
Proof.
  intros Hc Hf. pose proof (Nat.mul_le_mono_r (S c) nc nf Hc).
  simpl in *. lia.
Qed.

(** The loop over cups writes column [f] of the table and nothing else. *)
Lemma record_masses cfg (f : nat) state m0 :
  sizes_fit cfg → f < frames cfg →
  length state = cups cfg + 2 →
  length m0 = cups cfg * frames cfg →
  ∃ m, for_ (n_cups cfg) (record_body cfg (N.of_nat f) state) m0 = Ok m ∧
    length m = cups cfg * frames cfg ∧
    (∀ c, c < cups cfg → m !! (c * frames cfg + f) = state !! (2 + c)) ∧
    (∀ c k, c < cups cfg → k < frames cfg → k ≠ f →
       m !! (c * frames cfg + k) = m0 !! (c * frames cfg + k)).
Proof.
  intros [Hfit1 Hfit2] Hf Hstate Hm0. unfold cups, frames in *.
  edestruct (for_inv (λ c0 m,
    length m = N.to_nat (n_cups cfg) * N.to_nat (n_frames cfg) ∧
    (∀ c, c < c0 → m !! (c * N.to_nat (n_frames cfg) + f) = state !! (2 + c)) ∧
    (∀ c k, c < N.to_nat (n_cups cfg) → k < N.to_nat (n_frames cfg) → k ≠ f →
       m !! (c * N.to_nat (n_frames cfg) + k)
       = m0 !! (c * N.to_nat (n_frames cfg) + k)))
    (n_cups cfg) (record_body cfg (N.of_nat f) state) m0)
    as (m & Hm & Hlen & Hcol & Hrest).
  - split; [done|]. split; [intros; lia|done].
  - intros c0 m Hc0 (Hlen & Hcol & Hrest). unfold record_body.
    destruct (lookup_lt_is_Some_2 state (2 + c0)) as [x Hx]; [lia|].
    rewrite (size_add_small 2) by lia.
    rewrite (at_lookup _ _ x);
      [|by replace (N.to_nat (2 + N.of_nat c0)) with (2 + c0) by lia].
    cbn [mbind outcome_bind].
    pose proof (idx_lt _ _ _ _ Hc0 Hf) as Hidx.
    assert (Hmul : (N.of_nat c0 * n_frames cfg < 2 ^ size_bits)%N).
    { eapply N.le_lt_trans; [|exact Hfit2].
      apply N.mul_le_mono_r. lia. }
    rewrite size_mul_small by done.
    rewrite size_add_small by lia.
    replace (N.of_nat c0 * n_frames cfg + N.of_nat f)%N
      with (N.of_nat (c0 * N.to_nat (n_frames cfg) + f)) by lia.
    rewrite store_of_nat by lia.
    eexists. split; [done|]. split; [by rewrite length_insert|]. split.
    + intros c Hc. destruct (decide (c = c0)) as [->|Hne].
      * rewrite list_lookup_insert_eq by lia. done.
      * rewrite list_lookup_insert_ne; [apply Hcol; lia|].
        intros Heq. apply idx_inj in Heq as [? _]; [congruence|lia..].
    + intros c k Hc Hk Hkf.
      rewrite list_lookup_insert_ne; [by apply Hrest|].
      intros Heq. apply idx_inj in Heq as [_ ?]; [congruence|lia..].
  - exists m. rewrite Hm. split_and!; [done|done|by apply Hcol|done].
Qed.

Lemma record_frame_spec cfg (f : nat) (fv : frame_vars) :
  sizes_fit cfg → f < frames cfg →
  fv_state fv = state_after cfg (f * substeps cfg) →
  fv_current_time fv = time_after cfg (f * substeps cfg) →
  recorded cfg f (fv_result fv) →
  ∃ r, record_frame cfg (N.of_nat f) fv = Ok r ∧ recorded cfg (S f) r.
Proof.
  intros Hfit Hf Hstate Htime [Lt Lth Lm Rt Rth Rm]. unfold record_frame.
  rewrite store_of_nat by lia. cbn [mbind outcome_bind].
  pose proof (length_state_after cfg (f * substeps cfg)) as Hlen.
  rewrite <- Hstate in Hlen.
  destruct (lookup_lt_is_Some_2 (fv_state fv) 0) as [th Hth]; [lia|].
  rewrite (at_lookup _ 0 th) by done. cbn [mbind outcome_bind].
  rewrite store_of_nat by lia. cbn [mbind outcome_bind].
  destruct (record_masses cfg f (fv_state fv) (masses (fv_result fv)))
    as (m & -> & Hmlen & Hcol & Hrest); [done..|].
  cbn [mbind outcome_bind]. eexists. split; [done|].
  split; simpl.
  - by rewrite length_insert.
  - by rewrite length_insert.
  - done.
  - intros k Hk. destruct (decide (k = f)) as [->|Hne].
    + rewrite list_lookup_insert_eq by lia. by rewrite Htime.
    + rewrite list_lookup_insert_ne by done. apply Rt. lia.
  - intros k Hk. destruct (decide (k = f)) as [->|Hne].
    + rewrite list_lookup_insert_eq by lia. by rewrite <- Hstate, Hth.
    + rewrite list_lookup_insert_ne by done. apply Rth. lia.
  - intros k c Hk Hc. destruct (decide (k = f)) as [->|Hne].
    + rewrite Hcol by done. by rewrite Hstate.
    + rewrite Hrest by (done || lia). apply Rm; lia.
Qed.

Lemma advance_spec cfg dt state t :
  (n_cups cfg + 2 < 2 ^ size_bits)%N →
  length state = cups cfg + 2 →
  advance cfg dt state t
  = Ok (Nat.iter (substeps cfg) (spec_rk4_step cfg dt) state,
        Nat.iter (substeps cfg) (λ t, (t + dt)%float) t).
Proof.
  intros Hfit Hlen. unfold advance, substeps, cups in *.
  edestruct (for_inv (λ j sc,
    sc = (Nat.iter j (spec_rk4_step cfg dt) state,
          Nat.iter j (λ t, (t + dt)%float) t))
    (steps_per_frame cfg) (advance_body cfg dt) (state, t))
    as (sc & -> & Hsc); [done| |by rewrite Hsc].
  intros j sc Hj ->. unfold advance_body. cbn [fst snd].
  assert (Hl : length (Nat.iter j (spec_rk4_step cfg dt) state)
               = N.to_nat (n_cups cfg) + 2).
  { clear Hj. induction j as [|j IH]; [done|].
    rewrite Nat.iter_succ, length_spec_rk4_step; lia. }
  rewrite rk4_step_spec by lia. cbn [mbind outcome_bind].
  eexists. split; done.
Qed.

Lemma frame_loop_spec cfg trips (f : nat) (fv : frame_vars) :
  sizes_fit cfg → 1 ≤ cups cfg →
  1 ≤ trips → trips + f = frames cfg →
  fv_state fv = state_after cfg (f * substeps cfg) →
  fv_current_time fv = time_after cfg (f * substeps cfg) →
  recorded cfg f (fv_result fv) →
  ∃ fv', frame_loop cfg (sub_dt cfg) trips (N.of_nat f) fv = Ok fv' ∧
    recorded cfg (frames cfg) (fv_result fv').
Proof.
  intros Hfit Hcups. revert f fv.
  induction trips as [|trips IH]; intros f fv Htrips Hsum Hstate Htime Hrec;
    [lia|].
  cbn [frame_loop].
  destruct (record_frame_spec cfg f fv) as (r & -> & Hr); [done|lia|done..|].
  cbn [mbind outcome_bind].
  assert (Hnf : (n_frames cfg < 2 ^ size_bits)%N).
  { destruct Hfit as [_ Hfit]. eapply N.le_lt_trans; [|exact Hfit].
    rewrite <- (N.mul_1_l (n_frames cfg)) at 1.
    apply N.mul_le_mono_r. unfold cups in Hcups. lia. }
  unfold frames in *.
  rewrite size_add_small by lia.
  destruct (N.eqb_spec (N.of_nat f + 1) (n_frames cfg)) as [Hlast|Hmore].
  - eexists. split; [done|]. simpl.
    replace (N.to_nat (n_frames cfg)) with (S f) by lia. done.
  - rewrite advance_spec; [|apply Hfit|by rewrite Hstate, length_state_after].
    cbn [mbind outcome_bind fst snd].
    replace (N.succ (N.of_nat f)) with (N.of_nat (S f)) by lia.
    apply IH; [lia|lia|..|done]; cbn [fv_state fv_current_time].
    + rewrite Hstate. unfold state_after.
      rewrite <- Nat.iter_add. f_equal.
    + rewrite Htime. unfold time_after.
      rewrite <- Nat.iter_add. f_equal.
Qed.

(** The main characterisation: an accepted configuration whose sizes fit
    [std::size_t] and [max_size()] runs to completion and records every
    frame. *)
Lemma simulate_spec cfg :
  accepted cfg → sizes_fit cfg → vectors_fit cfg →
  ∃ r, simulate cfg = Ok r ∧ recorded cfg (frames cfg) r.
Proof.
  intros Hacc Hfit (Hv1 & Hv2 & Hv3).
  pose proof (accepted_inv cfg Hacc) as (Hc & Hf & Hs & _).
  unfold simulate. rewrite Hacc. cbn [mbind outcome_bind].
  destruct Hfit as [Hfit1 Hfit2].
  rewrite size_add_small, size_mul_small by done.
  rewrite !vector_of_zeros_fit by done.
  cbn [mbind outcome_bind].
  rewrite (store_of_nat _ 1) by (rewrite length_replicate; lia).
  cbn [mbind outcome_bind].
  edestruct (frame_loop_spec cfg (frames cfg) 0) as (fv & Hfv & Hrec);
    [done|done|lia|lia|..].
  4:{ change (N.of_nat 0) with 0%N in Hfv. unfold frames in Hfv at 1.
      rewrite Hfv. cbn [mbind outcome_bind]. eauto. }
  - cbn [fv_state]. unfold state_after, initial_state, cups. simpl.
    replace (N.to_nat (n_cups cfg + 2)) with (S (S (N.to_nat (n_cups cfg))))
      by lia.
    done.
  - done.
  - unfold cups, frames in *.
    split; cbn [fv_result times theta masses]; try (intros; lia).
    + by rewrite length_replicate.
    + by rewrite length_replicate.
    + by rewrite length_replicate, N2Nat.inj_mul.
Qed.

End SimulateFacts.


Section NoThrow.
Context `{P : Platform}.
Implicit Types (cfg : SimulationConfig) (state v : list float).

(** ** Only the validator throws *)

Lemma bind_no_throw {A B : Type} (m : outcome A) (f : A → outcome B) :
  ¬ throws m → (∀ a, ¬ throws (f a)) → ¬ throws (m ≫= f).
Proof.
  intros Hm Hf [what Hw]. destruct m as [a| | |]; simpl in Hw.
  - apply (Hf a). by exists what.
  - apply Hm. by eexists.
  - done.
  - done.
Qed.

Lemma ok_no_throw {A : Type} (a : A) : ¬ throws (Ok a).
Proof. by intros [? ?]. Qed.

Lemma at_no_throw v (i : N) : ¬ throws (at_ v i).
Proof. unfold at_. intros [? H]. destruct (v !! N.to_nat i); done. Qed.

Lemma store_no_throw v (i : N) x : ¬ throws (store v i x).
Proof. unfold store. intros [? H]. case_decide; done. Qed.

Lemma vector_of_zeros_no_throw (n : N) : ¬ throws (vector_of_zeros n).
Proof. unfold vector_of_zeros. intros [? H]. by destruct (_ <? _)%N. Qed.

Lemma for_from_no_throw {S : Type} trips (i : N) (body : N → S → outcome S) s :
  (∀ i s, ¬ throws (body i s)) → ¬ throws (for_from trips i body s).
Proof.
  intros Hbody. revert i s. induction trips as [|t IH]; intros i s; simpl.
  - apply ok_no_throw.
  - apply bind_no_throw; [apply Hbody|]. intros s'. apply IH.
Qed.

Lemma for_no_throw {S : Type} n (body : N → S → outcome S) s :
  (∀ i s, ¬ throws (body i s)) → ¬ throws (for_ n body s).
Proof. apply for_from_no_throw. Qed.

Create HintDb no_throw.
#[local] Hint Resolve ok_no_throw at_no_throw store_no_throw
  vector_of_zeros_no_throw : no_throw.

Ltac no_throw :=
  repeat first
    [ apply bind_no_throw; [|intros ?]
    | apply for_no_throw; intros ? ?
    | solve [auto with no_throw]
    | match goal with |- ¬ throws (if ?b then _ else _) => destruct b end ].

Lemma compute_derivatives_no_throw state cfg :
  ¬ throws (compute_derivatives state cfg).
Proof. unfold compute_derivatives, torque_body, rate_body. cbv zeta. no_throw. Qed.

Lemma rk4_step_no_throw state dt cfg : ¬ throws (rk4_step state dt cfg).
Proof.
  pose proof compute_derivatives_no_throw.
  unfold rk4_step, predict, predict_body, update_body. cbv zeta. no_throw.
Qed.

Lemma record_frame_no_throw cfg frame fv : ¬ throws (record_frame cfg frame fv).
Proof. unfold record_frame, record_body. cbv zeta. no_throw. Qed.

Lemma advance_no_throw cfg dt state t : ¬ throws (advance cfg dt state t).
Proof.
  pose proof rk4_step_no_throw.
  unfold advance, advance_body. no_throw.
Qed.

Lemma frame_loop_no_throw cfg dt trips frame fv :
  ¬ throws (frame_loop cfg dt trips frame fv).
Proof.
  pose proof record_frame_no_throw. pose proof advance_no_throw.
  revert frame fv. induction trips as [|t IH]; intros frame fv; simpl.
  - apply ok_no_throw.
  - no_throw.
Qed.

Lemma simulate_throws_inv cfg what :
  simulate cfg = Throw what ↔ validate_config cfg = Throw what.
Proof.
  unfold simulate. destruct (validate_config cfg) as [[]|w| |] eqn:Hv.
  - cbn [mbind outcome_bind]. split; [|done]. intros H. exfalso.
    pose proof frame_loop_no_throw.
    assert (Hn : ¬ throws (A:=SimulationResult) (Throw what))
      by (rewrite <- H; no_throw).
    apply Hn. by eexists.
  - simpl. split; congruence.
  - simpl. split; intros; discriminate.
  - simpl. split; intros; discriminate.
Qed.

Lemma validate_config_throws cfg :
  throws (validate_config cfg) ↔ invalid_configuration cfg.
Proof.
  unfold validate_config, invalid_configuration, throws.
  destruct (N.ltb_spec (n_cups cfg) 1); [split; eauto|].
  destruct (N.ltb_spec (n_frames cfg) 2); [split; eauto|].
  destruct (t_end cfg <=? t_start cfg)%float; [split; eauto|].
  destruct (N.ltb_spec (steps_per_frame cfg) 1); [split; eauto|].
  split; [by intros [? ?]|]. intros [?|[?|[?|?]]]; (lia || done).
Qed.

Lemma validate_config_defined cfg :
  validate_config cfg = Ok () ∨ throws (validate_config cfg).
Proof.
  unfold validate_config, throws.
  repeat match goal with |- context [if ?b then _ else _] => destruct b end;
    eauto.
Qed.

(** ** Only the vectors of [simulate] can be too long *)

Lemma bind_no_length_error {A B : Type} (m : outcome A) (f : A → outcome B) :
  m ≠ LengthError → (∀ a, f a ≠ LengthError) → m ≫= f ≠ LengthError.
Proof. destruct m as [a| | |]; simpl; intros Hm Hf; [apply Hf|done..]. Qed.

Lemma at_no_length_error v (i : N) : at_ v i ≠ LengthError.
Proof. unfold at_. by destruct (v !! N.to_nat i). Qed.

Lemma store_no_length_error v (i : N) x : store v i x ≠ LengthError.
Proof. unfold store. by case_decide. Qed.

Lemma for_from_no_length_error {S : Type} trips (i : N)
    (body : N → S → outcome S) s :
  (∀ i s, body i s ≠ LengthError) → for_from trips i body s ≠ LengthError.
Proof.
  intros Hbody. revert i s. induction trips as [|t IH]; intros i s; simpl.
  - done.
  - apply bind_no_length_error; [apply Hbody|]. intros s'. apply IH.
Qed.

Lemma for_no_length_error {S : Type} n (body : N → S → outcome S) s :
  (∀ i s, body i s ≠ LengthError) → for_ n body s ≠ LengthError.
Proof. apply for_from_no_length_error. Qed.

Create HintDb no_length_error.
#[local] Hint Resolve at_no_length_error store_no_length_error
  : no_length_error.

Ltac no_length_error :=
  repeat first
    [ apply bind_no_length_error; [|intros ?]
    | apply for_no_length_error; intros ? ?
    | solve [auto with no_length_error]
    | discriminate
    | match goal with |- (if ?b then _ else _) ≠ LengthError => destruct b end ].

Lemma compute_derivatives_no_length_error state cfg :
  compute_derivatives state cfg ≠ LengthError.
Proof.
  unfold compute_derivatives, torque_body, rate_body. cbv zeta.
  no_length_error.
Qed.

Lemma rk4_step_no_length_error state dt cfg :
  rk4_step state dt cfg ≠ LengthError.
Proof.
  pose proof compute_derivatives_no_length_error.
  unfold rk4_step, predict, predict_body, update_body. cbv zeta.
  no_length_error.
Qed.

Lemma record_frame_no_length_error cfg frame fv :
  record_frame cfg frame fv ≠ LengthError.
Proof. unfold record_frame, record_body. cbv zeta. no_length_error. Qed.

Lemma advance_no_length_error cfg dt state t :
  advance cfg dt state t ≠ LengthError.
Proof.
  pose proof rk4_step_no_length_error.
  unfold advance, advance_body. no_length_error.
Qed.

Lemma frame_loop_no_length_error cfg dt trips frame fv :
  frame_loop cfg dt trips frame fv ≠ LengthError.
Proof.
  pose proof record_frame_no_length_error.
  pose proof advance_no_length_error.
  revert frame fv. induction trips as [|t IH]; intros frame fv; simpl.
  - done.
  - no_length_error.
Qed.

End NoThrow.


(** ** Zeros in binary64 arithmetic *)

Lemma is_zero_finite z : is_zero z = true → isfinite z = true.
Proof. unfold is_zero, isfinite. by destruct (Prim2SF z). Qed.

Lemma mul_finite_zero x z :
  isfinite x = true → is_zero z = true → is_zero (x * z) = true.
Proof.
  unfold isfinite, is_zero. rewrite mul_spec.
  destruct (Prim2SF x), (Prim2SF z); try discriminate; reflexivity.
Qed.

Lemma mul_zero_finite z x :
  is_zero z = true → isfinite x = true → is_zero (z * x) = true.
Proof.
  unfold isfinite, is_zero. rewrite mul_spec.
  destruct (Prim2SF x), (Prim2SF z); try discriminate; reflexivity.
Qed.

Lemma add_zero_zero a b :
  is_zero a = true → is_zero b = true → is_zero (a + b) = true.
Proof.
  unfold is_zero. rewrite add_spec.
  destruct (Prim2SF a) as [[|]| | |], (Prim2SF b) as [[|]| | |];
    try discriminate; reflexivity.
Qed.

Lemma sub_zero_zero a b :
  is_zero a = true → is_zero b = true → is_zero (a - b) = true.
Proof.
  unfold is_zero. rewrite sub_spec.
  destruct (Prim2SF a) as [[|]| | |], (Prim2SF b) as [[|]| | |];
    try discriminate; reflexivity.
Qed.

Lemma opp_zero a : is_zero a = true → is_zero (- a) = true.
Proof.
  unfold is_zero. rewrite opp_spec.
  destruct (Prim2SF a); try discriminate; reflexivity.
Qed.

Lemma opp_finite a : isfinite a = true → isfinite (- a) = true.
Proof.
  unfold isfinite. rewrite opp_spec.
  destruct (Prim2SF a); try discriminate; reflexivity.
Qed.

Lemma div_zero_number z x :
  is_zero z = true → nonzero_number x = true → is_zero (z / x) = true.
Proof.
  unfold is_zero, nonzero_number. rewrite div_spec.
  destruct (Prim2SF x) as [[|]| [|] | |], (Prim2SF z) as [[|]| | |];
    try discriminate; reflexivity.
Qed.

(** [+0.0 + z] is [+0.0] bit for bit when [z] is either zero. *)
Lemma zero_add_zero z : is_zero z = true → (0 + z)%float = 0%float.
Proof.
  unfold is_zero. intros H. apply Prim2SF_inj. rewrite add_spec.
  destruct (Prim2SF z) as [[|]| | |]; try discriminate; reflexivity.
Qed.

(** Adding a zero to a nonzero value changes nothing. *)
Lemma add_zero_r x z :
  is_zero x = false → is_zero z = true → (x + z)%float = x.
Proof.
  unfold is_zero. intros Hx Hz. apply Prim2SF_inj. rewrite add_spec.
  destruct (Prim2SF x) as [[|]| [|] | |], (Prim2SF z) as [[|]| | |];
    try discriminate; reflexivity.
Qed.

Lemma sum_doubles_zeros l :
  Forall (λ z, is_zero z = true) l → sum_doubles l = 0%float.
Proof.
  unfold sum_doubles. induction 1 as [|z l Hz _ IH]; [done|].
  simpl. by rewrite zero_add_zero.
Qed.

Section EmptyCups.
Context `{P : Platform}.
Implicit Types (cfg : SimulationConfig) (state v : list float).

(** ** States whose cups are all empty *)

Lemma rates_of_empty cfg th n :
  is_zero (inflow_rate cfg) = true → isfinite (leak_rate cfg) = true →
  Forall (λ z, is_zero z = true)
    (imap (spec_mass_rate cfg th) (replicate n 0%float)).
Proof.
  intros Hin Hleak. apply Forall_lookup_2. intros i z.
  rewrite list_lookup_imap. intros Hz.
  apply fmap_Some in Hz as (m & Hm & ->).
  apply lookup_replicate in Hm as [-> _].
  unfold spec_mass_rate. destruct (in_inflow_window _).
  - apply sub_zero_zero; [done|]. by apply mul_finite_zero.
  - apply mul_finite_zero; [by apply opp_finite|done].
Qed.

Lemma torque_of_empty cfg th n :
  isfinite (g cfg) = true → isfinite (radius cfg) = true →
  n ≤ cups cfg → sines_finite cfg th →
  spec_torque cfg th (replicate n 0%float) = 0%float.
Proof.
  intros Hg Hr Hn Hsin. unfold spec_torque.
  apply sum_doubles_zeros, Forall_lookup_2. intros i z.
  rewrite list_lookup_imap. intros Hz.
  apply fmap_Some in Hz as (m & Hm & ->).
  apply lookup_replicate in Hm as [-> Hi].
  repeat apply mul_zero_finite; try done. apply Hsin. lia.
Qed.

Lemma axpy_empty h th om a b zs n :
  isfinite h = true → length zs = n →
  Forall (λ z, is_zero z = true) zs →
  axpy h (th :: om :: replicate n 0%float) (a :: b :: zs)
  = (th + h * a)%float :: (om + h * b)%float :: replicate n 0%float.
Proof.
  intros Hh Hlen Hzs. unfold axpy. simpl. do 2 f_equal.
  revert n Hlen. induction Hzs as [|z zs Hz _ IH]; intros [|n] Hlen;
    simpl in *; try done.
  rewrite zero_add_zero by (by apply mul_finite_zero).
  f_equal. apply IH. lia.
Qed.

Lemma rk4_combine_empty h th om a1 b1 z1 a2 b2 z2 a3 b3 z3 a4 b4 z4 n :
  isfinite h = true →
  length z1 = n → length z2 = n → length z3 = n → length z4 = n →
  Forall (λ z, is_zero z = true) z1 → Forall (λ z, is_zero z = true) z2 →
  Forall (λ z, is_zero z = true) z3 → Forall (λ z, is_zero z = true) z4 →
  rk4_combine h (th :: om :: replicate n 0%float)
    (a1 :: b1 :: z1) (a2 :: b2 :: z2) (a3 :: b3 :: z3) (a4 :: b4 :: z4)
  = (th + h * (a1 + 2.0 * a2 + 2.0 * a3 + a4))%float
    :: (om + h * (b1 + 2.0 * b2 + 2.0 * b3 + b4))%float
    :: replicate n 0%float.
Proof.
  intros Hh L1 L2 L3 L4 F1 F2 F3 F4. simpl. do 2 f_equal.
  revert n z2 z3 z4 L1 L2 L3 L4 F2 F3 F4.
  induction F1 as [|x1 z1 Hx1 _ IH];
    intros [|n] [|x2 z2] [|x3 z3] [|x4 z4] L1 L2 L3 L4 F2 F3 F4;
    simpl in *; try done.
  apply Forall_cons in F2 as [Hx2 F2]. apply Forall_cons in F3 as [Hx3 F3].
  apply Forall_cons in F4 as [Hx4 F4].
  rewrite zero_add_zero.
  - f_equal. apply IH; (lia || done).
  - apply mul_finite_zero; [done|].
    repeat apply add_zero_zero; try done;
      by apply mul_finite_zero.
Qed.

(** With no inflow and a finite leak rate, a sub-step of finite size leaves
    every cup empty, whatever the angle and the angular velocity are. *)
Lemma spec_rk4_step_empty cfg dt th om n :
  is_zero (inflow_rate cfg) = true → isfinite (leak_rate cfg) = true →
  isfinite dt = true →
  ∃ th' om', spec_rk4_step cfg dt (th :: om :: replicate n 0%float)
             = th' :: om' :: replicate n 0%float.
Proof.
  intros Hin Hleak Hdt.
  pose proof (half_finite dt Hdt) as H2. rewrite half_mul_div in H2.
  pose proof (sixth_finite dt Hdt) as H6.
  unfold spec_rk4_step. cbv zeta.
  assert (Hd : ∀ th om, ∃ d zs,
    spec_derivatives cfg (th :: om :: replicate n 0%float) = om :: d :: zs ∧
    length zs = n ∧ Forall (λ z, is_zero z = true) zs).
  { intros th1 om1. eexists _, _. split; [done|]. split.
    - by rewrite length_imap, length_replicate.
    - by apply rates_of_empty. }
  destruct (Hd th om) as (d1 & z1 & -> & L1 & F1).
  rewrite axpy_empty by done.
  destruct (Hd (th + dt / 2.0 * om)%float (om + dt / 2.0 * d1)%float)
    as (d2 & z2 & -> & L2 & F2).
  rewrite axpy_empty by done.
  destruct (Hd (th + dt / 2.0 * (om + dt / 2.0 * d1))%float
               (om + dt / 2.0 * d2)%float)
    as (d3 & z3 & -> & L3 & F3).
  rewrite axpy_empty by done.
  destruct (Hd (th + dt * (om + dt / 2.0 * d2))%float (om + dt * d3)%float)
    as (d4 & z4 & -> & L4 & F4).
  rewrite rk4_combine_empty by done. eauto.
Qed.

Lemma state_after_empty cfg j :
  is_zero (inflow_rate cfg) = true → isfinite (leak_rate cfg) = true →
  isfinite (sub_dt cfg) = true →
  ∃ th om, state_after cfg j = th :: om :: replicate (cups cfg) 0%float.
Proof.
  intros Hin Hleak Hdt. induction j as [|j (th & om & IH)].
  - by eexists _, _.
  - unfold state_after in *. rewrite Nat.iter_succ, IH.
    by apply spec_rk4_step_empty.
Qed.

(** With zero damping and empty cups of finite weight, a sub-step keeps the
    angular velocity and adds the same increment to the angle. *)
Lemma spec_rk4_step_rest cfg dt th om :
  is_zero (damping cfg) = true →
  is_zero (inflow_rate cfg) = true → isfinite (leak_rate cfg) = true →
  isfinite (g cfg) = true → isfinite (radius cfg) = true →
  nonzero_number (inertia cfg) = true →
  isfinite om = true → is_zero om = false →
  isfinite dt = true →
  sines_finite cfg th →
  sines_finite cfg (th + dt / 2.0 * om)%float →
  sines_finite cfg (th + dt * om)%float →
  spec_rk4_step cfg dt (th :: om :: replicate (cups cfg) 0%float)
  = (th + theta_increment dt om)%float :: om
    :: replicate (cups cfg) 0%float.
Proof.
  intros Hdamp Hin Hleak Hg Hr Hi Hom Hom0 Hdt S1 S2 S3.
  pose proof (half_finite dt Hdt) as H2. rewrite half_mul_div in H2.
  pose proof (sixth_finite dt Hdt) as H6.
  unfold spec_rk4_step. cbv zeta.
  assert (Hd : ∀ th, sines_finite cfg th → ∃ d zs,
    spec_derivatives cfg (th :: om :: replicate (cups cfg) 0%float)
    = om :: d :: zs ∧ is_zero d = true ∧
    length zs = cups cfg ∧ Forall (λ z, is_zero z = true) zs).
  { intros th1 Hsin. eexists _, _. split; [done|]. split; [|split].
    - rewrite torque_of_empty by done.
      apply div_zero_number; [|done].
      apply add_zero_zero; [|done].
      apply mul_zero_finite; [by apply opp_zero|done].
    - by rewrite length_imap, length_replicate.
    - by apply rates_of_empty. }
  assert (Hkeep : ∀ h d, isfinite h = true → is_zero d = true →
    (om + h * d)%float = om).
  { intros h d Hh Hz. apply add_zero_r; [done|]. by apply mul_finite_zero. }
  destruct (Hd th S1) as (d1 & z1 & -> & Z1 & L1 & F1).
  rewrite axpy_empty, Hkeep by done.
  destruct (Hd _ S2) as (d2 & z2 & -> & Z2 & L2 & F2).
  rewrite axpy_empty, Hkeep by done.
  destruct (Hd _ S2) as (d3 & z3 & E3 & Z3 & L3 & F3). rewrite E3.
  rewrite axpy_empty, Hkeep by done.
  destruct (Hd _ S3) as (d4 & z4 & -> & Z4 & L4 & F4).
  rewrite rk4_combine_empty by done.
  rewrite (Hkeep (dt / 6.0)%float); [done|done|].
  repeat apply add_zero_zero; try done; by apply mul_finite_zero.
Qed.

End EmptyCups.


(** ** The reference sine is finite on finite arguments *)

Lemma bounded_finite y :
  ((-1 <=? y) && (y <=? 1))%float = true → isfinite y = true.
Proof.
  rewrite !leb_spec. unfold isfinite.
  destruct (Prim2SF y) as [[|]|[|]| |]; try done.
Qed.

Lemma sin_ref_finite x : isfinite x = true → isfinite (sin_ref x) = true.
Proof.
  intros Hx. unfold sin_ref. rewrite Hx. cbv zeta.
  destruct (_ && _)%bool eqn:Hb; [by apply bounded_finite|done].
Qed.

Lemma host64_sin_finite : sin_finite_on_finite (P:=host64).
Proof. exact sin_ref_finite. Qed.

(** * The claims *)

(** C1. For every configuration and every state vector
    [theta, omega, mass_0, ..] of length [n_cups + 2] (a [std::vector], so
    its size is a [std::size_t]), [compute_derivatives] returns a vector of
    the same length whose components are [omega];
    [(-damping * omega + torque) / inertia] with [torque] the sum over the
    cups of [mass_i * g * radius * sin (theta + i * (2*pi / n_cups))]; and
    for cup [i], with [phi] its angle wrapped by [fmod],
    [inflow_rate - leak_rate * mass_i] when [phi < 0.1] or
    [phi > 2*pi - 0.1] and [-leak_rate * mass_i] otherwise.  The state is
    passed by const reference: the only effect is the returned vector. *)
Theorem compute_derivatives_formulas `{P : Platform}
    (cfg : SimulationConfig) (theta omega : float) (cup_masses : list float) :
  length cup_masses = N.to_nat (n_cups cfg) →
  (N.of_nat (length (theta :: omega :: cup_masses)) < 2 ^ size_bits)%N →
  ∃ d, compute_derivatives (theta :: omega :: cup_masses) cfg = Ok d ∧
    length d = length (theta :: omega :: cup_masses) ∧
    d !! 0 = Some omega ∧
    d !! 1 = Some (((- damping cfg) * omega
                    + sum_doubles (imap (λ i mass,
                        mass * g cfg * radius cfg
                        * sin (theta + double_of_size (N.of_nat i)
                                       * (TWO_PI / double_of_size (n_cups cfg))))
                        cup_masses))
                   / inertia cfg)%float ∧
    ∀ i mass, cup_masses !! i = Some mass →
      let phi := wrap_angle (theta + double_of_size (N.of_nat i)
                               * (TWO_PI / double_of_size (n_cups cfg))) in
      d !! (2 + i) = Some (if ((phi <? 0.1) || (TWO_PI - 0.1 <? phi))%float
                           then (inflow_rate cfg - leak_rate cfg * mass)%float
                           else ((- leak_rate cfg) * mass)%float).
Proof.
  intros Hlen Hfit. eexists. split.
  - apply compute_derivatives_spec; [simpl; lia|done].
  - split; [apply length_spec_derivatives; simpl; lia|].
    split; [done|]. split; [done|].
    intros i mass Hm. simpl. rewrite list_lookup_imap, Hm. done.
Qed.

Lemma compute_derivatives_formulas_witness :
  ∃ d, compute_derivatives (P:=host64) [0; 1; 2]%float torque_test_config = Ok d ∧
    length d = 3 ∧ d !! 0 = Some 1%float ∧
    d !! 1 = Some (((- 0.5) * 1
                    + sum_doubles (imap (λ i mass,
                        mass * 9.81 * 1.0
                        * sin_ref (0 + double_of_size (N.of_nat i)
                                       * (TWO_PI / double_of_size 1)))
                        [2%float]))
                   / 2.0)%float ∧
    ∀ i mass, [2%float] !! i = Some mass →
      let phi := wrap_angle (P:=host64)
                   (0 + double_of_size (N.of_nat i)
                        * (TWO_PI / double_of_size 1)) in
      d !! (2 + i) = Some (if ((phi <? 0.1) || (TWO_PI - 0.1 <? phi))%float
                           then (1.0 - 0.1 * mass)%float
                           else ((- 0.1) * mass)%float).
Proof.
  apply (compute_derivatives_formulas (P:=host64) torque_test_config
           0%float 1%float [2%float]); [reflexivity | vm_compute; reflexivity].
Defined.

(** C2. Validation fails with the invalid-configuration error exactly when
    [n_cups < 1], [n_frames < 2], [t_end <= t_start] or
    [steps_per_frame < 1], and accepts every other configuration;
    [simulate] throws in exactly the same cases, and what it throws is the
    validator's own exception, raised by its first statement: the outcome
    carries no result. *)
Theorem validation_rejects_exactly `{P : Platform} (cfg : SimulationConfig) :
  (throws (validate_config cfg) ↔ invalid_configuration cfg) ∧
  (throws (simulate cfg) ↔ invalid_configuration cfg) ∧
  (validate_config cfg = Ok () ↔ ¬ invalid_configuration cfg) ∧
  (∀ what, simulate cfg = Throw what ↔ validate_config cfg = Throw what).
Proof.
  split; [apply validate_config_throws|].
  split.
  { rewrite <- validate_config_throws. unfold throws.
    split; intros [what H]; exists what; by apply simulate_throws_inv. }
  split; [|apply simulate_throws_inv].
  rewrite <- validate_config_throws.
  destruct (validate_config_defined cfg) as [H|H].
  - rewrite H. split; [|done]. intros _ [? ?]. done.
  - split; [|done]. intros Hok. destruct H as [? H]. congruence.
Qed.



Lemma sines_finite_single `{P : Platform} cfg th :
  sin_finite_on_finite → cups cfg = 1 →
  isfinite (spec_cup_angle cfg th 0) = true → sines_finite cfg th.
Proof.
  intros Hsin Hc Hth i Hi. rewrite Hc in Hi.
  assert (i = 0) as -> by lia. by apply Hsin.
Qed.

Section Stages.
Context `{P : Platform}.
Implicit Types (cfg : SimulationConfig) (state : list float).

(** ** The four stages on a state of any sufficient length *)

Lemma at_Ok_inv state (i : N) x :
  at_ state i = Ok x → N.to_nat i < length state.
Proof.
  unfold at_. destruct (state !! N.to_nat i) eqn:E; [|done].
  intros _. by eapply lookup_lt_Some.
Qed.

Lemma at_defined state (i : N) :
  N.to_nat i < length state → ∃ x, at_ state i = Ok x.
Proof.
  intros H. destruct (lookup_lt_is_Some_2 state (N.to_nat i) H) as [x Hx].
  exists x. by apply at_lookup.
Qed.

(** A state with room for every cup: [compute_derivatives] returns, and
    the derivative has the length of the state. *)
Lemma compute_derivatives_defined cfg state :
  N.to_nat (n_cups cfg) + 2 ≤ length state →
  (N.of_nat (length state) < 2 ^ size_bits)%N →
  ∃ d, compute_derivatives state cfg = Ok d ∧ length d = length state.
Proof.
  intros Hlen Hfit. unfold compute_derivatives.
  destruct (at_defined state 0) as [th ->]; [lia|].
  destruct (at_defined state 1) as [om ->]; [lia|].
  cbn [mbind outcome_bind]. cbv zeta.
  assert (Hidx : ∀ j, j < N.to_nat (n_cups cfg) →
    N.to_nat (size_add 2 (N.of_nat j)) < length state).
  { intros j Hj. rewrite size_add_small by lia. lia. }
  edestruct (for_inv (λ _ (_ : float), True) (n_cups cfg)
               (torque_body cfg state th
                  (TWO_PI / double_of_size (n_cups cfg))) 0%float)
    as (torque & -> & _); [done| |].
  { intros j t Hj _. unfold torque_body.
    destruct (at_defined state (size_add 2 (N.of_nat j))) as [m ->];
      [by apply Hidx|].
    cbn [mbind outcome_bind]. eauto. }
  cbn [mbind outcome_bind].
  rewrite (store_of_nat _ 0) by (rewrite length_replicate; lia).
  cbn [mbind outcome_bind].
  rewrite (store_of_nat _ 1)
    by (rewrite length_insert, length_replicate; lia).
  cbn [mbind outcome_bind].
  edestruct (for_inv (λ _ d, length d = length state) (n_cups cfg)
               (rate_body cfg state th
                  (TWO_PI / double_of_size (n_cups cfg))))
    as (d & Hd & Hl); [| |by eauto].
  { by rewrite !length_insert, length_replicate. }
  intros j d Hj Hl. unfold rate_body.
  destruct (at_defined state (size_add 2 (N.of_nat j))) as [m ->];
    [by apply Hidx|].
  cbn [mbind outcome_bind]. cbv zeta.
  destruct (_ || _)%bool;
    (rewrite store_insert by (rewrite Hl; by apply Hidx);
     eexists; split; [done|by rewrite length_insert]).
Qed.

(** The four stages of [rk4_step] and its result, for every state with
    room for every cup. *)
Lemma rk4_step_stages cfg dt state :
  N.to_nat (n_cups cfg) + 2 ≤ length state →
  (N.of_nat (length state) < 2 ^ size_bits)%N →
  ∃ k1 k2 k3 k4,
    compute_derivatives state cfg = Ok k1 ∧
    compute_derivatives (axpy (dt / 2.0) state k1) cfg = Ok k2 ∧
    compute_derivatives (axpy (dt / 2.0) state k2) cfg = Ok k3 ∧
    compute_derivatives (axpy dt state k3) cfg = Ok k4 ∧
    length k1 = length state ∧ length k2 = length state ∧
    length k3 = length state ∧ length k4 = length state ∧
    rk4_step state dt cfg
    = Ok (rk4_combine (dt / 6.0) state k1 k2 k3 k4).
Proof.
  intros Hlen Hfit.
  assert (Hd : ∀ st, length st = length state →
    ∃ d, compute_derivatives st cfg = Ok d ∧ length d = length state).
  { intros st Hst. rewrite <- Hst.
    apply compute_derivatives_defined; by rewrite Hst. }
  destruct (Hd state eq_refl) as (k1 & E1 & L1).
  destruct (Hd (axpy (dt / 2.0) state k1)) as (k2 & E2 & L2);
    [by apply length_axpy|].
  destruct (Hd (axpy (dt / 2.0) state k2)) as (k3 & E3 & L3);
    [by apply length_axpy|].
  destruct (Hd (axpy dt state k3)) as (k4 & E4 & L4);
    [by apply length_axpy|].
  exists k1, k2, k3, k4. split_and!; try done.
  unfold rk4_step. cbv zeta. rewrite half_mul_div, E1.
  cbn [mbind outcome_bind].
  rewrite predict_spec by (done || by rewrite length_replicate).
  cbn [mbind outcome_bind]. rewrite E2. cbn [mbind outcome_bind].
  rewrite predict_spec by (done || by rewrite length_axpy).
  cbn [mbind outcome_bind]. rewrite E3. cbn [mbind outcome_bind].
  rewrite predict_spec by (done || by rewrite length_axpy).
  cbn [mbind outcome_bind]. rewrite E4. cbn [mbind outcome_bind].
  by rewrite update_spec.
Qed.

End Stages.

(** C3 as stated fails in its example, which fixes a single cup, zero
    damping, the state [theta = 0], [omega = 1], [mass = 0] and the step
    [0.1], and nothing else.  With an inflow of [0.5] (and no gravity, so
    that the sine plays no part) the cup starts under the inflow and ends
    with mass [0.041666666666666664], not [0.0].  With the header's default
    [inertia = 0] the angular acceleration is [0 / 0] and the new angle and
    velocity are NaN; so they are with an infinite [g] or an infinite
    [radius] (the torque is [0 * inf]); and with an infinite [leak_rate]
    the mass is a NaN too.  The general part needs a state with room for
    the cup: on a state of two elements the step reads [state[2]], which
    is out of bounds. *)
Lemma rk4_step_example_needs_closed_inflow :
  rk4_step (P:=host64) [0; 1; 0]%float 0.1
    (single_cup_config 1.0 0.0 0.0 0.5 1.0)
  = Ok [0.1; 1.0; 0.041666666666666664]%float ∧
  (0.041666666666666664 =? 0.0)%float = false ∧
  rk4_step (P:=host64) [0; 1; 0]%float 0.1
    (single_cup_config 1.0 9.81 0.0 0.0 0.0)
  = Ok [nan; nan; 0]%float ∧
  rk4_step (P:=host64) [0; 1; 0]%float 0.1
    (single_cup_config 1.0 infinity 0.0 0.0 1.0)
  = Ok [nan; nan; 0]%float ∧
  rk4_step (P:=host64) [0; 1; 0]%float 0.1
    (single_cup_config infinity 9.81 0.0 0.0 1.0)
  = Ok [nan; nan; 0]%float ∧
  rk4_step (P:=host64) [0; 1; 0]%float 0.1
    (single_cup_config 1.0 9.81 infinity 0.0 1.0)
  = Ok [nan; nan; nan]%float ∧
  rk4_step (P:=host64) [0; 1]%float 0.1
    (single_cup_config 1.0 9.81 0.0 0.0 1.0)
  = Undefined.
Proof. vm_compute. done. Qed.

(** C3, amended.  [rk4_step] replaces the state by
    [state + dt/6 * (k1 + 2*k2 + 2*k3 + k4)], component by component, where
    [k1 = f state], [k2 = f (state + dt/2 * k1)],
    [k3 = f (state + dt/2 * k2)], [k4 = f (state + dt * k3)] and [f] is
    [compute_derivatives] with the given configuration, for every state of
    at least [n_cups + 2] elements.  In particular, with a single cup, zero damping
    and, as in the repository's test, no inflow, one sub-step of size [0.1]
    from [theta = 0], [omega = 1], [mass = 0] yields exactly [theta = 0.1],
    [omega = 1.0], [mass = 0.0], whatever the finite values of [g],
    [radius] and [leak_rate] and the [inertia], neither zero nor NaN, are,
    [std::sin] being finite on finite arguments. *)
Theorem rk4_step_classical `{P : Platform} :
  (∀ (cfg : SimulationConfig) (dt : float) (state : list float),
     N.to_nat (n_cups cfg) + 2 ≤ length state →
     (N.of_nat (length state) < 2 ^ size_bits)%N →
     ∃ k1 k2 k3 k4 state',
       compute_derivatives state cfg = Ok k1 ∧
       compute_derivatives (axpy (dt / 2.0) state k1) cfg = Ok k2 ∧
       compute_derivatives (axpy (dt / 2.0) state k2) cfg = Ok k3 ∧
       compute_derivatives (axpy dt state k3) cfg = Ok k4 ∧
       rk4_step state dt cfg = Ok state' ∧
       length state' = length state ∧
       ∀ i s, state !! i = Some s →
         ∃ a b c d, k1 !! i = Some a ∧ k2 !! i = Some b ∧
           k3 !! i = Some c ∧ k4 !! i = Some d ∧
           state' !! i
           = Some (s + dt / 6.0 * (a + 2.0 * b + 2.0 * c + d))%float) ∧
  (∀ cfg : SimulationConfig,
     n_cups cfg = 1%N → is_zero (damping cfg) = true →
     is_zero (inflow_rate cfg) = true → isfinite (leak_rate cfg) = true →
     isfinite (g cfg) = true → isfinite (radius cfg) = true →
     nonzero_number (inertia cfg) = true →
     sin_finite_on_finite → (3 < 2 ^ size_bits)%N →
     rk4_step [0; 1; 0]%float 0.1 cfg = Ok [0.1; 1.0; 0.0]%float).
Proof.
  split.
  - intros cfg dt state Hlen Hfit.
    destruct (rk4_step_stages cfg dt state Hlen Hfit)
      as (k1 & k2 & k3 & k4 & E1 & E2 & E3 & E4 & L1 & L2 & L3 & L4 & Hrun).
    exists k1, k2, k3, k4, (rk4_combine (dt / 6.0) state k1 k2 k3 k4).
    split_and!; try done.
    + by apply length_rk4_combine.
    + intros i s Hs.
      destruct (lookup_lt_is_Some_2 (rk4_combine (dt / 6.0) state k1 k2 k3 k4) i)
        as [x Hx].
      { rewrite length_rk4_combine by done. by eapply lookup_lt_Some. }
      pose proof Hx as Hx'.
      apply lookup_rk4_combine in Hx'
        as (s' & a & b & c & d & Hs' & Ha & Hb & Hc & Hd' & ->).
      exists a, b, c, d. rewrite Hx. split_and!; try done. congruence.
  - intros cfg Hcups Hdamp Hin Hleak Hg Hr Hi Hsin Hfit.
    assert (Hc : cups cfg = 1) by (unfold cups; by rewrite Hcups).
    rewrite rk4_step_spec; [|simpl; lia|simpl; lia].
    assert (Hangle : ∀ th, isfinite (th + 0)%float = true → sines_finite cfg th).
    { intros th Hth. apply sines_finite_single; [done..|].
      unfold spec_cup_angle. by rewrite Hcups. }
    replace [0; 1; 0]%float with (0 :: 1 :: replicate (cups cfg) 0)%float
      by (by rewrite Hc).
    rewrite spec_rk4_step_rest; try done; [by rewrite Hc|by apply Hangle..].
Qed.

Lemma rk4_step_classical_witness :
  (∃ k1 k2 k3 k4 state',
     compute_derivatives (P:=host64) [0; 1; 0]%float rk4_test_config = Ok k1 ∧
     compute_derivatives (P:=host64) (axpy (0.1 / 2.0) [0; 1; 0]%float k1)
       rk4_test_config = Ok k2 ∧
     compute_derivatives (P:=host64) (axpy (0.1 / 2.0) [0; 1; 0]%float k2)
       rk4_test_config = Ok k3 ∧
     compute_derivatives (P:=host64) (axpy 0.1 [0; 1; 0]%float k3)
       rk4_test_config = Ok k4 ∧
     rk4_step (P:=host64) [0; 1; 0]%float 0.1 rk4_test_config = Ok state' ∧
     length state' = 3 ∧
     ∀ i s, [0; 1; 0]%float !! i = Some s →
       ∃ a b c d, k1 !! i = Some a ∧ k2 !! i = Some b ∧
         k3 !! i = Some c ∧ k4 !! i = Some d ∧
         state' !! i
         = Some (s + 0.1 / 6.0 * (a + 2.0 * b + 2.0 * c + d))%float) ∧
  rk4_step (P:=host64) [0; 1; 0]%float 0.1 rk4_test_config
  = Ok [0.1; 1.0; 0.0]%float.
Proof.
  split.
  - apply (proj1 (rk4_step_classical (P:=host64)) rk4_test_config
             0.1%float [0; 1; 0]%float);
      [simpl; lia | vm_compute; reflexivity].
  - apply (proj2 (rk4_step_classical (P:=host64)) rk4_test_config);
      try reflexivity; exact host64_sin_finite.
Defined.


Section RunFacts.
Context `{P : Platform}.
Implicit Types (cfg : SimulationConfig).

(** Every index of the table is [c * n_frames + k] for a cup and a frame. *)
Lemma table_index cfg idx :
  idx < cups cfg * frames cfg →
  ∃ c k, c < cups cfg ∧ k < frames cfg ∧ idx = c * frames cfg + k.
Proof.
  intros Hidx.
  assert (Hnf : frames cfg ≠ 0) by (intros H0; rewrite H0 in Hidx; lia).
  exists (idx / frames cfg), (idx mod frames cfg). split_and!.
  - apply Nat.Div0.div_lt_upper_bound. lia.
  - by apply Nat.mod_upper_bound.
  - rewrite (Nat.div_mod_eq idx (frames cfg)) at 1. lia.
Qed.

Lemma masses_zero_run cfg :
  accepted cfg → sizes_fit cfg → vectors_fit cfg →
  is_zero (inflow_rate cfg) = true → is_zero (leak_rate cfg) = true →
  isfinite (sub_dt cfg) = true →
  ∃ r, simulate cfg = Ok r ∧ length (masses r) = cups cfg * frames cfg ∧
    Forall (λ m, m = 0%float) (masses r).
Proof.
  intros Hacc Hfit Hvec Hin Hleak Hdt.
  destruct (simulate_spec cfg Hacc Hfit Hvec) as (r & Hr & Hrec).
  exists r. split; [done|]. split; [apply Hrec|].
  apply Forall_lookup_2. intros idx x Hx.
  pose proof (lookup_lt_Some _ _ _ Hx) as Hidx.
  rewrite (rec_masses_length _ _ _ Hrec) in Hidx.
  destruct (table_index cfg idx Hidx) as (c & k & Hc & Hk & ->).
  rewrite (rec_masses _ _ _ Hrec) in Hx by done.
  destruct (state_after_empty cfg (k * substeps cfg) Hin
              (is_zero_finite _ Hleak) Hdt) as (th & om & Hst).
  rewrite Hst in Hx. simpl in Hx.
  apply lookup_replicate in Hx as [-> _]. done.
Qed.

Lemma state_after_rest cfg J :
  is_zero (damping cfg) = true →
  is_zero (inflow_rate cfg) = true → isfinite (leak_rate cfg) = true →
  isfinite (g cfg) = true → isfinite (radius cfg) = true →
  nonzero_number (inertia cfg) = true →
  isfinite (omega0 cfg) = true → is_zero (omega0 cfg) = false →
  isfinite (sub_dt cfg) = true →
  sines_finite_along cfg J →
  ∀ j, j ≤ J →
    state_after cfg j
    = theta_linear cfg j :: omega0 cfg :: replicate (cups cfg) 0%float.
Proof.
  intros Hdamp Hin Hleak Hg Hr Hi Hom Hom0 Hdt Hsin j.
  induction j as [|j IH]; intros Hj; [done|].
  unfold state_after, theta_linear in *.
  rewrite !Nat.iter_succ, IH by lia.
  destruct (Hsin j) as (S1 & S2 & S3); [lia|].
  by apply spec_rk4_step_rest.
Qed.

Lemma theta_linear_run cfg :
  accepted cfg → sizes_fit cfg → vectors_fit cfg →
  is_zero (damping cfg) = true →
  is_zero (inflow_rate cfg) = true → is_zero (leak_rate cfg) = true →
  isfinite (g cfg) = true → isfinite (radius cfg) = true →
  nonzero_number (inertia cfg) = true →
  isfinite (omega0 cfg) = true → is_zero (omega0 cfg) = false →
  isfinite (sub_dt cfg) = true →
  sines_finite_along cfg ((frames cfg - 1) * substeps cfg) →
  ∃ r, simulate cfg = Ok r ∧
    length (times r) = frames cfg ∧ length (theta r) = frames cfg ∧
    length (masses r) = cups cfg * frames cfg ∧
    Forall (λ m, m = 0%float) (masses r) ∧
    ∀ k, k < frames cfg →
      times r !! k = Some (time_after cfg (k * substeps cfg)) ∧
      theta r !! k = Some (theta_linear cfg (k * substeps cfg)).
Proof.
  intros Hacc Hfit Hvec Hdamp Hin Hleak Hg Hr Hi Hom Hom0 Hdt Hsin.
  destruct (masses_zero_run cfg) as (r & Hr1 & Hlm & Hm); try done.
  destruct (simulate_spec cfg Hacc Hfit Hvec) as (r' & Hr2 & Hrec).
  assert (r' = r) as -> by congruence.
  exists r. split; [done|].
  split; [apply Hrec|]. split; [apply Hrec|]. split; [done|].
  split; [done|]. intros k Hk. split; [by apply Hrec|].
  rewrite (rec_theta _ _ _ Hrec) by done.
  rewrite (state_after_rest cfg ((frames cfg - 1) * substeps cfg)); try done.
  - by apply is_zero_finite.
  - apply Nat.mul_le_mono_r. lia.
Qed.

End RunFacts.


Lemma size_sub_small `{P : Platform} (a b : N) :
  (b ≤ a)%N → (a < 2 ^ size_bits)%N → size_sub a b = (a - b)%N.
Proof.
  intros Hle Hlt. unfold size_sub.
  assert (Hpow : (Z.of_N a < 2 ^ Z.of_N size_bits)%Z).
  { change 2%Z with (Z.of_N 2). rewrite <- N2Z.inj_pow. lia. }
  rewrite Z.mod_small by lia. lia.
Qed.

(** Three cells with known contents. *)
Lemma list_of_three (l : list float) a b c :
  length l = 3 → l !! 0 = Some a → l !! 1 = Some b → l !! 2 = Some c →
  l = [a; b; c].
Proof.
  destruct l as [|x [|y [|z [|]]]]; simpl; try done.
  by intros _ [= ->] [= ->] [= ->].
Qed.

(** C4, on the 64-bit host with [n_cups = SIZE_MAX] and [n_frames = 2]:
    the configuration passes validation, [n_cups + 2] wraps around to [1],
    so the state vector has one element instead of [n_cups + 2], and the
    assignment [state[1] = cfg.omega0] is out of bounds: [simulate] has no
    result. *)
Theorem state_size_wraps_around :
  validate_config size_max_cups_config = Ok () ∧
  size_add (P:=host64) (n_cups size_max_cups_config) 2 = 1%N ∧
  simulate (P:=host64) size_max_cups_config = Undefined.
Proof. vm_compute. done. Qed.

(** C8, on wasm32 with [n_cups = n_frames = 65536]: the configuration
    passes validation, [n_cups * n_frames] wraps around to [0], so [masses]
    is empty and the first write [masses[0 * n_frames + 0]] is out of
    bounds: [simulate] has no result. *)
Theorem masses_table_wraps_around :
  validate_config table_wraps_config = Ok () ∧
  size_mul (P:=wasm32) (n_cups table_wraps_config)
    (n_frames table_wraps_config) = 0%N ∧
  record_body (P:=wasm32) table_wraps_config 0
    (initial_state table_wraps_config) 0 [] = Undefined ∧
  simulate (P:=wasm32) table_wraps_config = Undefined.
Proof. vm_compute. done. Qed.

(** C10, on wasm32 with [n_cups = SIZE_MAX - 1] and [n_frames = 2]: the
    configuration passes validation, [n_cups + 2] wraps around to [0], the
    state vector is empty and [state[1] = cfg.omega0] writes outside it. *)
Theorem state_write_out_of_bounds :
  validate_config empty_state_config = Ok () ∧
  size_add (P:=wasm32) (n_cups empty_state_config) 2 = 0%N ∧
  store (replicate (N.to_nat (size_add (P:=wasm32)
                                (n_cups empty_state_config) 2)) 0%float)
    1 (omega0 empty_state_config) = Undefined ∧
  simulate (P:=wasm32) empty_state_config = Undefined.
Proof. vm_compute. done. Qed.

(** C5 as stated fails, in both of its parts.  In the configuration of the
    repository's own end-to-end test ([t_start = 0], [t_end = 1], three
    frames, five sub-steps per frame) the last timestamp is ten additions
    of [0.1], which is [0.99999999999999989], not [t_end].  With
    [t_start = 1e16], [t_end = 1e16 + 64], three frames and 64 sub-steps per
    frame, the sub-step [0.5] is absorbed by every addition: all three
    timestamps are [t_start], 16 and 32 units in the last place away from
    the nominal [1e16 + 32] and from [t_end].  With [t_start = -1e308] and
    [t_end = 1e308] the span overflows and the last timestamp is
    [+infinity]. *)
Lemma last_time_is_not_t_end :
  (validate_config frames_test_config = Ok () ∧
   simulate (P:=host64) frames_test_config
   = Ok {| times := [0; 0.5; 0.99999999999999989]%float;
           theta := [0; 0.5; 0.99999999999999989]%float;
           masses := [0; 0; 0]%float |} ∧
   (0.99999999999999989 =? t_end frames_test_config)%float = false) ∧
  (validate_config stuck_clock_config = Ok () ∧
   simulate (P:=host64) stuck_clock_config
   = Ok {| times := [1e16; 1e16; 1e16]%float;
           theta := [0; 32; 64]%float;
           masses := [0; 0; 0]%float |} ∧
   (t_start stuck_clock_config
    + 1 * (t_end stuck_clock_config - t_start stuck_clock_config) / 2)%float
   = 10000000000000032%float ∧
   t_end stuck_clock_config = 10000000000000064%float) ∧
  (validate_config wide_span_config = Ok () ∧
   simulate (P:=host64) wide_span_config
   = Ok {| times := [-1e308; infinity]%float;
           theta := [0; nan]%float;
           masses := [0; nan]%float |} ∧
   t_end wide_span_config = 1e308%float).
Proof. vm_compute. done. Qed.

(** C5, amended.  For every configuration accepted by validation whose
    sizes fit [std::size_t] and [max_size()], [simulate] returns [n_frames]
    timestamps; [times[0]] is [t_start] exactly and [times[k]] is [t_start]
    after [k * steps_per_frame] successive additions of
    [sub_dt = ((t_end - t_start) / (n_frames - 1)) / steps_per_frame], each
    rounded to double.  Nothing relates the last timestamp to [t_end]. *)
Theorem times_accumulate_sub_dt `{P : Platform} (cfg : SimulationConfig) :
  validate_config cfg = Ok () → sizes_fit cfg → vectors_fit cfg →
  ∃ r, simulate cfg = Ok r ∧
    length (times r) = N.to_nat (n_frames cfg) ∧
    times r !! 0 = Some (t_start cfg) ∧
    ∀ k, k < N.to_nat (n_frames cfg) →
      times r !! k
      = Some (Nat.iter (k * N.to_nat (steps_per_frame cfg))
                (λ t, (t + sub_dt cfg)%float) (t_start cfg)).
Proof.
  intros Hacc Hfit Hvec.
  destruct (simulate_spec cfg Hacc Hfit Hvec) as (r & Hr & Hrec).
  pose proof (accepted_inv cfg Hacc) as (_ & Hf & _).
  exists r. split; [done|]. split; [apply Hrec|]. split.
  - by rewrite (rec_times _ _ _ Hrec 0) by lia.
  - intros k Hk. by rewrite (rec_times _ _ _ Hrec k).
Qed.

Lemma times_accumulate_sub_dt_witness :
  ∃ r, simulate (P:=host64) frames_test_config = Ok r ∧
    length (times r) = 3 ∧
    times r !! 0 = Some 0%float ∧
    ∀ k, k < 3 →
      times r !! k
      = Some (Nat.iter (k * 5)
                (λ t, (t + sub_dt (P:=host64) frames_test_config)%float)
                0%float).
Proof.
  apply (times_accumulate_sub_dt (P:=host64) frames_test_config);
    [reflexivity | sizes_ok | sizes_ok].
Defined.

(** C6 as stated fails: with no inflow and no leak, but a time span whose
    length overflows to [+infinity] ([t_start = -1e308], [t_end = 1e308]),
    the sub-step size is infinite and the mass recorded at the second frame
    is [0 + inf * 0], a NaN. *)
Lemma masses_nan_on_infinite_step :
  validate_config wide_span_config = Ok () ∧
  is_zero (inflow_rate wide_span_config) = true ∧
  is_zero (leak_rate wide_span_config) = true ∧
  simulate (P:=host64) wide_span_config
  = Ok {| times := [-1e308; infinity]%float;
          theta := [0; nan]%float;
          masses := [0; nan]%float |}.
Proof. vm_compute. done. Qed.

(** C6, amended.  For every configuration accepted by validation whose
    sizes fit [std::size_t] and [max_size()], with [inflow_rate] and
    [leak_rate] zero and a finite sub-step size [sub_dt], every entry of
    [masses] is exactly [+0.0], whatever the other fields are. *)
Theorem masses_stay_zero `{P : Platform} (cfg : SimulationConfig) :
  validate_config cfg = Ok () → sizes_fit cfg → vectors_fit cfg →
  is_zero (inflow_rate cfg) = true → is_zero (leak_rate cfg) = true →
  isfinite (sub_dt cfg) = true →
  ∃ r, simulate cfg = Ok r ∧
    length (masses r) = N.to_nat (n_cups cfg) * N.to_nat (n_frames cfg) ∧
    ∀ i m, masses r !! i = Some m → m = 0%float.
Proof.
  intros Hacc Hfit Hvec Hin Hleak Hdt.
  destruct (masses_zero_run cfg) as (r & Hr & Hlen & Hm); try done.
  exists r. split; [done|]. split; [done|].
  intros i m Hi. by apply (Forall_lookup_1 _ _ _ _ Hm Hi).
Qed.

Lemma masses_stay_zero_witness :
  ∃ r, simulate (P:=host64) frames_test_config = Ok r ∧
    length (masses r) = 1 * 3 ∧
    ∀ i m, masses r !! i = Some m → m = 0%float.
Proof.
  apply (masses_stay_zero (P:=host64) frames_test_config);
    [reflexivity | sizes_ok | sizes_ok | reflexivity..].
Defined.


(** In the end-to-end example the sub-step is [0.1] on every platform wide
    enough to hold the sizes. *)
Lemma sub_dt_linear_growth `{P : Platform} radius :
  (3 < 2 ^ size_bits)%N → sub_dt (linear_growth_config radius) = 0.1%float.
Proof.
  intros Hfit. unfold sub_dt, frame_dt.
  rewrite size_sub_small; [reflexivity | done | done].
Qed.

Lemma sines_finite_linear_growth `{P : Platform} radius :
  sin_finite_on_finite → (3 < 2 ^ size_bits)%N →
  sines_finite_along (linear_growth_config radius) 10.
Proof.
  intros Hsin Hfit j Hj. unfold theta_linear.
  rewrite (sub_dt_linear_growth radius Hfit).
  do 10 (destruct j as [|j];
    [split_and!; by apply sines_finite_single|]).
  lia.
Qed.

(** C7 as stated fails, in both of its parts.  In the end-to-end example
    the last timestamp is [0.99999999999999989], not [1.0].  With
    [t_start = 1e16], [t_end = 1e16 + 64], [omega0 = 1] and sub-steps of
    [0.5] the running time never advances while the angle does:
    [theta = [0, 32, 64]] against [omega0 * (times[k] - t_start) = 0].  With
    one sub-step from [0] to [1] and [omega0 = 0.1] the recorded angle is
    [0.099999999999999992] against [0.1].  With the header's default
    [inertia = 0] the angular acceleration is [0 / 0], so every angle after
    the first is a NaN; and so it is with an infinite radius, the torque
    being [0 * inf]. *)
Lemma theta_is_not_exactly_linear :
  simulate (P:=host64) (linear_growth_config 1.0)
  = Ok {| times := [0; 0.5; 0.99999999999999989]%float;
          theta := [0; 0.5; 0.99999999999999989]%float;
          masses := [0; 0; 0]%float |} ∧
  (0.99999999999999989 =? 1.0)%float = false ∧
  simulate (P:=host64) stuck_clock_config
  = Ok {| times := [1e16; 1e16; 1e16]%float;
          theta := [0; 32; 64]%float;
          masses := [0; 0; 0]%float |} ∧
  (omega0 stuck_clock_config * (1e16 - t_start stuck_clock_config))%float
  = 0%float ∧
  simulate (P:=host64) tenth_turn_config
  = Ok {| times := [0; 1]%float;
          theta := [0; 0.099999999999999992]%float;
          masses := [0; 0]%float |} ∧
  (omega0 tenth_turn_config * (1 - t_start tenth_turn_config))%float
  = 0.1%float ∧
  (0.099999999999999992 =? 0.1)%float = false ∧
  simulate (P:=host64) zero_inertia_config
  = Ok {| times := [0; 0.5; 0.99999999999999989]%float;
          theta := [0; nan; nan]%float;
          masses := [0; 0; 0]%float |} ∧
  simulate (P:=host64) infinite_radius_config
  = Ok {| times := [0; 0.5; 0.99999999999999989]%float;
          theta := [0; nan; nan]%float;
          masses := [0; 0; 0]%float |}.
Proof. vm_compute. done. Qed.

(** C7, amended.  For every configuration accepted by validation whose
    sizes fit [std::size_t] and [max_size()], with [damping], [leak_rate],
    [inflow_rate] and [g] zero, a finite [radius], an [inertia] that is
    neither zero nor NaN, a finite nonzero [omega0], a finite sub-step, and
    finite sines at the cup angles the run evaluates, [theta[k]] is [0]
    after [k * steps_per_frame] additions of the constant increment
    [sub_dt/6 * (omega0 + 2*omega0 + 2*omega0 + omega0)].  Nothing relates
    [theta[k]] to [times[k]].  In particular, with one cup, [omega0 = 1],
    [inertia = 1], [t_start = 0], [t_end = 1], three frames, five sub-steps
    per frame and any finite radius, [times] is
    [[0, 0.5, 0.99999999999999989]], [theta] is within [1e-9] of
    [[0, 0.5, 1.0]] and all masses are [0]. *)
Theorem theta_grows_by_constant_increment `{P : Platform} :
  (∀ cfg : SimulationConfig,
     validate_config cfg = Ok () → sizes_fit cfg → vectors_fit cfg →
     is_zero (damping cfg) = true → is_zero (leak_rate cfg) = true →
     is_zero (inflow_rate cfg) = true → is_zero (g cfg) = true →
     isfinite (radius cfg) = true → nonzero_number (inertia cfg) = true →
     isfinite (omega0 cfg) = true → is_zero (omega0 cfg) = false →
     isfinite (sub_dt cfg) = true →
     sines_finite_along cfg
       ((N.to_nat (n_frames cfg) - 1) * N.to_nat (steps_per_frame cfg)) →
     ∃ r, simulate cfg = Ok r ∧
       ∀ k, k < N.to_nat (n_frames cfg) →
         theta r !! k
         = Some (Nat.iter (k * N.to_nat (steps_per_frame cfg))
                   (λ th, (th + sub_dt cfg / 6.0
                                * (omega0 cfg + 2.0 * omega0 cfg
                                   + 2.0 * omega0 cfg + omega0 cfg))%float)
                   0%float)) ∧
  (∀ radius : float,
     isfinite radius = true → sin_finite_on_finite →
     (3 < 2 ^ size_bits)%N → (3 ≤ max_size)%N →
     ∃ th0 th1 th2,
       simulate (linear_growth_config radius)
       = Ok {| times := [0; 0.5; 0.99999999999999989]%float;
               theta := [th0; th1; th2];
               masses := [0; 0; 0]%float |} ∧
       near th0 0 1e-9 = true ∧ near th1 0.5 1e-9 = true ∧
       near th2 1.0 1e-9 = true).
Proof.
  split.
  - intros cfg Hacc Hfit Hvec Hdamp Hleak Hin Hg Hr Hi Hom Hom0 Hdt Hsin.
    destruct (theta_linear_run cfg) as (r & Hrun & _ & _ & _ & _ & Hk);
      try done; [by apply is_zero_finite|].
    exists r. split; [done|]. intros k Hlt. by apply Hk.
  - intros radius Hradius Hsin Hfit Hmax.
    destruct (theta_linear_run (linear_growth_config radius))
      as (r & Hrun & Lt & Lth & Lm & Hm & Hk); try reflexivity.
    + split; simpl; lia.
    + unfold vectors_fit. simpl. lia.
    + done.
    + by rewrite (sub_dt_linear_growth radius Hfit).
    + by apply sines_finite_linear_growth.
    + exists 0%float, 0.5%float, 0.99999999999999989%float.
      split; [|by vm_compute].
      rewrite Hrun. f_equal. destruct r as [ts ths ms]. simpl in *.
      destruct (Hk 0) as [T0 H0]; [unfold frames; simpl; lia|].
      destruct (Hk 1) as [T1 H1]; [unfold frames; simpl; lia|].
      destruct (Hk 2) as [T2 H2]; [unfold frames; simpl; lia|].
      unfold time_after, theta_linear in *.
      rewrite (sub_dt_linear_growth radius Hfit) in *.
      f_equal.
      * by apply list_of_three.
      * by apply list_of_three.
      * destruct ms as [|a [|b [|c [|]]]]; try done.
        apply Forall_cons in Hm as [-> Hm]. apply Forall_cons in Hm as [-> Hm].
        by apply Forall_cons in Hm as [-> _].
Qed.

Lemma theta_grows_by_constant_increment_witness :
  (∃ r, simulate (P:=host64) (linear_growth_config 1.0) = Ok r ∧
     ∀ k, k < 3 →
       theta r !! k
       = Some (Nat.iter (k * 5)
                 (λ th, (th + sub_dt (P:=host64) (linear_growth_config 1.0)
                              / 6.0
                              * (1.0 + 2.0 * 1.0 + 2.0 * 1.0 + 1.0))%float)
                 0%float)) ∧
  (∃ th0 th1 th2,
     simulate (P:=host64) (linear_growth_config 1.0)
     = Ok {| times := [0; 0.5; 0.99999999999999989]%float;
             theta := [th0; th1; th2];
             masses := [0; 0; 0]%float |} ∧
     near th0 0 1e-9 = true ∧ near th1 0.5 1e-9 = true ∧
     near th2 1.0 1e-9 = true).
Proof.
  split.
  - apply (proj1 (theta_grows_by_constant_increment (P:=host64))
             (linear_growth_config 1.0)); try reflexivity.
    + sizes_ok.
    + sizes_ok.
    + apply (sines_finite_linear_growth (P:=host64));
        [exact host64_sin_finite | vm_compute; reflexivity].
  - apply (proj2 (theta_grows_by_constant_increment (P:=host64)) 1.0%float);
      [reflexivity | exact host64_sin_finite | vm_compute; reflexivity
      | vm_compute; done].
Defined.


(** * What holds when the sizes fit *)

(** X1. For every configuration accepted by validation whose sizes
    [n_cups + 2] and [n_cups * n_frames] fit [std::size_t] and whose
    vectors do not exceed [max_size()], [simulate]
    returns [times] and [theta] of length [n_frames] and [masses] of length
    [n_cups * n_frames]; the state vector starts with [n_cups + 2] elements
    and every [rk4_step] returns a state of that length. *)
Theorem result_lengths `{P : Platform} (cfg : SimulationConfig) :
  validate_config cfg = Ok () → sizes_fit cfg → vectors_fit cfg →
  (∃ r, simulate cfg = Ok r ∧
     length (times r) = N.to_nat (n_frames cfg) ∧
     length (theta r) = N.to_nat (n_frames cfg) ∧
     length (masses r) = N.to_nat (n_cups cfg) * N.to_nat (n_frames cfg)) ∧
  length (initial_state cfg) = N.to_nat (n_cups cfg) + 2 ∧
  ∀ state dt, length state = N.to_nat (n_cups cfg) + 2 →
    ∃ state', rk4_step state dt cfg = Ok state' ∧
      length state' = N.to_nat (n_cups cfg) + 2.
Proof.
  intros Hacc Hfit Hvec.
  destruct (simulate_spec cfg Hacc Hfit Hvec) as (r & Hr & Hrec).
  split; [|split].
  - exists r. split; [done|]. split_and!; apply Hrec.
  - apply length_initial_state.
  - intros state dt Hlen. eexists. split.
    + apply rk4_step_spec; [done|]. destruct Hfit as [Hfit _]. lia.
    + rewrite length_spec_rk4_step; lia.
Qed.

Lemma result_lengths_witness :
  (∃ r, simulate (P:=host64) make_valid_config = Ok r ∧
     length (times r) = 5 ∧ length (theta r) = 5 ∧
     length (masses r) = 2 * 5) ∧
  length (initial_state make_valid_config) = 2 + 2 ∧
  ∀ state dt, length state = 2 + 2 →
    ∃ state', rk4_step (P:=host64) state dt make_valid_config = Ok state' ∧
      length state' = 2 + 2.
Proof.
  apply (result_lengths (P:=host64) make_valid_config);
    [reflexivity | sizes_ok | sizes_ok].
Defined.

(** X2. For every such configuration the sample of frame [k] is the state
    after [k * steps_per_frame] sub-steps: [theta[k]] is its first
    component and the mass of cup [c] is stored at index
    [c * n_frames + k] of [masses], cup-major and frame-minor. *)
Theorem masses_layout `{P : Platform} (cfg : SimulationConfig) :
  validate_config cfg = Ok () → sizes_fit cfg → vectors_fit cfg →
  ∃ r, simulate cfg = Ok r ∧
    ∀ k, k < N.to_nat (n_frames cfg) →
      let state := Nat.iter (k * N.to_nat (steps_per_frame cfg))
                     (spec_rk4_step cfg (sub_dt cfg)) (initial_state cfg) in
      theta r !! k = state !! 0 ∧
      ∀ c, c < N.to_nat (n_cups cfg) →
        masses r !! (c * N.to_nat (n_frames cfg) + k) = state !! (2 + c) ∧
        is_Some (state !! (2 + c)).
Proof.
  intros Hacc Hfit Hvec.
  destruct (simulate_spec cfg Hacc Hfit Hvec) as (r & Hr & Hrec).
  exists r. split; [done|]. intros k Hk. split.
  - by apply (rec_theta _ _ _ Hrec).
  - intros c Hc. split; [by apply (rec_masses _ _ _ Hrec)|].
    apply lookup_lt_is_Some_2.
    pose proof (length_state_after cfg (k * substeps cfg)) as Hlen.
    unfold state_after, substeps, cups in Hlen. lia.
Qed.

Lemma masses_layout_witness :
  ∃ r, simulate (P:=host64) make_valid_config = Ok r ∧
    ∀ k, k < 5 →
      let state := Nat.iter (k * 2)
                     (spec_rk4_step (P:=host64) make_valid_config
                        (sub_dt (P:=host64) make_valid_config))
                     (initial_state make_valid_config) in
      theta r !! k = state !! 0 ∧
      ∀ c, c < 2 →
        masses r !! (c * 5 + k) = state !! (2 + c) ∧
        is_Some (state !! (2 + c)).
Proof.
  apply (masses_layout (P:=host64) make_valid_config);
    [reflexivity | sizes_ok | sizes_ok].
Defined.

(** X3. For every such configuration no vector access of [simulate] is out of
    bounds, and neither is any access of [compute_derivatives] or
    [rk4_step] on a state of [n_cups + 2] elements: all three return. *)
Theorem accesses_in_bounds `{P : Platform} (cfg : SimulationConfig) :
  validate_config cfg = Ok () → sizes_fit cfg → vectors_fit cfg →
  (∃ r, simulate cfg = Ok r) ∧
  ∀ state dt, length state = N.to_nat (n_cups cfg) + 2 →
    (∃ d, compute_derivatives state cfg = Ok d) ∧
    (∃ state', rk4_step state dt cfg = Ok state').
Proof.
  intros Hacc [Hfit1 Hfit2] Hvec. split.
  - destruct (simulate_spec cfg Hacc) as (r & Hr & _); [done..|]. eauto.
  - intros state dt Hlen. split; eexists.
    + apply compute_derivatives_spec; [done|lia].
    + apply rk4_step_spec; [done|lia].
Qed.

Lemma accesses_in_bounds_witness :
  (∃ r, simulate (P:=host64) make_valid_config = Ok r) ∧
  ∀ state dt, length state = 2 + 2 →
    (∃ d, compute_derivatives (P:=host64) state make_valid_config = Ok d) ∧
    (∃ state', rk4_step (P:=host64) state dt make_valid_config = Ok state').
Proof.
  apply (accesses_in_bounds (P:=host64) make_valid_config);
    [reflexivity | sizes_ok | sizes_ok].
Defined.


Section Necessity.
Context `{P : Platform}.
Implicit Types (cfg : SimulationConfig).

(** ** Sizes that do not fit always lead out of bounds *)

Lemma bind_Ok_inv {A B : Type} (m : outcome A) (f : A → outcome B) b :
  m ≫= f = Ok b → ∃ a, m = Ok a ∧ f a = Ok b.
Proof. destruct m as [a| | |]; simpl; [eauto|done..]. Qed.

Lemma store_Ok_inv (v : list float) (i : N) x v' :
  store v i x = Ok v' → N.to_nat i < length v ∧ length v' = length v.
Proof.
  unfold store. case_decide; [|done]. intros [= <-].
  by rewrite length_insert.
Qed.

(** A loop that returned ran its body at every index. *)
Lemma for_from_Ok_inv {S : Type} (I : S → Prop) (Q : N → Prop) trips (i : N)
    (body : N → S → outcome S) s s' :
  (∀ j s s1, I s → body j s = Ok s1 → I s1 ∧ Q j) →
  I s → for_from trips i body s = Ok s' →
  I s' ∧ ∀ j, j < trips → Q (i + N.of_nat j)%N.
Proof.
  intros Hbody. revert i s. induction trips as [|t IH]; intros i s Hs Hrun.
  - simpl in Hrun. injection Hrun as <-. split; [done|]. intros; lia.
  - simpl in Hrun. apply bind_Ok_inv in Hrun as (s1 & Hb & Hrun).
    destruct (Hbody _ _ _ Hs Hb) as [Hs1 Hq].
    destruct (IH _ _ Hs1 Hrun) as [Hs' Hrest]. split; [done|].
    intros [|j] Hj.
    + by rewrite N.add_0_r.
    + replace (i + N.of_nat (Datatypes.S j))%N
        with (N.succ i + N.of_nat j)%N by lia.
      apply Hrest. lia.
Qed.

Lemma record_frame_Ok_inv cfg (frame : N) fv r :
  record_frame cfg frame fv = Ok r →
  length (masses r) = length (masses (fv_result fv)) ∧
  ∀ c, c < cups cfg →
    N.to_nat (size_add (size_mul (N.of_nat c) (n_frames cfg)) frame)
    < length (masses (fv_result fv)).
Proof.
  unfold record_frame. intros Hrun.
  apply bind_Ok_inv in Hrun as (ts & _ & Hrun).
  apply bind_Ok_inv in Hrun as (th & _ & Hrun).
  apply bind_Ok_inv in Hrun as (ths & _ & Hrun).
  apply bind_Ok_inv in Hrun as (ms & Hloop & [= <-]). simpl.
  apply (for_from_Ok_inv
    (λ m, length m = length (masses (fv_result fv)))
    (λ c, N.to_nat (size_add (size_mul c (n_frames cfg)) frame)
          < length (masses (fv_result fv)))) in Hloop as [Hlen Hq];
    [split; [done|]|..|done].
  - intros c Hc. apply (Hq c Hc).
  - intros c m m1 Hm Hb. unfold record_body in Hb.
    apply bind_Ok_inv in Hb as (x & _ & Hst).
    apply store_Ok_inv in Hst as [Hidx Hl]. split; [congruence|].
    by rewrite <- Hm.
Qed.

Lemma frame_loop_Ok_inv cfg dt trips (f : nat) fv fv' :
  (n_frames cfg < 2 ^ size_bits)%N → trips + f = frames cfg →
  frame_loop cfg dt trips (N.of_nat f) fv = Ok fv' →
  ∀ k c, f ≤ k < frames cfg → c < cups cfg →
    N.to_nat (size_add (size_mul (N.of_nat c) (n_frames cfg)) (N.of_nat k))
    < length (masses (fv_result fv)).
Proof.
  intros Hnf. revert f fv.
  induction trips as [|t IH]; intros f fv Hsum Hrun k c Hk Hc; [lia|].
  cbn [frame_loop] in Hrun.
  apply bind_Ok_inv in Hrun as (r & Hrec & Hrun).
  apply record_frame_Ok_inv in Hrec as [Hlen Hcol].
  destruct (decide (k = f)) as [->|Hne]; [by apply Hcol|].
  unfold frames in *. rewrite size_add_small in Hrun by lia.
  destruct (N.eqb_spec (N.of_nat f + 1) (n_frames cfg)) as [Hlast|Hmore];
    [lia|].
  apply bind_Ok_inv in Hrun as (sc & _ & Hrun).
  replace (N.succ (N.of_nat f)) with (N.of_nat (S f)) in Hrun by lia.
  rewrite <- Hlen.
  apply (IH (S f) _ ltac:(lia) Hrun k c); [lia|done].
Qed.

Lemma simulate_Ok_sizes_fit cfg r :
  (n_cups cfg < 2 ^ size_bits)%N → (n_frames cfg < 2 ^ size_bits)%N →
  simulate cfg = Ok r → sizes_fit cfg ∧ vectors_fit cfg.
Proof.
  intros Hnc Hnf Hrun. unfold simulate in Hrun.
  apply bind_Ok_inv in Hrun as ([] & Hacc & Hrun).
  pose proof (accepted_inv cfg Hacc) as (Hc & Hf & _).
  apply bind_Ok_inv in Hrun as (state0 & Hv0 & Hrun).
  apply bind_Ok_inv in Hrun as (state & Hst & Hrun).
  apply bind_Ok_inv in Hrun as (ts & Hv1 & Hrun).
  apply bind_Ok_inv in Hrun as (ths & Hv2 & Hrun).
  apply bind_Ok_inv in Hrun as (ms & Hv3 & Hrun).
  apply bind_Ok_inv in Hrun as (fv & Hloop & _).
  apply vector_of_zeros_Ok_inv in Hv0 as [Hm0 ->].
  apply vector_of_zeros_Ok_inv in Hv1 as [Hm1 ->].
  apply vector_of_zeros_Ok_inv in Hv3 as [Hm3 ->].
  apply store_Ok_inv in Hst as [Hst _]. rewrite length_replicate in Hst.
  assert (Hfit1 : (n_cups cfg + 2 < 2 ^ size_bits)%N).
  { destruct (N.lt_ge_cases (n_cups cfg + 2) (2 ^ size_bits)) as [|Hge];
      [done|]. exfalso. unfold size_add in Hst. unfold cups in Hc.
    rewrite <- (N.mod_unique (n_cups cfg + 2) (2 ^ size_bits) 1
                  (n_cups cfg + 2 - 2 ^ size_bits)) in Hst; lia. }
  assert (Hfit2 : (n_cups cfg * n_frames cfg < 2 ^ size_bits)%N).
  { destruct (N.lt_ge_cases (n_cups cfg * n_frames cfg) (2 ^ size_bits))
      as [|Hge]; [done|]. exfalso.
    assert (Htrips : N.to_nat (n_frames cfg) + 0 = frames cfg)
      by (unfold frames; lia).
    pose proof (frame_loop_Ok_inv cfg _ _ 0 _ _ Hnf Htrips Hloop) as Hall.
    cbn [fv_result masses] in Hall. rewrite length_replicate in Hall.
    clear Hm3.
    set (M := size_mul (n_cups cfg) (n_frames cfg)) in *.
    assert (HM : (M < 2 ^ size_bits)%N).
    { unfold M, size_mul. apply N.mod_lt. by apply N.pow_nonzero. }
    assert (Hnf0 : n_frames cfg ≠ 0%N) by (unfold frames in Hf; lia).
    pose proof (N.div_mod M (n_frames cfg) Hnf0) as Hdm.
    pose proof (N.mod_lt M (n_frames cfg) Hnf0) as Hmod.
    set (q := (M / n_frames cfg)%N) in *.
    set (k := (M mod n_frames cfg)%N) in *.
    clearbody q k M.
    assert (Hq : (q < n_cups cfg)%N).
    { destruct (N.lt_ge_cases q (n_cups cfg)) as [|Hq]; [done|]. exfalso.
      pose proof (N.mul_le_mono_l _ _ (n_frames cfg) Hq) as Hmul.
      rewrite (N.mul_comm (n_frames cfg) (n_cups cfg)) in Hmul. lia. }
    specialize (Hall (N.to_nat k) (N.to_nat q)).
    rewrite !N2Nat.id in Hall.
    rewrite size_mul_small in Hall by (rewrite N.mul_comm; lia).
    rewrite (N.mul_comm q) in Hall.
    rewrite size_add_small in Hall by lia.
    rewrite <- Hdm in Hall. unfold frames, cups in Hall.
    enough (N.to_nat M < N.to_nat M) by lia. apply Hall; lia. }
  split; [done|].
  rewrite size_add_small in Hm0 by done.
  rewrite size_mul_small in Hm3 by done. done.
Qed.

(** Sizes that fit [std::size_t] but not [max_size()]: one of the four
    vectors cannot be created. *)
Lemma simulate_length_error cfg :
  accepted cfg → sizes_fit cfg → ¬ vectors_fit cfg →
  simulate cfg = LengthError.
Proof.
  intros Hacc [Hfit1 Hfit2] Hvec.
  pose proof (accepted_inv cfg Hacc) as (Hc & Hf & _). unfold cups in Hc.
  unfold simulate. rewrite Hacc. cbn [mbind outcome_bind]. cbv zeta.
  rewrite size_add_small, size_mul_small by done.
  destruct (N.lt_ge_cases max_size (n_cups cfg + 2)) as [H1|H1].
  { by rewrite (vector_of_zeros_too_long (n_cups cfg + 2)). }
  rewrite (vector_of_zeros_fit (n_cups cfg + 2)) by done.
  cbn [mbind outcome_bind].
  rewrite (store_of_nat _ 1) by (rewrite length_replicate; lia).
  cbn [mbind outcome_bind].
  destruct (N.lt_ge_cases max_size (n_frames cfg)) as [H2|H2].
  { by rewrite (vector_of_zeros_too_long (n_frames cfg)). }
  rewrite !(vector_of_zeros_fit (n_frames cfg)) by done.
  cbn [mbind outcome_bind].
  destruct (N.lt_ge_cases max_size (n_cups cfg * n_frames cfg)) as [H3|H3].
  { by rewrite (vector_of_zeros_too_long (n_cups cfg * n_frames cfg)). }
  exfalso. apply Hvec. done.
Qed.

End Necessity.

(** X4. For every configuration accepted by validation (its fields being
    [std::size_t] values), [simulate] returns a result if and only if
    [n_cups + 2] and [n_cups * n_frames] fit [std::size_t] and none of its
    vectors exceeds [max_size()].  When the sizes fit [std::size_t] but a
    vector would exceed [max_size()], it throws [std::length_error]; when a
    size wraps around, it never returns: it accesses a vector out of
    bounds or throws [std::length_error]. *)
Theorem simulate_returns_iff_sizes_fit `{P : Platform} (cfg : SimulationConfig) :
  validate_config cfg = Ok () →
  (n_cups cfg < 2 ^ size_bits)%N → (n_frames cfg < 2 ^ size_bits)%N →
  ((∃ r, simulate cfg = Ok r) ↔ sizes_fit cfg ∧ vectors_fit cfg) ∧
  (sizes_fit cfg → ¬ vectors_fit cfg → simulate cfg = LengthError) ∧
  (¬ sizes_fit cfg →
   simulate cfg = Undefined ∨ simulate cfg = LengthError).
Proof.
  intros Hacc Hnc Hnf.
  assert (Hiff : (∃ r, simulate cfg = Ok r) ↔ sizes_fit cfg ∧ vectors_fit cfg).
  { split.
    - intros [r Hr]. by eapply simulate_Ok_sizes_fit.
    - intros [Hfit Hvec].
      destruct (simulate_spec cfg Hacc Hfit Hvec) as (r & Hr & _). eauto. }
  split; [done|]. split; [by apply simulate_length_error|].
  intros Hfit.
  destruct (simulate cfg) as [r|what| |] eqn:Hsim; [| |by right|by left].
  - exfalso. apply Hfit. apply Hiff. eauto.
  - apply simulate_throws_inv in Hsim. unfold accepted in *. congruence.
Qed.

Lemma simulate_returns_iff_sizes_fit_witness :
  ((∃ r, simulate (P:=host64) too_long_config = Ok r)
   ↔ sizes_fit (P:=host64) too_long_config
     ∧ vectors_fit (P:=host64) too_long_config) ∧
  (sizes_fit (P:=host64) too_long_config →
   ¬ vectors_fit (P:=host64) too_long_config →
   simulate (P:=host64) too_long_config = LengthError) ∧
  (¬ sizes_fit (P:=host64) too_long_config →
   simulate (P:=host64) too_long_config = Undefined
   ∨ simulate (P:=host64) too_long_config = LengthError).
Proof.
  apply (simulate_returns_iff_sizes_fit (P:=host64) too_long_config);
    vm_compute; reflexivity.
Defined.


(** * The Python binding *)

Section BindingFacts.
Context `{P : Platform} `{Py : Python}.
Implicit Types (cfg : SimulationConfig) (data : gmap string py_object).

Lemma require_holds_size data key n :
  holds_size data key n → require data key ≫= cast_size = Ok n.
Proof. intros (v & Hv & Hc). unfold require. by rewrite Hv. Qed.

Lemma require_holds_double data key x :
  holds_double data key x → require data key ≫= cast_double = Ok x.
Proof. intros (v & Hv & Hc). unfold require. by rewrite Hv. Qed.

Lemma require_size_inv data key n :
  require data key ≫= cast_size = Ok n → holds_size data key n.
Proof.
  unfold require, holds_size. destruct (data !! key) as [v|]; [|done].
  simpl. eauto.
Qed.

Lemma require_double_inv data key x :
  require data key ≫= cast_double = Ok x → holds_double data key x.
Proof.
  unfold require, holds_double. destruct (data !! key) as [v|]; [|done].
  simpl. eauto.
Qed.

Lemma require_converts_size data key :
  converts data key true → ∃ n, require data key ≫= cast_size = Ok n.
Proof.
  intros (v & Hv & n & Hn). exists n. unfold require. by rewrite Hv.
Qed.

Lemma require_converts_double data key :
  converts data key false → ∃ x, require data key ≫= cast_double = Ok x.
Proof.
  intros (v & Hv & x & Hx). exists x. unfold require. by rewrite Hv.
Qed.

Lemma require_missing {A : Type} data key (cast : py_object → outcome A) :
  data !! key = None →
  require data key ≫= cast = Throw ("Missing key: " +:+ key).
Proof. intros H. unfold require. by rewrite H. Qed.

(** The four range checks of the binding, on a configuration whose fields
    have been read. *)
Lemma make_config_from_dict_checks data cfg :
  dict_holds data cfg →
  make_config_from_dict data (steps_per_frame cfg)
  = if (n_cups cfg <? 1)%N then Throw "N_CUPS must be positive"
    else if (n_frames cfg <? 2)%N then Throw "N_FRAMES must be at least 2"
    else if (t_end cfg <=? t_start cfg)%float
         then Throw "T_END must be greater than T_START"
    else if (steps_per_frame cfg <? 1)%N
         then Throw "steps_per_frame must be positive"
    else Ok cfg.
Proof.
  intros (H1 & H2 & H3 & H4 & H5 & H6 & H7 & H8 & H9 & H10 & H11).
  unfold make_config_from_dict.
  rewrite (require_holds_size _ _ _ H1). cbn [mbind outcome_bind].
  rewrite (require_holds_double _ _ _ H2). cbn [mbind outcome_bind].
  rewrite (require_holds_double _ _ _ H3). cbn [mbind outcome_bind].
  rewrite (require_holds_double _ _ _ H4). cbn [mbind outcome_bind].
  rewrite (require_holds_double _ _ _ H5). cbn [mbind outcome_bind].
  rewrite (require_holds_double _ _ _ H6). cbn [mbind outcome_bind].
  rewrite (require_holds_double _ _ _ H7). cbn [mbind outcome_bind].
  rewrite (require_holds_double _ _ _ H8). cbn [mbind outcome_bind].
  rewrite (require_holds_double _ _ _ H9). cbn [mbind outcome_bind].
  rewrite (require_holds_double _ _ _ H10). cbn [mbind outcome_bind].
  rewrite (require_holds_size _ _ _ H11). cbn [mbind outcome_bind].
  cbv zeta. simpl. by destruct cfg.
Qed.

(** A configuration the binding returns was read from the dictionary and
    passed the four checks. *)
Lemma make_config_from_dict_Ok_inv data steps cfg :
  make_config_from_dict data steps = Ok cfg →
  dict_holds data cfg ∧ steps_per_frame cfg = steps ∧
  (n_cups cfg <? 1)%N = false ∧ (n_frames cfg <? 2)%N = false ∧
  (t_end cfg <=? t_start cfg)%float = false ∧
  (steps_per_frame cfg <? 1)%N = false.
Proof.
  unfold make_config_from_dict. intros H.
  apply bind_Ok_inv in H as (v1 & H1 & H).
  apply bind_Ok_inv in H as (v2 & H2 & H).
  apply bind_Ok_inv in H as (v3 & H3 & H).
  apply bind_Ok_inv in H as (v4 & H4 & H).
  apply bind_Ok_inv in H as (v5 & H5 & H).
  apply bind_Ok_inv in H as (v6 & H6 & H).
  apply bind_Ok_inv in H as (v7 & H7 & H).
  apply bind_Ok_inv in H as (v8 & H8 & H).
  apply bind_Ok_inv in H as (v9 & H9 & H).
  apply bind_Ok_inv in H as (v10 & H10 & H).
  apply bind_Ok_inv in H as (v11 & H11 & H).
  cbv zeta in H. simpl in H.
  destruct (v1 <? 1)%N eqn:E1; [done|].
  destruct (v11 <? 2)%N eqn:E2; [done|].
  destruct (v10 <=? v9)%float eqn:E3; [done|].
  destruct (steps <? 1)%N eqn:E4; [done|].
  injection H as <-. simpl.
  apply require_size_inv in H1, H11.
  apply require_double_inv in H2, H3, H4, H5, H6, H7, H8, H9, H10.
  unfold dict_holds. simpl. done.
Qed.

Lemma validate_config_checks cfg :
  validate_config cfg = Ok () ↔
  (n_cups cfg <? 1)%N = false ∧ (n_frames cfg <? 2)%N = false ∧
  (t_end cfg <=? t_start cfg)%float = false ∧
  (steps_per_frame cfg <? 1)%N = false.
Proof.
  unfold validate_config.
  destruct (n_cups cfg <? 1)%N; [split; [done|by intros (?&?)]|].
  destruct (n_frames cfg <? 2)%N; [split; [done|by intros (?&?&?)]|].
  destruct (t_end cfg <=? t_start cfg)%float;
    [split; [done|by intros (?&?&?&?)]|].
  destruct (steps_per_frame cfg <? 1)%N;
    [split; [done|by intros (?&?&?&?)]|]. done.
Qed.

End BindingFacts.

(** One key of [make_config_from_dict]: either it is the missing one, or it
    is read and converted. *)
Ltac read_key data Hi Hmiss Hprev i p lem :=
  destruct (decide (i = p)) as [->|?];
  [simpl in Hi; injection Hi as <- <-; by rewrite (require_missing data _ _ Hmiss)|];
  let x := fresh "x" in let Hx := fresh "Hx" in
  destruct (lem data _ (Hprev p _ _ ltac:(lia) eq_refl)) as [x Hx];
  rewrite Hx; cbn [mbind outcome_bind]; clear Hx.

(** X5. A required key that is missing from the dictionary is reported by
    name, as [Missing key: <key>], provided the keys read before it are
    present and convert; the values are range-checked only after all
    eleven keys have been read, so a missing key wins over an invalid
    value. *)
Theorem missing_key_reported `{Py : Python} (data : gmap string py_object)
    (steps : N) (i : nat) (key : string) (to_size : bool) :
  required_keys !! i = Some (key, to_size) →
  data !! key = None →
  (∀ j key' to_size', j < i → required_keys !! j = Some (key', to_size') →
     converts data key' to_size') →
  make_config_from_dict data steps = Throw ("Missing key: " +:+ key).
Proof.
  intros Hi Hmiss Hprev. unfold make_config_from_dict.
  assert (Hlt : i < 11).
  { apply lookup_lt_Some in Hi. simpl in Hi. done. }
  read_key data Hi Hmiss Hprev i 0 require_converts_size.
  read_key data Hi Hmiss Hprev i 1 require_converts_double.
  read_key data Hi Hmiss Hprev i 2 require_converts_double.
  read_key data Hi Hmiss Hprev i 3 require_converts_double.
  read_key data Hi Hmiss Hprev i 4 require_converts_double.
  read_key data Hi Hmiss Hprev i 5 require_converts_double.
  read_key data Hi Hmiss Hprev i 6 require_converts_double.
  read_key data Hi Hmiss Hprev i 7 require_converts_double.
  read_key data Hi Hmiss Hprev i 8 require_converts_double.
  read_key data Hi Hmiss Hprev i 9 require_converts_double.
  read_key data Hi Hmiss Hprev i 10 require_converts_size.
  lia.
Qed.

Lemma missing_key_reported_witness :
  make_config_from_dict (Py:=python_ref 64)
    (<["N_CUPS" := PyInt 0]> (delete "G" valid_dict)) 4
  = Throw "Missing key: G".
Proof.
  apply (missing_key_reported (Py:=python_ref 64)
           (<["N_CUPS" := PyInt 0]> (delete "G" valid_dict)) 4 2 "G" false).
  - reflexivity.
  - vm_compute. reflexivity.
  - intros [|[|j]] key' to_size' Hj Hk; [| |lia];
      injection Hk as <- <-; eexists; (split; [vm_compute; reflexivity|]);
      eexists; vm_compute; reflexivity.
Defined.

(** X6. [make_config_from_dict] returns a configuration exactly when all
    eleven keys are present and convert, and the configuration so read,
    completed with the [steps_per_frame] argument, passes the engine's
    [validate_config]; the configuration returned is that one. *)
Theorem make_config_from_dict_returns `{Py : Python}
    (data : gmap string py_object) (steps : N) (cfg : SimulationConfig) :
  make_config_from_dict data steps = Ok cfg ↔
  dict_holds data cfg ∧ steps_per_frame cfg = steps ∧
  validate_config cfg = Ok ().
Proof.
  split.
  - intros H. apply make_config_from_dict_Ok_inv in H as (Hd & Hs & Hc).
    split; [done|]. split; [done|]. by apply validate_config_checks.
  - intros (Hd & <- & Hv).
    rewrite (make_config_from_dict_checks _ _ Hd).
    apply validate_config_checks in Hv as (-> & -> & -> & ->). done.
Qed.

(** X7. The binding repeats the engine's four range checks in the engine's
    order: on a dictionary that holds a configuration, the binding fails
    with its own message for a check exactly when [validate_config] fails
    with the engine's message for the same check, and it fails at all
    exactly when the configuration is invalid. *)
Theorem binding_checks_agree_with_engine `{Py : Python}
    (data : gmap string py_object) (cfg : SimulationConfig) :
  dict_holds data cfg →
  let result := make_config_from_dict data (steps_per_frame cfg) in
  (result = Throw "N_CUPS must be positive"
   ↔ validate_config cfg = Throw "n_cups must be positive") ∧
  (result = Throw "N_FRAMES must be at least 2"
   ↔ validate_config cfg = Throw "n_frames must be at least 2") ∧
  (result = Throw "T_END must be greater than T_START"
   ↔ validate_config cfg = Throw "t_end must be greater than t_start") ∧
  (result = Throw "steps_per_frame must be positive"
   ↔ validate_config cfg = Throw "steps_per_frame must be positive") ∧
  (throws result ↔ invalid_configuration cfg).
Proof.
  intros Hd result. unfold result.
  rewrite (make_config_from_dict_checks _ _ Hd).
  rewrite <- validate_config_throws. unfold validate_config, throws.
  destruct (n_cups cfg <? 1)%N;
    [split_and!; (split; [try done; eauto|try done; eauto])|].
  destruct (n_frames cfg <? 2)%N;
    [split_and!; (split; [try done; eauto|try done; eauto])|].
  destruct (t_end cfg <=? t_start cfg)%float;
    [split_and!; (split; [try done; eauto|try done; eauto])|].
  destruct (steps_per_frame cfg <? 1)%N;
    [split_and!; (split; [try done; eauto|try done; eauto])|].
  split_and!; (split; [try done|try done]); by intros [? ?].
Qed.

Lemma binding_checks_agree_with_engine_witness :
  let result := make_config_from_dict (Py:=python_ref 64) valid_dict
                  (steps_per_frame make_valid_config) in
  (result = Throw "N_CUPS must be positive"
   ↔ validate_config make_valid_config = Throw "n_cups must be positive") ∧
  (result = Throw "N_FRAMES must be at least 2"
   ↔ validate_config make_valid_config
     = Throw "n_frames must be at least 2") ∧
  (result = Throw "T_END must be greater than T_START"
   ↔ validate_config make_valid_config
     = Throw "t_end must be greater than t_start") ∧
  (result = Throw "steps_per_frame must be positive"
   ↔ validate_config make_valid_config
     = Throw "steps_per_frame must be positive") ∧
  (throws result ↔ invalid_configuration make_valid_config).
Proof.
  apply (binding_checks_agree_with_engine (Py:=python_ref 64)
           valid_dict make_valid_config).
  unfold dict_holds, holds_size, holds_double.
  split_and!; eexists; (split; [vm_compute; reflexivity|]);
    vm_compute; reflexivity.
Defined.

(** X8. Keys other than the eleven required ones are ignored: adding or
    replacing such a key changes nothing in the outcome of
    [make_config_from_dict]. *)
Theorem make_config_from_dict_ignores_other_keys `{Py : Python}
    (data : gmap string py_object) (steps : N) (key : string)
    (value : py_object) :
  key ∉ required_keys.*1 →
  make_config_from_dict (<[key := value]> data) steps
  = make_config_from_dict data steps.
Proof.
  intros Hkey. unfold make_config_from_dict, require.
  rewrite !lookup_insert_ne; [done|..];
    intros ->; apply Hkey; simpl; set_solver.
Qed.

Lemma make_config_from_dict_ignores_other_keys_witness :
  make_config_from_dict (Py:=python_ref 64)
    (<["COMMENT" := PyStr "chaotic"]> valid_dict) 2
  = make_config_from_dict (Py:=python_ref 64) valid_dict 2.
Proof.
  apply (make_config_from_dict_ignores_other_keys (Py:=python_ref 64)).
  vm_compute. intros H. repeat (inversion H as [|? ? ? H']; clear H; rename H' into H; subst).
Defined.


(** ** Results as numpy arrays *)

Lemma length_array_t (shape : list N) :
  length (nd_data (array_t shape)) = N.to_nat (foldr N.mul 1%N shape).
Proof. unfold array_t. simpl. by rewrite length_replicate. Qed.

Lemma std_copy_fills (src : list float) (shape : list N) :
  length src = N.to_nat (foldr N.mul 1%N shape) →
  std_copy src (array_t shape) = Ok (nd_filled shape src).
Proof.
  intros Hlen. unfold std_copy. rewrite length_array_t.
  rewrite decide_True by lia. unfold nd_filled. simpl. do 2 f_equal.
  rewrite drop_ge by (rewrite length_replicate; lia).
  by rewrite app_nil_r.
Qed.

Lemma std_copy_defined (src : list float) (dst : ndarray) :
  (∃ a, std_copy src dst = Ok a) ↔ length src ≤ length (nd_data dst).
Proof.
  unfold std_copy. case_decide; split; try done; eauto. by intros [? ?].
Qed.

Lemma std_copy_undefined (src : list float) (dst : ndarray) :
  std_copy src dst = Undefined ↔ length (nd_data dst) < length src.
Proof. unfold std_copy. case_decide; split; try done; lia. Qed.

Lemma std_copy_no_throw (src : list float) (dst : ndarray) what :
  std_copy src dst = Throw what → False.
Proof. unfold std_copy. by case_decide. Qed.

Lemma to_python_fills (result : SimulationResult) (n : N) :
  length (times result) = length (theta result) →
  length (masses result) = N.to_nat n * length (theta result) →
  to_python result n
  = Ok (nd_filled [N.of_nat (length (theta result))] (times result),
        nd_filled [N.of_nat (length (theta result))] (theta result),
        nd_filled [n; N.of_nat (length (theta result))] (masses result)).
Proof.
  intros Ht Hm. unfold to_python. cbv zeta.
  rewrite !std_copy_fills; [done|simpl; lia..].
Qed.

Lemma nd_item1_filled (n : N) (values : list float) (k : nat) x :
  length values = N.to_nat n → values !! k = Some x →
  nd_item1 (nd_filled [n] values) k = Some (Some x).
Proof.
  intros Hlen Hk. unfold nd_item1, nd_filled. simpl.
  apply lookup_lt_Some in Hk as Hlt. rewrite decide_True by lia.
  by rewrite list_lookup_fmap, Hk.
Qed.

Lemma nd_item2_filled (rows cols : N) (values : list float) (c k : nat) x :
  c < N.to_nat rows → k < N.to_nat cols →
  values !! (c * N.to_nat cols + k) = Some x →
  nd_item2 (nd_filled [rows; cols] values) c k = Some (Some x).
Proof.
  intros Hc Hk Hx. unfold nd_item2, nd_filled. simpl.
  rewrite decide_True by done. by rewrite list_lookup_fmap, Hx.
Qed.

(** X9. [to_python] copies a result whose three series are consistent
    ([times] as long as [theta], [masses] holding [n_cups] rows of that
    length) into fully written arrays of shapes [(n_frames)], [(n_frames)]
    and [(n_cups, n_frames)], where [n_frames] is the length of [theta].
    It checks nothing: it is defined exactly when neither [times] nor
    [masses] is longer than the array allocated for it, and writes past the
    end of a buffer otherwise. *)
Theorem to_python_contract (result : SimulationResult) (n_cups : N) :
  let n_frames := length (theta result) in
  (length (times result) = n_frames →
   length (masses result) = N.to_nat n_cups * n_frames →
   to_python result n_cups
   = Ok (nd_filled [N.of_nat n_frames] (times result),
         nd_filled [N.of_nat n_frames] (theta result),
         nd_filled [n_cups; N.of_nat n_frames] (masses result))) ∧
  ((∃ arrays, to_python result n_cups = Ok arrays) ↔
   length (times result) ≤ n_frames ∧
   length (masses result) ≤ N.to_nat n_cups * n_frames) ∧
  (to_python result n_cups = Undefined ↔
   n_frames < length (times result) ∨
   N.to_nat n_cups * n_frames < length (masses result)).
Proof.
  intros n_frames. split; [apply to_python_fills|].
  unfold to_python, std_copy. cbv zeta. rewrite !length_array_t.
  fold n_frames. simpl foldr.
  replace (N.to_nat (N.of_nat n_frames * 1)) with n_frames by lia.
  replace (N.to_nat (n_cups * (N.of_nat n_frames * 1)))
    with (N.to_nat n_cups * n_frames) by lia.
  destruct (decide (length (times result) ≤ n_frames)) as [Ht|Ht];
    cbn [mbind outcome_bind].
  - destruct (decide (n_frames ≤ n_frames)); [|lia]. cbn [mbind outcome_bind].
    destruct (decide (length (masses result) ≤ N.to_nat n_cups * n_frames))
      as [Hm|Hm]; cbn [mbind outcome_bind].
    + split; [split; [done|eauto]|]. split; [done|lia].
    + split; [split; [by intros [? ?]|lia]|]. split; [lia|done].
  - split; [split; [by intros [? ?]|lia]|]. split; [lia|done].
Qed.

Lemma to_python_contract_witness :
  to_python {| times := [0; 1]%float; theta := [0; 0.5]%float;
       masses := [0; 0; 0; 0]%float |}
    2
  = Ok (nd_filled [2%N] [0; 1]%float, nd_filled [2%N] [0; 0.5]%float,
        nd_filled [2%N; 2%N] [0; 0; 0; 0]%float).
Proof.
  apply (proj1 (to_python_contract
    {| times := [0; 1]%float; theta := [0; 0.5]%float;
       masses := [0; 0; 0; 0]%float |} 2));
    reflexivity.
Defined.

(** X10. For every configuration accepted by validation whose sizes fit
    [std::size_t] and [max_size()], [simulate_impl] returns three fully written arrays of
    shapes [(n_frames)], [(n_frames)] and [(n_cups, n_frames)]:
    [times[k]] is the running time at frame [k], [theta[k]] the wheel angle
    and [masses[c, k]] the mass of cup [c] in the state reached after
    [k * steps_per_frame] sub-steps. *)
Theorem simulate_impl_arrays `{P : Platform} (cfg : SimulationConfig) :
  validate_config cfg = Ok () → sizes_fit cfg → vectors_fit cfg →
  ∃ times_array theta_array masses_array,
    simulate_impl cfg = Ok (times_array, theta_array, masses_array) ∧
    nd_shape times_array = [n_frames cfg] ∧
    nd_shape theta_array = [n_frames cfg] ∧
    nd_shape masses_array = [n_cups cfg; n_frames cfg] ∧
    ∀ k, k < N.to_nat (n_frames cfg) →
      let state := Nat.iter (k * N.to_nat (steps_per_frame cfg))
                     (spec_rk4_step cfg (sub_dt cfg)) (initial_state cfg) in
      nd_item1 times_array k
      = Some (Some (Nat.iter (k * N.to_nat (steps_per_frame cfg))
                      (λ t, (t + sub_dt cfg)%float) (t_start cfg))) ∧
      (∃ angle, state !! 0 = Some angle ∧
         nd_item1 theta_array k = Some (Some angle)) ∧
      ∀ c, c < N.to_nat (n_cups cfg) →
        ∃ mass, state !! (2 + c) = Some mass ∧
          nd_item2 masses_array c k = Some (Some mass).
Proof.
  intros Hacc Hfit Hvec.
  destruct (simulate_spec cfg Hacc Hfit Hvec) as (r & Hr & Hrec).
  pose proof (rec_times_length _ _ _ Hrec) as Lt.
  pose proof (rec_theta_length _ _ _ Hrec) as Lth.
  pose proof (rec_masses_length _ _ _ Hrec) as Lm.
  unfold frames, cups in *.
  eexists _, _, _. split.
  { unfold simulate_impl. rewrite Hr. cbn [mbind outcome_bind].
    apply to_python_fills; [congruence|]. by rewrite Lth. }
  rewrite Lth, N2Nat.id. do 3 (split; [done|]).
  intros k Hk.
  set (state := Nat.iter (k * N.to_nat (steps_per_frame cfg))
                  (spec_rk4_step cfg (sub_dt cfg)) (initial_state cfg)).
  assert (Hlen : length state = N.to_nat (n_cups cfg) + 2).
  { apply (length_state_after cfg (k * substeps cfg)). }
  split_and!.
  - apply nd_item1_filled; [done|]. by apply (rec_times _ _ _ Hrec).
  - destruct (lookup_lt_is_Some_2 state 0) as [angle Ha]; [lia|].
    exists angle. split; [done|]. apply nd_item1_filled; [done|].
    rewrite (rec_theta _ _ _ Hrec) by done. done.
  - intros c Hc.
    destruct (lookup_lt_is_Some_2 state (2 + c)) as [mass Hm]; [lia|].
    exists mass. split; [done|]. apply nd_item2_filled; [done..|].
    rewrite (rec_masses _ _ _ Hrec) by done. done.
Qed.

Lemma simulate_impl_arrays_witness :
  ∃ times_array theta_array masses_array,
    simulate_impl (P:=host64) make_valid_config
    = Ok (times_array, theta_array, masses_array) ∧
    nd_shape times_array = [5%N] ∧
    nd_shape theta_array = [5%N] ∧
    nd_shape masses_array = [2%N; 5%N] ∧
    ∀ k, k < 5 →
      let state := Nat.iter (k * 2)
                     (spec_rk4_step (P:=host64) make_valid_config
                        (sub_dt (P:=host64) make_valid_config))
                     (initial_state make_valid_config) in
      nd_item1 times_array k
      = Some (Some (Nat.iter (k * 2)
                      (λ t, (t + sub_dt (P:=host64) make_valid_config)%float)
                      0%float)) ∧
      (∃ angle, state !! 0 = Some angle ∧
         nd_item1 theta_array k = Some (Some angle)) ∧
      ∀ c, c < 2 →
        ∃ mass, state !! (2 + c) = Some mass ∧
          nd_item2 masses_array c k = Some (Some mass).
Proof.
  apply (simulate_impl_arrays (P:=host64) make_valid_config);
    [reflexivity | sizes_ok | sizes_ok].
Defined.

Section EntryPoint.
Context `{P : Platform} `{Py : Python}.

Lemma simulate_impl_throws_inv (cfg : SimulationConfig) what :
  simulate_impl cfg = Throw what → validate_config cfg = Throw what.
Proof.
  unfold simulate_impl. intros H. apply simulate_throws_inv.
  destruct (simulate cfg) as [r|w| |] eqn:Hs; simpl in H;
    [|by injection H as ->|done..].
  exfalso. unfold to_python in H. cbv zeta in H.
  destruct (std_copy (times r) _) as [a1|w1| |] eqn:E1;
    cbn [mbind outcome_bind] in H;
    [|by apply std_copy_no_throw in E1|done..].
  destruct (std_copy (theta r) _) as [a2|w2| |] eqn:E2;
    cbn [mbind outcome_bind] in H;
    [|by apply std_copy_no_throw in E2|done..].
  destruct (std_copy (masses r) _) as [a3|w3| |] eqn:E3;
    cbn [mbind outcome_bind] in H;
    [done|by apply std_copy_no_throw in E3|done..].
Qed.

End EntryPoint.

(** X11. The Python function [wheely_cpp.simulate], with [steps_per_frame]
    defaulting to [4].  Every [std::invalid_argument] it raises is raised
    by [make_config_from_dict]: the engine's own validation never fails
    behind it.  Once the dictionary yields a configuration, the call
    returns the engine's three series as fully written arrays if the sizes
    [n_cups + 2] and [n_cups * n_frames] fit [std::size_t] and no vector
    exceeds [max_size()]; it raises [std::length_error] if the sizes fit
    [std::size_t] but a vector would exceed [max_size()]; and if a size
    wraps around it never returns: it is an out-of-bounds access or a
    [std::length_error]. *)
Theorem wheely_cpp_simulate_outcome `{P : Platform} `{Py : Python}
    (config : gmap string py_object) (steps_per_frame : option N) :
  (∀ what, wheely_cpp_simulate config steps_per_frame = Throw what ↔
     make_config_from_dict config (default 4%N steps_per_frame)
     = Throw what) ∧
  (∀ cfg,
     make_config_from_dict config (default 4%N steps_per_frame) = Ok cfg →
     (n_cups cfg < 2 ^ size_bits)%N → (n_frames cfg < 2 ^ size_bits)%N →
     (sizes_fit cfg → vectors_fit cfg →
      ∃ r, simulate cfg = Ok r ∧
        wheely_cpp_simulate config steps_per_frame
        = Ok (nd_filled [n_frames cfg] (times r),
              nd_filled [n_frames cfg] (theta r),
              nd_filled [n_cups cfg; n_frames cfg] (masses r))) ∧
     (sizes_fit cfg → ¬ vectors_fit cfg →
      wheely_cpp_simulate config steps_per_frame = LengthError) ∧
     (¬ sizes_fit cfg →
      wheely_cpp_simulate config steps_per_frame = Undefined ∨
      wheely_cpp_simulate config steps_per_frame = LengthError)).
Proof.
  unfold wheely_cpp_simulate. split.
  - intros what.
    destruct (make_config_from_dict config (default 4%N steps_per_frame))
      as [cfg|w| |] eqn:Hmk; cbn [mbind outcome_bind];
      [|split; congruence..].
    split; [|done]. intros H. apply simulate_impl_throws_inv in H.
    apply make_config_from_dict_Ok_inv in Hmk as (_ & _ & Hc).
    apply validate_config_checks in Hc. congruence.
  - intros cfg Hmk Hnc Hnf. rewrite Hmk. cbn [mbind outcome_bind].
    pose proof (make_config_from_dict_Ok_inv _ _ _ Hmk) as (_ & _ & Hc).
    apply validate_config_checks in Hc. split_and!.
    + intros Hfit Hvec.
      destruct (simulate_spec cfg Hc Hfit Hvec) as (r & Hr & Hrec).
      exists r. split; [done|]. unfold simulate_impl. rewrite Hr.
      cbn [mbind outcome_bind].
      pose proof (rec_times_length _ _ _ Hrec) as Lt.
      pose proof (rec_theta_length _ _ _ Hrec) as Lth.
      pose proof (rec_masses_length _ _ _ Hrec) as Lm.
      unfold frames, cups in *.
      rewrite to_python_fills; [|congruence|by rewrite Lth].
      by rewrite Lth, N2Nat.id.
    + intros Hfit Hvec. unfold simulate_impl.
      by rewrite (simulate_length_error cfg Hc Hfit Hvec).
    + intros Hfit. unfold simulate_impl.
      destruct (simulate cfg) as [r|w| |] eqn:Hs; cbn [mbind outcome_bind].
      * exfalso. apply Hfit. by eapply simulate_Ok_sizes_fit.
      * apply simulate_throws_inv in Hs. congruence.
      * by right.
      * by left.
Qed.

Lemma wheely_cpp_simulate_outcome_witness :
  (sizes_fit (P:=host64) valid_dict_config →
   vectors_fit (P:=host64) valid_dict_config →
   ∃ r, simulate (P:=host64) valid_dict_config
        = Ok r ∧
     wheely_cpp_simulate (P:=host64) (Py:=python_ref 64) valid_dict None
     = Ok (nd_filled [5%N] (times r), nd_filled [5%N] (theta r),
           nd_filled [2%N; 5%N] (masses r))) ∧
  (sizes_fit (P:=host64) valid_dict_config →
   ¬ vectors_fit (P:=host64) valid_dict_config →
   wheely_cpp_simulate (P:=host64) (Py:=python_ref 64) valid_dict None
   = LengthError) ∧
  (¬ sizes_fit (P:=host64) valid_dict_config →
   wheely_cpp_simulate (P:=host64) (Py:=python_ref 64) valid_dict None
   = Undefined ∨
   wheely_cpp_simulate (P:=host64) (Py:=python_ref 64) valid_dict None
   = LengthError).
Proof.
  apply (proj2 (wheely_cpp_simulate_outcome (P:=host64) (Py:=python_ref 64)
                  valid_dict None)
           valid_dict_config);
    vm_compute; reflexivity.
Defined.


(** * Further behaviour of the engine *)

(** ** NaN in binary64 arithmetic *)

Lemma isnan_eq x : isnan x = true → x = nan.
Proof.
  unfold isnan. intros H. apply Prim2SF_inj.
  destruct (Prim2SF x); try discriminate. reflexivity.
Qed.

Lemma leb_nan_l x : (nan <=? x)%float = false.
Proof.
  rewrite leb_spec. change (Prim2SF nan) with S754_nan.
  by destruct (Prim2SF x) as [[|]|[|]| |[|] ? ?].
Qed.

Lemma leb_nan_r x : (x <=? nan)%float = false.
Proof.
  rewrite leb_spec. change (Prim2SF nan) with S754_nan.
  by destruct (Prim2SF x) as [[|]|[|]| |[|] ? ?].
Qed.

Lemma add_nan_r x : (x + nan)%float = nan.
Proof.
  apply Prim2SF_inj. rewrite add_spec. change (Prim2SF nan) with S754_nan.
  by destruct (Prim2SF x) as [[|]|[|]| |[|] ? ?].
Qed.

Lemma sub_nan_l x : (nan - x)%float = nan.
Proof.
  apply Prim2SF_inj. rewrite sub_spec. change (Prim2SF nan) with S754_nan.
  by destruct (Prim2SF x) as [[|]|[|]| |[|] ? ?].
Qed.

Lemma sub_nan_r x : (x - nan)%float = nan.
Proof.
  apply Prim2SF_inj. rewrite sub_spec. change (Prim2SF nan) with S754_nan.
  by destruct (Prim2SF x) as [[|]|[|]| |[|] ? ?].
Qed.

Lemma mul_nan_l x : (nan * x)%float = nan.
Proof.
  apply Prim2SF_inj. rewrite mul_spec. change (Prim2SF nan) with S754_nan.
  by destruct (Prim2SF x) as [[|]|[|]| |[|] ? ?].
Qed.

Lemma div_nan_l x : (nan / x)%float = nan.
Proof.
  apply Prim2SF_inj. rewrite div_spec. change (Prim2SF nan) with S754_nan.
  by destruct (Prim2SF x) as [[|]|[|]| |[|] ? ?].
Qed.

Section NanSteps.
Context `{P : Platform}.
Implicit Types (cfg : SimulationConfig).

Lemma rk4_combine_nan state k1 k2 k3 k4 :
  length k1 = length state → length k2 = length state →
  length k3 = length state → length k4 = length state →
  rk4_combine nan state k1 k2 k3 k4 = replicate (length state) nan.
Proof.
  revert k1 k2 k3 k4.
  induction state as [|s state IH]; intros [|a k1] [|b k2] [|c k3] [|d k4];
    simpl; intros; try lia; [done|].
  rewrite mul_nan_l, add_nan_r. f_equal. apply IH; lia.
Qed.

(** A sub-step of size NaN turns every component of the state into NaN. *)
Lemma spec_rk4_step_nan cfg state :
  2 ≤ length state →
  spec_rk4_step cfg nan state = replicate (length state) nan.
Proof.
  intros Hlen. unfold spec_rk4_step. cbv zeta.
  assert (Hd : ∀ st, length st = length state →
    length (spec_derivatives cfg st) = length state).
  { intros st Hst. rewrite length_spec_derivatives; lia. }
  rewrite (div_nan_l 6.0).
  apply rk4_combine_nan; repeat (apply Hd || apply length_axpy); done.
Qed.

Lemma sub_dt_nan cfg :
  isnan (t_start cfg) = true ∨ isnan (t_end cfg) = true → sub_dt cfg = nan.
Proof.
  intros H. unfold sub_dt, frame_dt.
  assert ((t_end cfg - t_start cfg)%float = nan) as ->.
  { destruct H as [H|H]; apply isnan_eq in H; rewrite H;
      [apply sub_nan_r|apply sub_nan_l]. }
  by rewrite !div_nan_l.
Qed.

Lemma state_after_nan cfg j :
  sub_dt cfg = nan →
  state_after cfg (S j) = replicate (cups cfg + 2) nan.
Proof.
  intros Hdt. unfold state_after. rewrite Nat.iter_succ.
  fold (state_after cfg j). rewrite Hdt, spec_rk4_step_nan.
  - by rewrite length_state_after.
  - rewrite length_state_after. lia.
Qed.

Lemma time_after_nan cfg j : sub_dt cfg = nan → time_after cfg (S j) = nan.
Proof.
  intros Hdt. unfold time_after. rewrite Nat.iter_succ, Hdt.
  apply add_nan_r.
Qed.

(** ** A wheel at rest *)

(** With no inflow, a dry wheel that does not turn is a fixed point of the
    sub-step, whatever the damping is. *)
Lemma spec_rk4_step_at_rest cfg dt :
  isfinite (damping cfg) = true →
  is_zero (inflow_rate cfg) = true → isfinite (leak_rate cfg) = true →
  isfinite (g cfg) = true → isfinite (radius cfg) = true →
  nonzero_number (inertia cfg) = true →
  isfinite dt = true →
  sines_finite cfg 0 →
  spec_rk4_step cfg dt (0 :: 0 :: replicate (cups cfg) 0)%float
  = (0 :: 0 :: replicate (cups cfg) 0)%float.
Proof.
  intros Hdamp Hin Hleak Hg Hr Hi Hdt Hsin.
  pose proof (half_finite dt Hdt) as H2. rewrite half_mul_div in H2.
  pose proof (sixth_finite dt Hdt) as H6.
  unfold spec_rk4_step. cbv zeta.
  assert (Hd : ∃ d zs,
    spec_derivatives cfg (0 :: 0 :: replicate (cups cfg) 0)%float
    = 0%float :: d :: zs ∧ is_zero d = true ∧
    length zs = cups cfg ∧ Forall (λ z, is_zero z = true) zs).
  { eexists _, _. split; [done|]. split; [|split].
    - rewrite torque_of_empty by done.
      apply div_zero_number; [|done].
      apply add_zero_zero; [|done].
      apply mul_finite_zero; [by apply opp_finite|done].
    - by rewrite length_imap, length_replicate.
    - by apply rates_of_empty. }
  assert (Hkeep : ∀ h d, isfinite h = true → is_zero d = true →
    (0 + h * d)%float = 0%float).
  { intros h d Hh Hz. apply zero_add_zero. by apply mul_finite_zero. }
  destruct Hd as (d & zs & E & Z & L & F). rewrite E.
  do 3 (rewrite ?axpy_empty by done; rewrite ?Hkeep by done; rewrite ?E).
  rewrite rk4_combine_empty by done.
  rewrite !Hkeep; try done;
    repeat apply add_zero_zero; try done; by apply mul_finite_zero.
Qed.

Lemma state_after_at_rest cfg j :
  omega0 cfg = 0%float →
  isfinite (damping cfg) = true →
  is_zero (inflow_rate cfg) = true → isfinite (leak_rate cfg) = true →
  isfinite (g cfg) = true → isfinite (radius cfg) = true →
  nonzero_number (inertia cfg) = true →
  isfinite (sub_dt cfg) = true →
  sines_finite cfg 0 →
  state_after cfg j = (0 :: 0 :: replicate (cups cfg) 0)%float.
Proof.
  intros Hom Hdamp Hin Hleak Hg Hr Hi Hdt Hsin.
  induction j as [|j IH].
  - unfold state_after, initial_state. simpl. by rewrite Hom.
  - unfold state_after in *. rewrite Nat.iter_succ, IH.
    by apply spec_rk4_step_at_rest.
Qed.

End NanSteps.

(** X12. With the inflow closed ([inflow_rate = 0]), any finite
    [leak_rate] and a finite sub-step size, every cup stays empty: every
    entry of [masses] is exactly [+0.0], whatever the wheel does (for an
    accepted configuration whose sizes fit [std::size_t] and
    [max_size()]). *)
Theorem masses_stay_zero_without_inflow `{P : Platform}
    (cfg : SimulationConfig) :
  validate_config cfg = Ok () → sizes_fit cfg → vectors_fit cfg →
  is_zero (inflow_rate cfg) = true → isfinite (leak_rate cfg) = true →
  isfinite (sub_dt cfg) = true →
  ∃ r, simulate cfg = Ok r ∧
    length (masses r) = N.to_nat (n_cups cfg) * N.to_nat (n_frames cfg) ∧
    ∀ i m, masses r !! i = Some m → m = 0%float.
Proof.
  intros Hacc Hfit Hvec Hin Hleak Hdt.
  destruct (simulate_spec cfg Hacc Hfit Hvec) as (r & Hr & Hrec).
  exists r. split; [done|]. split; [apply Hrec|].
  intros idx x Hx.
  pose proof (lookup_lt_Some _ _ _ Hx) as Hidx.
  rewrite (rec_masses_length _ _ _ Hrec) in Hidx.
  destruct (table_index cfg idx Hidx) as (c & k & Hc & Hk & ->).
  rewrite (rec_masses _ _ _ Hrec) in Hx by done.
  destruct (state_after_empty cfg (k * substeps cfg) Hin Hleak Hdt)
    as (th & om & Hst).
  rewrite Hst in Hx. simpl in Hx.
  apply lookup_replicate in Hx as [-> _]. done.
Qed.

Lemma masses_stay_zero_without_inflow_witness :
  ∃ r, simulate (P:=host64) dry_config = Ok r ∧
    length (masses r) = 2 * 5 ∧
    ∀ i m, masses r !! i = Some m → m = 0%float.
Proof.
  apply (masses_stay_zero_without_inflow (P:=host64) dry_config);
    [reflexivity | sizes_ok | sizes_ok | reflexivity..].
Defined.

(** X13. Validation does not reject a NaN time bound: the comparison
    [t_end <= t_start] is false when either side is NaN, so such a
    configuration is accepted (the counts being valid), and then, when
    its sizes fit [std::size_t] and [max_size()], every sample after frame
    0 is NaN: the times, the angles and all the masses. *)
Theorem nan_time_bounds_pass_validation `{P : Platform}
    (cfg : SimulationConfig) :
  (1 ≤ n_cups cfg)%N → (2 ≤ n_frames cfg)%N → (1 ≤ steps_per_frame cfg)%N →
  isnan (t_start cfg) = true ∨ isnan (t_end cfg) = true →
  validate_config cfg = Ok () ∧
  (sizes_fit cfg → vectors_fit cfg →
   ∃ r, simulate cfg = Ok r ∧
     ∀ k, 1 ≤ k < N.to_nat (n_frames cfg) →
       times r !! k = Some nan ∧ theta r !! k = Some nan ∧
       ∀ c, c < N.to_nat (n_cups cfg) →
         masses r !! (c * N.to_nat (n_frames cfg) + k) = Some nan).
Proof.
  intros Hc Hf Hs Hnan.
  assert (Hacc : validate_config cfg = Ok ()).
  { apply validate_config_checks. split_and!; try (apply N.ltb_ge; lia).
    destruct Hnan as [H|H]; apply isnan_eq in H; rewrite H;
      [apply leb_nan_r|apply leb_nan_l]. }
  split; [done|]. intros Hfit Hvec.
  destruct (simulate_spec cfg Hacc Hfit Hvec) as (r & Hr & Hrec).
  exists r. split; [done|]. intros k [Hk1 Hk2].
  pose proof (sub_dt_nan cfg Hnan) as Hdt.
  assert (Hj : ∃ j, k * substeps cfg = S j).
  { unfold substeps. exists (k * N.to_nat (steps_per_frame cfg) - 1).
    assert (1 * 1 ≤ k * N.to_nat (steps_per_frame cfg))
      by (apply Nat.mul_le_mono; lia). lia. }
  destruct Hj as [j Hj]. split_and!.
  - rewrite (rec_times _ _ _ Hrec) by done.
    by rewrite Hj, time_after_nan.
  - rewrite (rec_theta _ _ _ Hrec) by done.
    rewrite Hj, state_after_nan by done.
    apply lookup_replicate. split; [done|lia].
  - intros c Hcup. rewrite (rec_masses _ _ _ Hrec) by done.
    rewrite Hj, state_after_nan by done.
    apply lookup_replicate. split; [done|]. unfold cups. lia.
Qed.

Lemma nan_time_bounds_pass_validation_witness :
  validate_config nan_end_config = Ok () ∧
  (sizes_fit (P:=host64) nan_end_config →
   vectors_fit (P:=host64) nan_end_config →
   ∃ r, simulate (P:=host64) nan_end_config = Ok r ∧
     ∀ k, 1 ≤ k < 5 →
       times r !! k = Some nan ∧ theta r !! k = Some nan ∧
       ∀ c, c < 2 → masses r !! (c * 5 + k) = Some nan).
Proof.
  apply (nan_time_bounds_pass_validation (P:=host64) nan_end_config);
    [simpl; lia | simpl; lia | simpl; lia | right; reflexivity].
Defined.

(** X14. A dry wheel at rest stays at rest: with [omega0 = 0] and the
    inflow closed, every recorded angle is exactly [+0.0] and every mass
    is [+0.0], for any finite damping, gravity, radius and leak rate, a
    nonzero inertia, a finite sub-step and finite sines at the cup angles
    of the resting wheel (the configuration being accepted, with sizes
    that fit [std::size_t] and [max_size()]). *)
Theorem wheel_at_rest_stays_at_rest `{P : Platform} (cfg : SimulationConfig) :
  validate_config cfg = Ok () → sizes_fit cfg → vectors_fit cfg →
  omega0 cfg = 0%float →
  isfinite (damping cfg) = true →
  is_zero (inflow_rate cfg) = true → isfinite (leak_rate cfg) = true →
  isfinite (g cfg) = true → isfinite (radius cfg) = true →
  nonzero_number (inertia cfg) = true →
  isfinite (sub_dt cfg) = true →
  sines_finite cfg 0 →
  ∃ r, simulate cfg = Ok r ∧
    theta r = replicate (N.to_nat (n_frames cfg)) 0%float ∧
    masses r
    = replicate (N.to_nat (n_cups cfg) * N.to_nat (n_frames cfg)) 0%float.
Proof.
  intros Hacc Hfit Hvec Hom Hdamp Hin Hleak Hg Hr Hi Hdt Hsin.
  destruct (simulate_spec cfg Hacc Hfit Hvec) as (r & Hrun & Hrec).
  exists r. split; [done|].
  assert (Hst : ∀ j, state_after cfg j
                     = (0 :: 0 :: replicate (cups cfg) 0)%float)
    by (intros j; by apply state_after_at_rest).
  split.
  - apply list_eq. intros k.
    destruct (decide (k < frames cfg)) as [Hk|Hk].
    + rewrite (rec_theta _ _ _ Hrec) by done. rewrite Hst. simpl.
      symmetry. apply lookup_replicate. done.
    + rewrite !lookup_ge_None_2; [done|..].
      * rewrite length_replicate. unfold frames in Hk. lia.
      * rewrite (rec_theta_length _ _ _ Hrec). lia.
  - apply list_eq. intros idx.
    destruct (decide (idx < cups cfg * frames cfg)) as [Hidx|Hidx].
    + destruct (table_index cfg idx Hidx) as (c & k & Hc & Hk & ->).
      rewrite (rec_masses _ _ _ Hrec) by done. rewrite Hst. simpl.
      rewrite (proj2 (lookup_replicate _ _ _ _) (conj eq_refl Hc)).
      symmetry. apply lookup_replicate. done.
    + rewrite !lookup_ge_None_2; [done|..].
      * rewrite length_replicate. unfold cups, frames in Hidx. lia.
      * rewrite (rec_masses_length _ _ _ Hrec). lia.
Qed.

Lemma wheel_at_rest_stays_at_rest_witness :
  ∃ r, simulate (P:=host64) dry_config = Ok r ∧
    theta r = replicate 5 0%float ∧ masses r = replicate (2 * 5) 0%float.
Proof.
  apply (wheel_at_rest_stays_at_rest (P:=host64) dry_config);
    try reflexivity.
  - sizes_ok.
  - sizes_ok.
  - intros i Hi. apply host64_sin_finite.
    destruct i as [|[|i]]; [vm_compute; reflexivity..|].
    unfold cups in Hi. simpl in Hi. lia.
Defined.

(** X15. The timestamps depend on the time grid only: two accepted
    configurations (sizes fitting [std::size_t] and [max_size()]) that
    agree on [t_start], [t_end],
    [n_frames] and [steps_per_frame] produce the same [times], whatever
    their cups and physical parameters are. *)
Theorem times_ignore_physics `{P : Platform} (cfg1 cfg2 : SimulationConfig) :
  validate_config cfg1 = Ok () → validate_config cfg2 = Ok () →
  sizes_fit cfg1 → sizes_fit cfg2 →
  vectors_fit cfg1 → vectors_fit cfg2 →
  t_start cfg1 = t_start cfg2 → t_end cfg1 = t_end cfg2 →
  n_frames cfg1 = n_frames cfg2 →
  steps_per_frame cfg1 = steps_per_frame cfg2 →
  ∃ r1 r2, simulate cfg1 = Ok r1 ∧ simulate cfg2 = Ok r2 ∧
    times r1 = times r2.
Proof.
  intros Hacc1 Hacc2 Hfit1 Hfit2 Hvec1 Hvec2 Hts Hte Hnf Hsp.
  destruct (simulate_spec cfg1 Hacc1 Hfit1 Hvec1) as (r1 & Hr1 & Hrec1).
  destruct (simulate_spec cfg2 Hacc2 Hfit2 Hvec2) as (r2 & Hr2 & Hrec2).
  exists r1, r2. split; [done|]. split; [done|].
  assert (Hf : frames cfg1 = frames cfg2) by (unfold frames; by rewrite Hnf).
  assert (Hs : substeps cfg1 = substeps cfg2)
    by (unfold substeps; by rewrite Hsp).
  assert (Hdt : sub_dt cfg1 = sub_dt cfg2).
  { unfold sub_dt, frame_dt. by rewrite Hts, Hte, Hnf, Hsp. }
  apply list_eq. intros k.
  destruct (decide (k < frames cfg1)) as [Hk|Hk].
  - rewrite (rec_times _ _ _ Hrec1), (rec_times _ _ _ Hrec2) by lia.
    unfold time_after. by rewrite Hs, Hdt, Hts.
  - rewrite !lookup_ge_None_2; [done|..].
    + rewrite (rec_times_length _ _ _ Hrec2). lia.
    + rewrite (rec_times_length _ _ _ Hrec1). lia.
Qed.

Lemma times_ignore_physics_witness :
  ∃ r1 r2, simulate (P:=host64) make_valid_config = Ok r1 ∧
    simulate (P:=host64) torque_test_config = Ok r2 ∧
    times r1 = times r2.
Proof.
  apply (times_ignore_physics (P:=host64) make_valid_config
           torque_test_config); try reflexivity; sizes_ok.
Defined.

(** X16. The WebAssembly entry point [run_simulation] adds no check to
    [simulate].  On a platform whose [max_size()] is below
    [2 ^ size_bits], as it is wherever [max_size()] counts elements of
    eight bytes, no size can wrap around once the vectors fit: every
    accepted configuration with [n_cups + 2], [n_frames] and
    [n_cups * n_frames] at most [max_size()] runs to completion and returns
    series of lengths [n_frames], [n_frames] and [n_cups * n_frames]. *)
Theorem run_simulation_safe_range `{P : Platform} (cfg : SimulationConfig) :
  (max_size < 2 ^ size_bits)%N →
  validate_config cfg = Ok () → vectors_fit cfg →
  ∃ r, run_simulation cfg = Ok r ∧
    length (times r) = N.to_nat (n_frames cfg) ∧
    length (theta r) = N.to_nat (n_frames cfg) ∧
    length (masses r) = N.to_nat (n_cups cfg) * N.to_nat (n_frames cfg).
Proof.
  intros Hmax Hacc Hvec.
  assert (Hfit : sizes_fit cfg).
  { destruct Hvec as (H1 & H2 & H3). split; lia. }
  destruct (simulate_spec cfg Hacc Hfit Hvec) as (r & Hr & Hrec).
  exists r. split; [done|]. split_and!; apply Hrec.
Qed.

Lemma run_simulation_safe_range_witness :
  ∃ r, run_simulation (P:=wasm32) make_valid_config = Ok r ∧
    length (times r) = 5 ∧ length (theta r) = 5 ∧
    length (masses r) = 2 * 5.
Proof.
  apply (run_simulation_safe_range (P:=wasm32) make_valid_config);
    [vm_compute; reflexivity | reflexivity | sizes_ok].
Defined.


(** ** States of any length *)

Section StateBounds.
Context `{P : Platform}.
Implicit Types (cfg : SimulationConfig) (state : list float).

(** A derivative was computed: the state had room for every cup. *)
Lemma compute_derivatives_Ok_inv cfg state d :
  (N.of_nat (length state) < 2 ^ size_bits)%N →
  compute_derivatives state cfg = Ok d →
  N.to_nat (n_cups cfg) + 2 ≤ length state.
Proof.
  intros Hfit H. unfold compute_derivatives in H.
  apply bind_Ok_inv in H as (th & H0 & H).
  apply bind_Ok_inv in H as (om & H1 & H).
  cbv zeta in H.
  apply bind_Ok_inv in H as (torque & Hloop & _).
  apply at_Ok_inv in H0, H1.
  apply (for_from_Ok_inv (λ _, True)
           (λ j, N.to_nat (size_add 2 j) < length state)) in Hloop
    as [_ Hq]; [|..|done].
  - destruct (decide (N.to_nat (n_cups cfg) + 2 ≤ length state)) as [|Hn];
      [done|]. exfalso.
    specialize (Hq (length state - 2) ltac:(lia)).
    rewrite N.add_0_l, size_add_small in Hq by lia. lia.
  - intros j t t' _ Hb. split; [done|]. unfold torque_body in Hb.
    apply bind_Ok_inv in Hb as (m & Hm & _). by apply at_Ok_inv in Hm.
Qed.

Lemma rk4_step_defined cfg state dt :
  N.to_nat (n_cups cfg) + 2 ≤ length state →
  (N.of_nat (length state) < 2 ^ size_bits)%N →
  ∃ state', rk4_step state dt cfg = Ok state' ∧
    length state' = length state.
Proof.
  intros Hlen Hfit. unfold rk4_step. cbv zeta.
  assert (Hd : ∀ st, length st = length state →
    ∃ d, compute_derivatives st cfg = Ok d ∧ length d = length state).
  { intros st Hst. rewrite <- Hst.
    apply compute_derivatives_defined; by rewrite Hst. }
  destruct (Hd state eq_refl) as (k1 & -> & L1).
  cbn [mbind outcome_bind].
  rewrite predict_spec by (done || by rewrite length_replicate).
  cbn [mbind outcome_bind].
  destruct (Hd (axpy (dt * 0.5) state k1)) as (k2 & -> & L2);
    [by apply length_axpy|].
  cbn [mbind outcome_bind].
  rewrite predict_spec by (done || by rewrite length_axpy).
  cbn [mbind outcome_bind].
  destruct (Hd (axpy (dt * 0.5) state k2)) as (k3 & -> & L3);
    [by apply length_axpy|].
  cbn [mbind outcome_bind].
  rewrite predict_spec by (done || by rewrite length_axpy).
  cbn [mbind outcome_bind].
  destruct (Hd (axpy dt state k3)) as (k4 & -> & L4);
    [by apply length_axpy|].
  cbn [mbind outcome_bind].
  rewrite update_spec by done.
  eexists. split; [done|]. by apply length_rk4_combine.
Qed.

End StateBounds.

(** X17. [compute_derivatives] and [rk4_step] read [state[2 + i]] for
    every cup [i < n_cups] without checking the length of the state.  Each
    of them returns exactly when the state has at least [n_cups + 2]
    elements, and then the vector it returns has the length of the state;
    on a shorter state each reads out of bounds.  Neither ever throws. *)
Theorem state_needs_room_for_every_cup `{P : Platform}
    (cfg : SimulationConfig) (state : list float) (dt : float) :
  (N.of_nat (length state) < 2 ^ size_bits)%N →
  ((∃ d, compute_derivatives state cfg = Ok d) ↔
   N.to_nat (n_cups cfg) + 2 ≤ length state) ∧
  ((∃ state', rk4_step state dt cfg = Ok state') ↔
   N.to_nat (n_cups cfg) + 2 ≤ length state) ∧
  (∀ d, compute_derivatives state cfg = Ok d → length d = length state) ∧
  (∀ state', rk4_step state dt cfg = Ok state' →
     length state' = length state) ∧
  (length state < N.to_nat (n_cups cfg) + 2 →
   compute_derivatives state cfg = Undefined ∧
   rk4_step state dt cfg = Undefined).
Proof.
  intros Hfit.
  assert (Hcd : (∃ d, compute_derivatives state cfg = Ok d) ↔
                N.to_nat (n_cups cfg) + 2 ≤ length state).
  { split.
    - intros [d Hd]. by eapply compute_derivatives_Ok_inv.
    - intros Hlen.
      destruct (compute_derivatives_defined cfg state Hlen Hfit)
        as (d & Hd & _). eauto. }
  assert (Hrk : (∃ state', rk4_step state dt cfg = Ok state') ↔
                N.to_nat (n_cups cfg) + 2 ≤ length state).
  { split.
    - intros [s Hs]. unfold rk4_step in Hs. cbv zeta in Hs.
      apply bind_Ok_inv in Hs as (k1 & Hk1 & _).
      by eapply compute_derivatives_Ok_inv.
    - intros Hlen.
      destruct (rk4_step_defined cfg state dt Hlen Hfit) as (s & Hs & _).
      eauto. }
  split; [done|]. split; [done|]. split_and!.
  - intros d Hd.
    assert (Hlen : N.to_nat (n_cups cfg) + 2 ≤ length state)
      by (apply Hcd; eauto).
    destruct (compute_derivatives_defined cfg state Hlen Hfit)
      as (d' & Hd' & Hl). congruence.
  - intros s Hs.
    assert (Hlen : N.to_nat (n_cups cfg) + 2 ≤ length state)
      by (apply Hrk; eauto).
    destruct (rk4_step_defined cfg state dt Hlen Hfit) as (s' & Hs' & Hl).
    congruence.
  - intros Hshort. split.
    + destruct (compute_derivatives state cfg) as [d|what| |] eqn:E;
        [| | |done].
      * assert (N.to_nat (n_cups cfg) + 2 ≤ length state)
          by (apply Hcd; eauto). lia.
      * exfalso. apply (compute_derivatives_no_throw state cfg). by exists what.
      * by apply compute_derivatives_no_length_error in E.
    + destruct (rk4_step state dt cfg) as [s|what| |] eqn:E; [| | |done].
      * assert (N.to_nat (n_cups cfg) + 2 ≤ length state)
          by (apply Hrk; eauto). lia.
      * exfalso. apply (rk4_step_no_throw state dt cfg). by exists what.
      * by apply rk4_step_no_length_error in E.
Qed.

Lemma state_needs_room_for_every_cup_witness :
  ((∃ d, compute_derivatives (P:=host64) [0; 1]%float torque_test_config
         = Ok d) ↔ 1 + 2 ≤ 2) ∧
  ((∃ state', rk4_step (P:=host64) [0; 1]%float 0.1 torque_test_config
              = Ok state') ↔ 1 + 2 ≤ 2) ∧
  (∀ d, compute_derivatives (P:=host64) [0; 1]%float torque_test_config
        = Ok d → length d = 2) ∧
  (∀ state', rk4_step (P:=host64) [0; 1]%float 0.1 torque_test_config
             = Ok state' → length state' = 2) ∧
  (2 < 1 + 2 →
   compute_derivatives (P:=host64) [0; 1]%float torque_test_config
   = Undefined ∧
   rk4_step (P:=host64) [0; 1]%float 0.1 torque_test_config = Undefined).
Proof.
  apply (state_needs_room_for_every_cup (P:=host64) torque_test_config
           [0; 1]%float 0.1).
  vm_compute. reflexivity.
Defined.


(** ** Division by a zero inertia *)

Lemma div_by_zero_not_finite x z :
  is_zero z = true → isfinite (x / z) = false.
Proof.
  unfold is_zero, isfinite. rewrite div_spec.
  destruct (Prim2SF z) as [[|]|[|]| |[|] ? ?]; try discriminate;
    by destruct (Prim2SF x) as [[|]|[|]| |[|] ? ?].
Qed.

(** X18. Frame 0 is the initial condition, which the configuration cannot
    change apart from the start time: for every accepted configuration
    whose sizes fit [std::size_t] and [max_size()], [times[0]] is
    [t_start], [theta[0]] is [+0.0] and the mass of every cup at frame 0
    is [+0.0]. *)
Theorem first_frame_is_initial_state `{P : Platform} (cfg : SimulationConfig) :
  validate_config cfg = Ok () → sizes_fit cfg → vectors_fit cfg →
  ∃ r, simulate cfg = Ok r ∧
    times r !! 0 = Some (t_start cfg) ∧
    theta r !! 0 = Some 0%float ∧
    ∀ c, c < N.to_nat (n_cups cfg) →
      masses r !! (c * N.to_nat (n_frames cfg)) = Some 0%float.
Proof.
  intros Hacc Hfit Hvec.
  destruct (simulate_spec cfg Hacc Hfit Hvec) as (r & Hr & Hrec).
  pose proof (accepted_inv cfg Hacc) as (_ & Hf & _).
  exists r. split; [done|]. split_and!.
  - by rewrite (rec_times _ _ _ Hrec 0) by lia.
  - by rewrite (rec_theta _ _ _ Hrec 0) by lia.
  - intros c Hc.
    pose proof (rec_masses _ _ _ Hrec 0 c ltac:(lia) Hc) as Hm.
    rewrite Nat.add_0_r in Hm. unfold frames in Hm. rewrite Hm.
    unfold state_after, initial_state. simpl.
    apply lookup_replicate. done.
Qed.

Lemma first_frame_is_initial_state_witness :
  ∃ r, simulate (P:=host64) make_valid_config = Ok r ∧
    times r !! 0 = Some 0%float ∧ theta r !! 0 = Some 0%float ∧
    ∀ c, c < 2 → masses r !! (c * 5) = Some 0%float.
Proof.
  apply (first_frame_is_initial_state (P:=host64) make_valid_config);
    [reflexivity | sizes_ok | sizes_ok].
Defined.

(** X19. The division by [inertia] is not guarded: with [inertia = 0]
    (the default of the header, which validation accepts) the angular
    acceleration that [compute_derivatives] returns is never a finite
    number, whatever the state and the other parameters are: it is an
    infinity or a NaN. *)
Theorem zero_inertia_acceleration_not_finite `{P : Platform}
    (cfg : SimulationConfig) (state : list float) :
  length state = N.to_nat (n_cups cfg) + 2 →
  (N.of_nat (length state) < 2 ^ size_bits)%N →
  is_zero (inertia cfg) = true →
  ∃ d acceleration, compute_derivatives state cfg = Ok d ∧
    d !! 1 = Some acceleration ∧ isfinite acceleration = false.
Proof.
  intros Hlen Hfit Hi.
  rewrite (compute_derivatives_spec cfg state Hlen Hfit).
  destruct state as [|th [|om ms]]; simpl in Hlen; try lia.
  eexists _, _. split; [done|]. split; [done|].
  by apply div_by_zero_not_finite.
Qed.

Lemma zero_inertia_acceleration_not_finite_witness :
  ∃ d acceleration,
    compute_derivatives (P:=host64) [0; 1; 0]%float zero_inertia_config
    = Ok d ∧
    d !! 1 = Some acceleration ∧ isfinite acceleration = false.
Proof.
  apply (zero_inertia_acceleration_not_finite (P:=host64)
           zero_inertia_config [0; 1; 0]%float); reflexivity.
Defined.

(** ** Values that do not convert *)

Lemma require_cast_throws `{Py : Python} {A : Type}
    (data : gmap string py_object) key (cast : py_object → outcome A)
    value what :
  data !! key = Some value → cast value = Throw what →
  require data key ≫= cast = Throw what.
Proof. intros Hv Hc. unfold require. by rewrite Hv. Qed.

(** One key of [make_config_from_dict]: either it is the one whose value
    does not convert, or it is read and converted. *)
Ltac convert_key data Hi Hv Hbad Hprev i p lem :=
  destruct (decide (i = p)) as [->|?];
  [simpl in Hi; injection Hi as <- <-;
   by rewrite (require_cast_throws data _ _ _ _ Hv Hbad)|];
  let x := fresh "x" in let Hx := fresh "Hx" in
  destruct (lem data _ (Hprev p _ _ ltac:(lia) eq_refl)) as [x Hx];
  rewrite Hx; cbn [mbind outcome_bind]; clear Hx.

(** X20. A value that is present but does not convert: the exception of
    the conversion is what [make_config_from_dict] throws, provided the
    keys read before it are present and convert; no later key is looked at
    and no range check is made. *)
Theorem conversion_error_propagates `{Py : Python}
    (data : gmap string py_object) (steps : N) (i : nat) (key : string)
    (to_size : bool) (value : py_object) (what : string) :
  required_keys !! i = Some (key, to_size) →
  data !! key = Some value →
  (if to_size then cast_size value = Throw what
   else cast_double value = Throw what) →
  (∀ j key' to_size', j < i → required_keys !! j = Some (key', to_size') →
     converts data key' to_size') →
  make_config_from_dict data steps = Throw what.
Proof.
  intros Hi Hv Hbad Hprev. unfold make_config_from_dict.
  assert (Hlt : i < 11).
  { apply lookup_lt_Some in Hi. simpl in Hi. done. }
  convert_key data Hi Hv Hbad Hprev i 0 require_converts_size.
  convert_key data Hi Hv Hbad Hprev i 1 require_converts_double.
  convert_key data Hi Hv Hbad Hprev i 2 require_converts_double.
  convert_key data Hi Hv Hbad Hprev i 3 require_converts_double.
  convert_key data Hi Hv Hbad Hprev i 4 require_converts_double.
  convert_key data Hi Hv Hbad Hprev i 5 require_converts_double.
  convert_key data Hi Hv Hbad Hprev i 6 require_converts_double.
  convert_key data Hi Hv Hbad Hprev i 7 require_converts_double.
  convert_key data Hi Hv Hbad Hprev i 8 require_converts_double.
  convert_key data Hi Hv Hbad Hprev i 9 require_converts_double.
  convert_key data Hi Hv Hbad Hprev i 10 require_converts_size.
  lia.
Qed.

Lemma conversion_error_propagates_witness :
  make_config_from_dict (Py:=python_ref 64)
    (<["RADIUS" := PyStr "wide"]> (delete "T_END" valid_dict)) 4
  = Throw "Unable to cast Python instance to C++ type".
Proof.
  apply (conversion_error_propagates (Py:=python_ref 64)
           (<["RADIUS" := PyStr "wide"]> (delete "T_END" valid_dict)) 4
           1 "RADIUS" false (PyStr "wide")).
  - reflexivity.
  - vm_compute. reflexivity.
  - reflexivity.
  - intros [|j] key' to_size' Hj Hk; [|lia].
    injection Hk as <- <-. eexists. split; [vm_compute; reflexivity|].
    eexists. vm_compute. reflexivity.
Defined.


(** ** The result in closed form *)

Lemma lookup_tabulate {A : Type} (f : nat → A) (n k : nat) :
  (f <$> seq 0 n) !! k = if decide (k < n) then Some (f k) else None.
Proof.
  rewrite list_lookup_fmap. case_decide as Hk.
  - by rewrite lookup_seq_lt.
  - rewrite lookup_seq_ge; [done|lia].
Qed.

Lemma list_eq_tabulate {A : Type} (f : nat → A) (n : nat) (l : list A) :
  length l = n → (∀ k, k < n → l !! k = Some (f k)) → l = f <$> seq 0 n.
Proof.
  intros Hlen Hl. apply list_eq. intros k. rewrite lookup_tabulate.
  case_decide as Hk; [by apply Hl|]. apply lookup_ge_None_2. lia.
Qed.

(** X21. The result of [simulate] is determined entry by entry by the
    configuration (and the platform's [sin] and [fmod]): for every accepted
    configuration whose sizes fit [std::size_t] and [max_size()],
    [simulate] returns exactly the result whose [times[k]] is the
    accumulated running time, whose [theta[k]] is the wheel angle and whose
    [masses[c * n_frames + k]] is the mass of cup [c] after
    [k * steps_per_frame] sub-steps from the initial state.  No entry keeps
    the value it was created with. *)
Theorem simulate_result_determined `{P : Platform} (cfg : SimulationConfig) :
  validate_config cfg = Ok () → sizes_fit cfg → vectors_fit cfg →
  simulate cfg = Ok (sampled_result cfg).
Proof.
  intros Hacc Hfit Hvec.
  destruct (simulate_spec cfg Hacc Hfit Hvec) as (r & Hr & Hrec).
  rewrite Hr. f_equal. destruct r as [ts ths ms].
  pose proof (rec_times_length _ _ _ Hrec) as Lt.
  pose proof (rec_theta_length _ _ _ Hrec) as Lth.
  pose proof (rec_masses_length _ _ _ Hrec) as Lm.
  pose proof (rec_times _ _ _ Hrec) as Ht.
  pose proof (rec_theta _ _ _ Hrec) as Hth.
  pose proof (rec_masses _ _ _ Hrec) as Hm.
  simpl in *. unfold sampled_result. f_equal.
  - by apply list_eq_tabulate.
  - apply list_eq_tabulate; [done|]. intros k Hk. rewrite (Hth k Hk).
    destruct (lookup_lt_is_Some_2 (state_after cfg (k * substeps cfg)) 0)
      as [x Hx]; [rewrite length_state_after; lia|].
    by rewrite Hx.
  - apply list_eq_tabulate; [done|]. intros idx Hidx.
    destruct (table_index cfg idx Hidx) as (c & k & Hc & Hk & ->).
    rewrite (Hm k c Hk Hc).
    replace ((c * frames cfg + k) `mod` frames cfg) with k.
    2:{ rewrite Nat.add_comm, Nat.Div0.mod_add. by rewrite Nat.mod_small. }
    replace ((c * frames cfg + k) `div` frames cfg) with c.
    2:{ rewrite Nat.div_add_l by lia. rewrite (Nat.div_small k) by done.
        lia. }
    destruct (lookup_lt_is_Some_2 (state_after cfg (k * substeps cfg))
                (2 + c)) as [x Hx]; [rewrite length_state_after; lia|].
    by rewrite Hx.
Qed.

Lemma simulate_result_determined_witness :
  simulate (P:=host64) make_valid_config
  = Ok (sampled_result (P:=host64) make_valid_config).
Proof.
  apply (simulate_result_determined (P:=host64) make_valid_config);
    [reflexivity | sizes_ok | sizes_ok].
Defined.
